(** * pdfcraft: session and artifact persistence

    A shallow embedding of the storage layer of pdfcraft and of the two
    tool views that use it:

    - [FileSystem]       : lib/storage/file-system.ts (the OPFS wrapper)
    - [SignatureStore]   : lib/storage/signature-store.ts (IndexedDB)
    - [PendingFileContext] : lib/contexts/PendingFileContext.tsx
    - [EditPDFTool]      : components/tools/edit-pdf/EditPDFTool.tsx
    - [SignPDFTool]      : components/tools/sign/SignPDFTool.tsx

    Asynchronous functions are computations in a state-and-exception monad
    over the browser state they touch; a rejected promise or a thrown
    exception is [Throw].  The browser interfaces the code calls (the File
    System standard, URL, timers, IndexedDB) are modelled next to the code
    that calls them. *)

From stdpp Require Import gmap strings list fin_maps pretty sorting.
From Stdlib Require Import ZArith Lia.
From Stdlib Require OrderedTypeEx.

Open Scope Z_scope.

(** ** JavaScript values shared by all modules *)

Record JsError := mkError { err_name : string; err_message : string }.

Inductive result (A : Type) : Type :=
| Ok (a : A)
| Throw (e : JsError).
Arguments Ok {A} a.
Arguments Throw {A} e.

Definition bytes := list Byte.byte.

(** A [Blob] is its bytes and its MIME type; a [File] is a Blob with a name. *)
Record Blob := mkBlob { blob_type : string; blob_bytes : bytes }.
Record File := mkFile { file_name : string; file_type : string; file_bytes : bytes }.

Definition blob_of_file (f : File) : Blob :=
  {| blob_type := file_type f; blob_bytes := file_bytes f |}.

(** [x || y] on strings: the empty string is falsy. *)
Definition str_or (x y : string) : string :=
  if decide (x = "") then y else x.

(** ** lib/contexts/PendingFileContext.tsx *)
Module PendingFileContext.

Record PendingFile := mkPending {
  file : File;
  toolSlug : string;
  fileName : string
}.

(** The value of the provider's state cell,
    [useState<PendingFile | null>(null)]. *)
Definition State := option PendingFile.

Definition initial : State := None.

(** The provider between two renders: [pendingFile] is the value of the
    cell that the callbacks of the current render have captured, and
    [queued] the values passed to [setPendingFileState] since that
    render, oldest first. *)
Record Provider := mkProvider {
  pendingFile : State;
  queued : list State
}.

(** The provider as a render leaves it: nothing queued. *)
Definition rendered (st : State) : Provider := mkProvider st [].

Definition setPendingFileState (v : State) (pr : Provider) : Provider :=
  mkProvider (pendingFile pr) (queued pr ++ [v]).

Definition setPendingFile (f : File) (slug name : string) (pr : Provider) : Provider :=
  setPendingFileState (Some {| file := f; toolSlug := slug; fileName := name |}) pr.

(** The callback reads the value its render captured, not the queue;
    it returns the file and the provider with the update queued. *)
Definition consumePendingFile (slug : string) (pr : Provider) : option File * Provider :=
  match pendingFile pr with
  | Some p =>
      if decide (toolSlug p = slug) then (Some (file p), setPendingFileState None pr)
      else (None, pr)
  | None => (None, pr)
  end.

Definition clearPendingFile (pr : Provider) : Provider :=
  setPendingFileState None pr.

(** React renders the provider again: the cell takes the value queued
    last, and the callbacks of the new render capture it. *)
Definition render (pr : Provider) : Provider :=
  rendered (default (pendingFile pr) (last (queued pr))).

End PendingFileContext.

(** ** The browser state seen by the tool views *)

(** Every call into the platform, in the order it is made. *)
Inductive Call :=
| CGetDirectory
| CGetFileHandle (name : string) (create : bool)
| CCreateWritable (name : string)
| CWrite (name : string) (data : bytes)
| CClose (name : string)
| CGetFile (name : string)
| CRemoveEntry (name : string)
| CCreateObjectURL (data : bytes)
| CRevokeObjectURL (url : nat)
| CDownload (url : nat) (download : string)
| CSetTimeout (delay : Z)
| CDateNow
| CImportModule
| CConsoleLog
| CConsoleWarn
| CConsoleError.

(** The await at which a [saveFileToOPFS] that has got its root is
    suspended, with what it holds by then. *)
Inductive Suspended :=
| AtGetFileHandle
| AtCreateWritable (fileHandle : string)
| AtWrite (writable : string * bytes)
| AtClose (writable : string * bytes).

(** A [saveFileToOPFS] started without [await], with the console method
    its [.catch] passes the rejection to: [TaskSave] while it is suspended
    at its first await, the one of [getRoot], [TaskSaveAt] at a later
    one. *)
Inductive Task :=
| TaskSave (name : string) (b : Blob) (on_reject : Call)
| TaskSaveAt (at_ : Suspended) (name : string) (b : Blob) (on_reject : Call).

(** A pending [setTimeout(() => URL.revokeObjectURL(url), delay)]. *)
Record Timer := mkTimer { timer_delay : Z; timer_url : nat }.

(** [localStorage['pdfjs.preferences']]: missing, not parseable as JSON, or
    an object (key to JSON text). *)
Inductive PrefStore :=
| PrefsAbsent
| PrefsMalformed
| PrefsObject (m : gmap string string).

(** The [useState] cells of EditPDFTool. *)
Record EditState := mkEdit {
  edit_file : option File;
  edit_pdfUrl : option nat;
  edit_error : option string;
  edit_isEditorReady : bool;
  edit_isFullScreen : bool
}.

(** The [useState] cells of SignPDFTool; the first three are [signState]. *)
Record SignState := mkSign {
  sign_file : option File;
  sign_blobUrl : option nat;
  sign_viewerReady : bool;
  sign_error : option string;
  sign_isProcessing : bool;
  sign_flattenSignature : bool
}.

Definition edit_initial : EditState := mkEdit None None None false false.
Definition sign_initial : SignState := mkSign None None false None false true.

Record World := mkWorld {
  w_files : gmap string bytes            (* the origin private directory *);
  w_mime : string -> string              (* type the platform reports for a name *);
  w_faults : list (option JsError)       (* one entry per fallible platform call *);
  w_clock : list Z                       (* successive readings of Date.now() *);
  w_urls : list nat                      (* live object URLs *);
  w_next_url : nat                       (* the next object URL to hand out *);
  w_timers : list Timer                  (* timers not yet fired *);
  w_tasks : list Task                    (* promises not yet settled *);
  w_pending : PendingFileContext.State   (* the handoff provider *);
  w_prefs : PrefStore                    (* localStorage *);
  w_edit : EditState                     (* state of the mounted EditPDFTool *);
  w_sign : SignState                     (* state of the mounted SignPDFTool *);
  w_trace : list Call                    (* platform calls so far *)
}.

Definition set_files (x : gmap string bytes) (w : World) : World :=
  mkWorld x (w_mime w) (w_faults w) (w_clock w) (w_urls w) (w_next_url w) (w_timers w) (w_tasks w) (w_pending w) (w_prefs w) (w_edit w) (w_sign w) (w_trace w).
Definition set_faults (x : list (option JsError)) (w : World) : World :=
  mkWorld (w_files w) (w_mime w) x (w_clock w) (w_urls w) (w_next_url w) (w_timers w) (w_tasks w) (w_pending w) (w_prefs w) (w_edit w) (w_sign w) (w_trace w).
Definition set_clock (x : list Z) (w : World) : World :=
  mkWorld (w_files w) (w_mime w) (w_faults w) x (w_urls w) (w_next_url w) (w_timers w) (w_tasks w) (w_pending w) (w_prefs w) (w_edit w) (w_sign w) (w_trace w).
Definition set_urls (x : list nat) (w : World) : World :=
  mkWorld (w_files w) (w_mime w) (w_faults w) (w_clock w) x (w_next_url w) (w_timers w) (w_tasks w) (w_pending w) (w_prefs w) (w_edit w) (w_sign w) (w_trace w).
Definition set_timers (x : list Timer) (w : World) : World :=
  mkWorld (w_files w) (w_mime w) (w_faults w) (w_clock w) (w_urls w) (w_next_url w) x (w_tasks w) (w_pending w) (w_prefs w) (w_edit w) (w_sign w) (w_trace w).
Definition set_tasks (x : list Task) (w : World) : World :=
  mkWorld (w_files w) (w_mime w) (w_faults w) (w_clock w) (w_urls w) (w_next_url w) (w_timers w) x (w_pending w) (w_prefs w) (w_edit w) (w_sign w) (w_trace w).
Definition set_pending (x : PendingFileContext.State) (w : World) : World :=
  mkWorld (w_files w) (w_mime w) (w_faults w) (w_clock w) (w_urls w) (w_next_url w) (w_timers w) (w_tasks w) x (w_prefs w) (w_edit w) (w_sign w) (w_trace w).
Definition set_prefs (x : PrefStore) (w : World) : World :=
  mkWorld (w_files w) (w_mime w) (w_faults w) (w_clock w) (w_urls w) (w_next_url w) (w_timers w) (w_tasks w) (w_pending w) x (w_edit w) (w_sign w) (w_trace w).
Definition set_edit (x : EditState) (w : World) : World :=
  mkWorld (w_files w) (w_mime w) (w_faults w) (w_clock w) (w_urls w) (w_next_url w) (w_timers w) (w_tasks w) (w_pending w) (w_prefs w) x (w_sign w) (w_trace w).
Definition set_sign (x : SignState) (w : World) : World :=
  mkWorld (w_files w) (w_mime w) (w_faults w) (w_clock w) (w_urls w) (w_next_url w) (w_timers w) (w_tasks w) (w_pending w) (w_prefs w) (w_edit w) x (w_trace w).
Definition set_next_url (us : list nat) (n : nat) (w : World) : World :=
  set_urls us (mkWorld (w_files w) (w_mime w) (w_faults w) (w_clock w) (w_urls w) n (w_timers w) (w_tasks w) (w_pending w) (w_prefs w) (w_edit w) (w_sign w) (w_trace w)).
Definition log (c : Call) (w : World) : World :=
  mkWorld (w_files w) (w_mime w) (w_faults w) (w_clock w) (w_urls w) (w_next_url w) (w_timers w) (w_tasks w) (w_pending w) (w_prefs w) (w_edit w) (w_sign w) (w_trace w ++ [c]).

(** ** The monad of asynchronous code

    [St S A]: a computation over a state [S] that returns an [A] or throws
    (an [async] function whose promise resolves or rejects). *)

Definition St (S A : Type) : Type := S -> result A * S.

Definition ret {S A} (a : A) : St S A := fun s => (Ok a, s).

Definition bind {S A B} (m : St S A) (k : A -> St S B) : St S B :=
  fun s => match m s with
           | (Ok a, s') => k a s'
           | (Throw e, s') => (Throw e, s')
           end.

Definition throw {S A} (e : JsError) : St S A := fun s => (Throw e, s).

(** [try { body } catch (e) { handler e }] *)
Definition try_catch {S A} (body : St S A) (handler : JsError -> St S A) : St S A :=
  fun s => match body s with
           | (Ok a, s') => (Ok a, s')
           | (Throw e, s') => handler e s'
           end.

Definition modify {S} (f : S -> S) : St S unit := fun s => (Ok tt, f s).
Definition gets {S A} (f : S -> A) : St S A := fun s => (Ok (f s), s).

Notation "x <- c1 ;; c2" := (bind c1 (fun x => c2))
  (at level 100, c1 at next level, right associativity).
Notation "c1 ;; c2" := (bind c1 (fun _ => c2))
  (at level 100, right associativity).

Abbreviation M := (St World).

(** A fallible platform call: it is recorded, then the next entry of the
    fault oracle decides whether it rejects.  An exhausted oracle injects
    nothing. *)
Definition platform (c : Call) : M unit :=
  fun w =>
    let w1 := log c w in
    match w_faults w1 with
    | Some e :: fs => (Throw e, set_faults fs w1)
    | None :: fs => (Ok tt, set_faults fs w1)
    | [] => (Ok tt, w1)
    end.

(** A platform call that cannot fail. *)
Definition effect (c : Call) : M unit := modify (log c).

Definition NotFoundError : JsError :=
  {| err_name := "NotFoundError";
     err_message := "A requested file or directory could not be found" |}.

(** [Date.now()] *)
Definition Date_now : M Z :=
  fun w =>
    let w1 := log CDateNow w in
    match w_clock w1 with
    | t :: ts => (Ok t, set_clock ts w1)
    | [] => (Ok 0, w1)
    end.

(** [URL.createObjectURL(blob)] *)
Definition createObjectURL (b : Blob) : M nat :=
  platform (CCreateObjectURL (blob_bytes b)) ;;
  u <- gets w_next_url ;;
  modify (fun w => set_next_url (u :: w_urls w) (S u) w) ;;
  ret u.

(** [URL.revokeObjectURL(url)]: releasing an unknown URL is a no-op. *)
Definition revokeObjectURL (u : nat) : M unit :=
  effect (CRevokeObjectURL u) ;;
  modify (fun w => set_urls (filter (fun v => v ≠ u) (w_urls w)) w).

(** [setTimeout(() => URL.revokeObjectURL(url), delay)] *)
Definition setTimeout_revoke (u : nat) (delay : Z) : M unit :=
  effect (CSetTimeout delay) ;;
  modify (fun w => set_timers (w_timers w ++ [mkTimer delay u]) w).

(** All pending timers fire, oldest first. *)
Definition fire_timers : M unit :=
  ts <- gets w_timers ;;
  modify (set_timers []) ;;
  foldr (fun t k => revokeObjectURL (timer_url t) ;; k) (ret tt) ts.

(** The anchor element: create [a], set [href] and [download], append,
    click, remove. *)
Definition download_via_anchor (u : nat) (name : string) : M unit :=
  platform (CDownload u name).

(** [promise.catch(console.xxx)] without [await]: the call has run up to
    its first await when the handler goes on; the write is in flight from
    then on and passes its awaits between the events that follow
    ([resume], [settle]); the trace has a platform call of the write where
    the await on it completes. *)
Definition spawn (t : Task) : M unit :=
  modify (fun w => set_tasks (w_tasks w ++ [t]) w).

(** The read-modify-write of [localStorage['pdfjs.preferences']] inside its
    own [try]/[catch]: a value that does not parse leaves the store alone
    and warns. *)
Definition configurePrefs (update : gmap string string -> gmap string string) : M unit :=
  prefs <- gets w_prefs ;;
  match prefs with
  | PrefsAbsent => modify (set_prefs (PrefsObject (update ∅)))
  | PrefsObject m => modify (set_prefs (PrefsObject (update m)))
  | PrefsMalformed => effect CConsoleWarn
  end.

(** [event.data] of a [message] event: untyped, every field may be missing. *)
Record MessageData := mkMessage {
  msg_type : option string;
  msg_blob : option Blob;
  msg_filename : option string
}.

(** [filename || fallback] *)
Definition filename_or (filename : option string) (fallback : M string) : M string :=
  match filename with
  | Some f => if decide (f = "") then fallback else ret f
  | None => fallback
  end.

(** What a tool view renders: the uploader while it holds no file, the
    viewer on the file otherwise. *)
Inductive Phase :=
| AwaitingUpload
| Ready (doc : File).

Definition phase_of (f : option File) : Phase :=
  match f with
  | None => AwaitingUpload
  | Some doc => Ready doc
  end.

(** ** lib/storage/file-system.ts *)
Module FileSystem.

(** *** The File System standard, as far as the wrapper uses it *)

(** [navigator.storage.getDirectory()] *)
Definition getDirectory : M unit := platform CGetDirectory.

(** [root.getFileHandle(name, {create})]: a missing entry is created empty
    when [create] is set and is a NotFoundError otherwise. *)
Definition getFileHandle (name : string) (create : bool) : M string :=
  platform (CGetFileHandle name create) ;;
  fs <- gets w_files ;;
  match fs !! name with
  | Some _ => ret name
  | None =>
      if create then modify (set_files (<[name := []]> fs)) ;; ret name
      else throw NotFoundError
  end.

(** [fileHandle.createWritable()]: rejects with NotFoundError when the
    entry of the handle is gone; the stream writes to a swap buffer that
    starts empty, and the entry itself is untouched until [close].  The
    lock the stream holds on its entry is not modelled: where a platform
    refuses [removeEntry] while a stream is open and [close] replaces the
    bytes, here the entry is removed and [close] puts it back; the
    directory after the [close] is the same. *)
Definition createWritable (h : string) : M (string * bytes) :=
  platform (CCreateWritable h) ;;
  fs <- gets w_files ;;
  match fs !! h with
  | Some _ => ret (h, [])
  | None => throw NotFoundError
  end.

(** [writable.write(blob)] at position 0 of the swap buffer. *)
Definition write (wr : string * bytes) (b : Blob) : M (string * bytes) :=
  platform (CWrite (fst wr) (blob_bytes b)) ;;
  ret (fst wr, blob_bytes b ++ drop (length (blob_bytes b)) (snd wr)).

(** [writable.close()] replaces the entry's bytes by the swap buffer. *)
Definition close (wr : string * bytes) : M unit :=
  platform (CClose (fst wr)) ;;
  modify (fun w => set_files (<[fst wr := snd wr]> (w_files w)) w).

(** [fileHandle.getFile()]: a File named after the entry, typed by the
    platform from the name. *)
Definition getFile (h : string) : M File :=
  platform (CGetFile h) ;;
  fs <- gets w_files ;;
  mime <- gets w_mime ;;
  match fs !! h with
  | Some data => ret {| file_name := h; file_type := mime h; file_bytes := data |}
  | None => throw NotFoundError
  end.

(** [root.removeEntry(name)]: rejects with NotFoundError when there is no
    entry of that name. *)
Definition removeEntry (name : string) : M unit :=
  platform (CRemoveEntry name) ;;
  fs <- gets w_files ;;
  match fs !! name with
  | Some _ => modify (set_files (delete name fs))
  | None => throw NotFoundError
  end.

(** *** The wrapper *)

Definition getRoot : M unit := getDirectory.

Definition saveFileToOPFS (name : string) (blob : Blob) : M unit :=
  getRoot ;;
  fileHandle <- getFileHandle name true ;;
  writable <- createWritable fileHandle ;;
  writable <- write writable blob ;;
  close writable.

Definition loadFileFromOPFS (name : string) : M File :=
  getRoot ;;
  fileHandle <- getFileHandle name false ;;
  getFile fileHandle.

Definition deleteFileFromOPFS (name : string) : M unit :=
  getRoot ;;
  removeEntry name.

(** [isOPFSSupported]; [has_storage] is what
    [typeof navigator !== 'undefined' && navigator.storage] evaluates to. *)
Definition isOPFSSupported (has_storage : bool) : M bool :=
  if negb has_storage then ret false
  else try_catch (getDirectory ;; ret true) (fun _ => ret false).

Record FileEntry := mkEntry {
  name : string;
  size : nat;
  lastModified : Z;
  type : string
}.

(** A handle that [root.values()] yields, with its [kind] and [name]. *)
Inductive Handle :=
| FileHandle (name : string)
| DirectoryHandle (name : string).

(** The body of the [for await] loop over [root.values()], one handle
    after the other; only handles of kind 'file' are read. *)
Fixpoint list_handles (lastModifiedOf : string -> Z) (handles : list Handle)
    (files : list FileEntry) : M (list FileEntry) :=
  match handles with
  | [] => ret files
  | DirectoryHandle _ :: rest => list_handles lastModifiedOf rest files
  | FileHandle handle :: rest =>
      file <- getFile handle ;;
      list_handles lastModifiedOf rest
        (files ++ [{| name := file_name file;
                      size := length (file_bytes file);
                      lastModified := lastModifiedOf (file_name file);
                      type := file_type file |}])
  end.

(** [listFilesInOPFS]; [values] is what the iterator [root.values()]
    yields, in the order the platform chooses, and [lastModifiedOf] what
    it reports as modification time. *)
Definition listFilesInOPFS (lastModifiedOf : string -> Z) (values : list Handle)
  : M (list FileEntry) :=
  getRoot ;;
  list_handles lastModifiedOf values [].

Definition storeTempPDF (file : Blob) : M string :=
  t <- Date_now ;;
  let fileName := "temp_edit_" +:+ pretty t +:+ ".pdf" in
  saveFileToOPFS fileName file ;;
  ret fileName.

End FileSystem.

(** ** Writes in flight

    A [saveFileToOPFS] that a handler starts without [await] runs between
    the events of the page, one await at a time. *)

(** The rest of [saveFileToOPFS] from the await it is suspended at. *)
Definition save_from (at_ : Suspended) (name : string) (blob : Blob) : M unit :=
  match at_ with
  | AtGetFileHandle =>
      fileHandle <- FileSystem.getFileHandle name true ;;
      writable <- FileSystem.createWritable fileHandle ;;
      writable <- FileSystem.write writable blob ;;
      FileSystem.close writable
  | AtCreateWritable fileHandle =>
      writable <- FileSystem.createWritable fileHandle ;;
      writable <- FileSystem.write writable blob ;;
      FileSystem.close writable
  | AtWrite writable =>
      writable <- FileSystem.write writable blob ;;
      FileSystem.close writable
  | AtClose writable => FileSystem.close writable
  end.

(** One await of the write completes: the platform call it waited for is
    made, and the write is suspended at its next await, or has resolved
    ([None]). *)
Definition save_step (t : Task) : M (option Task) :=
  match t with
  | TaskSave name b c =>
      FileSystem.getRoot ;; ret (Some (TaskSaveAt AtGetFileHandle name b c))
  | TaskSaveAt AtGetFileHandle name b c =>
      fileHandle <- FileSystem.getFileHandle name true ;;
      ret (Some (TaskSaveAt (AtCreateWritable fileHandle) name b c))
  | TaskSaveAt (AtCreateWritable fileHandle) name b c =>
      writable <- FileSystem.createWritable fileHandle ;;
      ret (Some (TaskSaveAt (AtWrite writable) name b c))
  | TaskSaveAt (AtWrite writable) name b c =>
      writable <- FileSystem.write writable b ;;
      ret (Some (TaskSaveAt (AtClose writable) name b c))
  | TaskSaveAt (AtClose writable) name b c =>
      FileSystem.close writable ;; ret None
  end.

Definition on_reject_of (t : Task) : Call :=
  match t with
  | TaskSave _ _ c => c
  | TaskSaveAt _ _ _ c => c
  end.

(** The oldest write in flight passes one await; a rejection goes to its
    [.catch] handler and ends it. *)
Definition resume : M unit :=
  ts <- gets w_tasks ;;
  match ts with
  | [] => ret tt
  | t :: rest =>
      try_catch
        (next <- save_step t ;;
         modify (set_tasks (match next with
                            | Some t' => t' :: rest
                            | None => rest
                            end)))
        (fun _ => modify (set_tasks rest) ;; effect (on_reject_of t))
  end.

(** The oldest write in flight runs to its end with no other event in
    between: what is left of its body runs, a rejection goes to its
    [.catch] handler. *)
Definition run_task (t : Task) : M unit :=
  match t with
  | TaskSave name b on_reject =>
      try_catch (FileSystem.saveFileToOPFS name b) (fun _ => effect on_reject)
  | TaskSaveAt at_ name b on_reject =>
      try_catch (save_from at_ name b) (fun _ => effect on_reject)
  end.

Definition settle : M unit :=
  ts <- gets w_tasks ;;
  match ts with
  | [] => ret tt
  | t :: rest => modify (set_tasks rest) ;; run_task t
  end.

(** ** components/tools/edit-pdf/EditPDFTool.tsx *)
Module EditPDFTool.
Import FileSystem.

Definition SESSION_FILE_NAME : string := "current_edit_session.pdf".

Definition setFile (f : option File) : M unit :=
  modify (fun w => let s := w_edit w in
    set_edit (mkEdit f (edit_pdfUrl s) (edit_error s) (edit_isEditorReady s) (edit_isFullScreen s)) w).
Definition setPdfUrl (u : option nat) : M unit :=
  modify (fun w => let s := w_edit w in
    set_edit (mkEdit (edit_file s) u (edit_error s) (edit_isEditorReady s) (edit_isFullScreen s)) w).
Definition setError (e : option string) : M unit :=
  modify (fun w => let s := w_edit w in
    set_edit (mkEdit (edit_file s) (edit_pdfUrl s) e (edit_isEditorReady s) (edit_isFullScreen s)) w).
Definition setIsEditorReady (b : bool) : M unit :=
  modify (fun w => let s := w_edit w in
    set_edit (mkEdit (edit_file s) (edit_pdfUrl s) (edit_error s) b (edit_isFullScreen s)) w).

(** [usePendingFile().consumePendingFile] of the render in which the
    view mounts; the provider renders again before the next event. *)
Definition consumePendingFile (slug : string) : M (option File) :=
  p <- gets w_pending ;;
  let '(f, provider) :=
    PendingFileContext.consumePendingFile slug (PendingFileContext.rendered p) in
  modify (set_pending
            (PendingFileContext.pendingFile (PendingFileContext.render provider))) ;;
  ret f.

(** The [message] listener. *)
Definition handleMessage (data : MessageData) : M unit :=
  if decide (msg_type data = Some "PDF_SESSION_BACKUP") then
    match msg_blob data with
    | Some blob => spawn (TaskSave SESSION_FILE_NAME blob CConsoleWarn)
    | None => ret tt
    end
  else if decide (msg_type data = Some "PDF_SAVE_DATA") then
    match msg_blob data with
    | Some blob =>
        try_catch
          (savedName <- filename_or (msg_filename data)
                          (t <- Date_now ;; ret ("edited_" +:+ pretty t +:+ ".pdf")) ;;
           saveFileToOPFS savedName blob ;;
           saveFileToOPFS SESSION_FILE_NAME blob ;;
           url <- createObjectURL blob ;;
           download_via_anchor url savedName ;;
           setTimeout_revoke url 1000)
          (fun e =>
             effect CConsoleError ;;
             setError (Some ("Failed to save file: " +:+ err_message e)))
    | None => ret tt
    end
  else ret tt.

(** [{...existingPrefs, enablePermissions: false}] *)
Definition editorPrefs (prefs : gmap string string) : gmap string string :=
  <["enablePermissions" := "false"]> prefs.

(** The mount effect. *)
Definition initializeFile : M unit :=
  file <- gets (fun w => edit_file (w_edit w)) ;;
  match file with
  | Some _ => ret tt
  | None =>
      pendingFile <- consumePendingFile "edit-pdf" ;;
      match pendingFile with
      | Some pendingFile =>
          effect CConsoleLog ;;
          setFile (Some pendingFile) ;;
          url <- createObjectURL (blob_of_file pendingFile) ;;
          setPdfUrl (Some url) ;;
          spawn (TaskSave SESSION_FILE_NAME (blob_of_file pendingFile) CConsoleError)
      | None =>
          try_catch
            (blob <- loadFileFromOPFS SESSION_FILE_NAME ;;
             let restoredFile :=
               {| file_name := "restored_document.pdf";
                  file_type := str_or (file_type blob) "application/pdf";
                  file_bytes := file_bytes blob |} in
             configurePrefs editorPrefs ;;
             setFile (Some restoredFile) ;;
             url <- createObjectURL (blob_of_file restoredFile) ;;
             setPdfUrl (Some url) ;;
             effect CConsoleLog)
            (fun _ => effect CConsoleLog)
      end
  end.

Definition handleFilesSelected (files : list File) : M unit :=
  match files with
  | selectedFile :: _ =>
      setFile (Some selectedFile) ;;
      setError None ;;
      url <- createObjectURL (blob_of_file selectedFile) ;;
      setPdfUrl (Some url) ;;
      spawn (TaskSave SESSION_FILE_NAME (blob_of_file selectedFile) CConsoleError)
  | [] => ret tt
  end.

Definition handleClear : M unit :=
  pdfUrl <- gets (fun w => edit_pdfUrl (w_edit w)) ;;
  match pdfUrl with Some u => revokeObjectURL u | None => ret tt end ;;
  try_catch (deleteFileFromOPFS SESSION_FILE_NAME) (fun _ => ret tt) ;;
  setFile None ;;
  setPdfUrl None ;;
  setError None ;;
  setIsEditorReady false.

(** The view is mounted: fresh state cells, then the mount effect. *)
Definition mount : M unit :=
  modify (set_edit edit_initial) ;;
  initializeFile.

(** The view is unmounted: the [pdfUrl] effect's cleanup runs. *)
Definition unmount : M unit :=
  pdfUrl <- gets (fun w => edit_pdfUrl (w_edit w)) ;;
  match pdfUrl with Some u => revokeObjectURL u | None => ret tt end.

Definition phase (w : World) : Phase := phase_of (edit_file (w_edit w)).

End EditPDFTool.

(** ** components/tools/sign/SignPDFTool.tsx *)
Module SignPDFTool.
Import FileSystem.

Definition SESSION_FILE_NAME : string := "current_sign_session.pdf".

Definition setSignState (f : option File) (u : option nat) (ready : bool) : M unit :=
  modify (fun w => let s := w_sign w in
    set_sign (mkSign f u ready (sign_error s) (sign_isProcessing s) (sign_flattenSignature s)) w).
Definition setError (e : option string) : M unit :=
  modify (fun w => let s := w_sign w in
    set_sign (mkSign (sign_file s) (sign_blobUrl s) (sign_viewerReady s) e
                     (sign_isProcessing s) (sign_flattenSignature s)) w).
Definition setIsProcessing (b : bool) : M unit :=
  modify (fun w => let s := w_sign w in
    set_sign (mkSign (sign_file s) (sign_blobUrl s) (sign_viewerReady s) (sign_error s)
                     b (sign_flattenSignature s)) w).

(** [delete existingPrefs.annotationEditorMode], then
    [{...existingPrefs, enableSignatureEditor: true, enablePermissions: false}] *)
Definition signaturePrefs (prefs : gmap string string) : gmap string string :=
  <["enablePermissions" := "false"]>
    (<["enableSignatureEditor" := "true"]> (delete "annotationEditorMode" prefs)).

(** The mount effect. *)
Definition restoreSession : M unit :=
  file <- gets (fun w => sign_file (w_sign w)) ;;
  match file with
  | Some _ => ret tt
  | None =>
      try_catch
        (blob <- loadFileFromOPFS SESSION_FILE_NAME ;;
         let restoredFile :=
           {| file_name := "restored_document.pdf";
              file_type := "application/pdf";
              file_bytes := file_bytes blob |} in
         blobUrl <- createObjectURL (blob_of_file restoredFile) ;;
         configurePrefs signaturePrefs ;;
         setSignState (Some restoredFile) (Some blobUrl) false ;;
         effect CConsoleLog)
        (fun _ => effect CConsoleLog)
  end.

(** The [message] listener. *)
Definition handleMessage (data : MessageData) : M unit :=
  if decide (msg_type data = Some "PDF_SESSION_BACKUP") then
    match msg_blob data with
    | Some blob => spawn (TaskSave SESSION_FILE_NAME blob CConsoleWarn)
    | None => ret tt
    end
  else if decide (msg_type data = Some "PDF_SAVE_DATA") then
    match msg_blob data with
    | Some blob =>
        try_catch
          (setIsProcessing true ;;
           savedName <- filename_or (msg_filename data)
                          (t <- Date_now ;; ret ("signed_" +:+ pretty t +:+ ".pdf")) ;;
           saveFileToOPFS savedName blob ;;
           saveFileToOPFS SESSION_FILE_NAME blob ;;
           url <- createObjectURL blob ;;
           download_via_anchor url savedName ;;
           setTimeout_revoke url 1000 ;;
           setIsProcessing false)
          (fun e =>
             effect CConsoleError ;;
             setError (Some ("Failed to save file: " +:+ err_message e)) ;;
             setIsProcessing false)
    | None => ret tt
    end
  else ret tt.

Definition handleFilesSelected (files : list File) : M unit :=
  match files with
  | file :: _ =>
      old <- gets (fun w => sign_blobUrl (w_sign w)) ;;
      match old with Some u => revokeObjectURL u | None => ret tt end ;;
      blobUrl <- createObjectURL (blob_of_file file) ;;
      try_catch (saveFileToOPFS SESSION_FILE_NAME (blob_of_file file))
                (fun _ => effect CConsoleWarn) ;;
      configurePrefs signaturePrefs ;;
      setSignState (Some file) (Some blobUrl) false ;;
      setError None
  | [] => ret tt
  end.

Definition handleClear : M unit :=
  blobUrl <- gets (fun w => sign_blobUrl (w_sign w)) ;;
  match blobUrl with Some u => revokeObjectURL u | None => ret tt end ;;
  try_catch (platform CImportModule ;; deleteFileFromOPFS SESSION_FILE_NAME)
            (fun _ => ret tt) ;;
  setSignState None None false ;;
  setError None.

(** What [handleSave] finds behind [iframeRef]: no iframe, a window
    without [PDFViewerApplication], or the application, whose [save()]
    resolves or rejects. *)
Inductive Viewer :=
| NoIframe
| NoApplication
| Application (save : result unit).

Definition handleSave (viewer : Viewer) : M unit :=
  ready <- gets (fun w => sign_viewerReady (w_sign w)) ;;
  match ready, viewer with
  | false, _ | _, NoIframe =>
      setError (Some "Viewer not ready. Please wait for the PDF to load.")
  | true, NoApplication =>
      setIsProcessing true ;;
      setError (Some "PDF viewer not initialized.") ;;
      setIsProcessing false
  | true, Application save =>
      try_catch
        (setIsProcessing true ;;
         (fun w => (save, w)) ;;        (* await app.save() *)
         setIsProcessing false)
        (fun _ =>
           effect CConsoleError ;;
           setError (Some "Failed to save signed PDF. Please try again.") ;;
           setIsProcessing false)
  end.

(** [handleIframeLoad] as far as the state goes. *)
Definition handleIframeLoad : M unit :=
  modify (fun w => let s := w_sign w in
    set_sign (mkSign (sign_file s) (sign_blobUrl s) true (sign_error s)
                     (sign_isProcessing s) (sign_flattenSignature s)) w).

Definition mount : M unit :=
  modify (set_sign sign_initial) ;;
  restoreSession.

Definition unmount : M unit :=
  blobUrl <- gets (fun w => sign_blobUrl (w_sign w)) ;;
  match blobUrl with Some u => revokeObjectURL u | None => ret tt end.

Definition phase (w : World) : Phase := phase_of (sign_file (w_sign w)).

End SignPDFTool.

(** ** lib/storage/signature-store.ts *)
Module SignatureStore.

Inductive SignatureType := svg | image.

Record StoredSignature := mkStored {
  id : string;
  type : SignatureType;
  data : string;
  createdAt : Z;
  width : option Z;
  height : option Z
}.

(** [Omit<StoredSignature, 'id' | 'createdAt'>] *)
Record NewSignature := mkNew {
  new_type : SignatureType;
  new_data : string;
  new_width : option Z;
  new_height : option Z
}.

(** The page's view of IndexedDB and of the two impure globals
    [saveSignature] reads. *)
Record Env := mkEnv {
  idb_supported : bool;                      (* window.indexedDB present *)
  idb_store : option (list StoredSignature); (* the object store, ascending by key *)
  idb_connections : nat;                     (* connections open *)
  idb_faults : list bool;                    (* per open, request and commit: it fails *)
  env_clock : list Z;                        (* readings of Date.now() *)
  env_random : list string                   (* readings of Math.random().toString(36) *)
}.

Definition DB_NAME : string := "pdfcraft_signatures".
Definition STORE_NAME : string := "signatures".
Definition DB_VERSION : Z := 1.

Definition Error (message : string) : JsError :=
  {| err_name := "Error"; err_message := message |}.

Definition next_fault (env : Env) : bool * Env :=
  match idb_faults env with
  | b :: fs => (b, mkEnv (idb_supported env) (idb_store env) (idb_connections env) fs
                         (env_clock env) (env_random env))
  | [] => (false, env)
  end.

Definition set_store (s : list StoredSignature) (env : Env) : Env :=
  mkEnv (idb_supported env) (Some s) (idb_connections env) (idb_faults env)
        (env_clock env) (env_random env).

Definition Date_now : St Env Z :=
  fun env =>
    match env_clock env with
    | t :: ts => (Ok t, mkEnv (idb_supported env) (idb_store env) (idb_connections env)
                              (idb_faults env) ts (env_random env))
    | [] => (Ok 0, env)
    end.

(** [Math.random().toString(36)] *)
Definition Math_random_base36 : St Env string :=
  fun env =>
    match env_random env with
    | r :: rs => (Ok r, mkEnv (idb_supported env) (idb_store env) (idb_connections env)
                              (idb_faults env) (env_clock env) rs)
    | [] => (Ok "0", env)
    end.

(** [s.substr(start, len)] *)
Definition substr (s : string) (start len : nat) : string :=
  String.substring start len s.

(** [db.close()] *)
Definition db_close : St Env unit :=
  modify (fun env => mkEnv (idb_supported env) (idb_store env) (Nat.pred (idb_connections env))
                           (idb_faults env) (env_clock env) (env_random env)).

(** *** The object store *)

(** Keys are compared as strings; the store keeps its records in
    ascending key order. *)
Fixpoint store_put (e : StoredSignature) (s : list StoredSignature) : list StoredSignature :=
  match s with
  | [] => [e]
  | x :: rest =>
      if String.ltb (id e) (id x) then e :: s else x :: store_put e rest
  end.

Definition store_has (k : string) (s : list StoredSignature) : bool :=
  existsb (fun x => String.eqb (id x) k) s.

Definition store_remove (k : string) (s : list StoredSignature) : list StoredSignature :=
  filter (fun x => id x ≠ k) s.

Inductive Request :=
| Add (entry : StoredSignature)
| GetAll
| Delete (key : string).

(** What the page observes of one request in its own transaction: whether
    the request fires [success] or [error], [req.result] as far as the
    code reads it (the records of a [getAll]), and whether the transaction
    fires [complete] or [abort]. *)
Record Outcome := mkOutcome {
  req_success : bool;
  req_result : list StoredSignature;
  tx_complete : bool
}.

(** One request in a transaction of its own.  A failed request aborts the
    transaction; [add] fails on a key already present; a transaction that
    aborts leaves the store as it was. *)
Definition transact (r : Request) : St Env Outcome :=
  fun env =>
    let s := default [] (idb_store env) in
    let '(req_fails, env1) := next_fault env in
    let rejected := match r with Add e => store_has (id e) s | _ => false end in
    if req_fails || rejected then (Ok (mkOutcome false [] false), env1)
    else
      let result := match r with GetAll => s | _ => [] end in
      let '(commit_fails, env2) := next_fault env1 in
      if commit_fails then (Ok (mkOutcome true result false), env2)
      else
        match r with
        | Add e => (Ok (mkOutcome true result true), set_store (store_put e s) env2)
        | GetAll => (Ok (mkOutcome true result true), env2)
        | Delete k => (Ok (mkOutcome true result true), set_store (store_remove k s) env2)
        end.

(** [array.sort(compare)]: the sort is stable; [x] stays in front of [y]
    unless [compare(x, y) > 0]. *)
Fixpoint sort_insert {A} (compare : A -> A -> Z) (x : A) (l : list A) : list A :=
  match l with
  | [] => [x]
  | y :: rest =>
      if (compare x y <=? 0)%Z then x :: l else y :: sort_insert compare x rest
  end.

Definition array_sort {A} (compare : A -> A -> Z) (l : list A) : list A :=
  foldr (sort_insert compare) [] l.

(** *** The module's functions *)

Definition openDB : St Env unit :=
  fun env =>
    if negb (idb_supported env) then (Throw (Error "IndexedDB not supported"), env)
    else
      let '(fails, env1) := next_fault env in
      if fails then (Throw (Error "Failed to open signature database"), env1)
      else
        (* onupgradeneeded creates the store on first open *)
        (Ok tt, mkEnv (idb_supported env1) (Some (default [] (idb_store env1)))
                      (S (idb_connections env1)) (idb_faults env1)
                      (env_clock env1) (env_random env1)).

(** The promise built around one request: [req.onsuccess], [req.onerror]
    and [tx.oncomplete] are the only handlers installed. *)
Definition request_promise {A} (r : Request)
    (onsuccess : list StoredSignature -> A) (onerror : JsError) : St Env A :=
  o <- transact r ;;
  (if tx_complete o then db_close else ret tt) ;;
  if req_success o then ret (onsuccess (req_result o)) else throw onerror.

Definition saveSignature (signature : NewSignature) : St Env string :=
  openDB ;;
  now1 <- Date_now ;;
  rnd <- Math_random_base36 ;;
  let id := "sig_" +:+ pretty now1 +:+ "_" +:+ substr rnd 2 5 in
  now2 <- Date_now ;;
  let entry :=
    {| id := id; type := new_type signature; data := new_data signature;
       createdAt := now2; width := new_width signature; height := new_height signature |} in
  request_promise (Add entry) (fun _ => id) (Error "Failed to save signature").

Definition getAllSignatures : St Env (list StoredSignature) :=
  openDB ;;
  request_promise GetAll
    (fun signatures => array_sort (fun a b => createdAt b - createdAt a) signatures)
    (Error "Failed to load signatures").

Definition deleteSignature (id : string) : St Env unit :=
  openDB ;;
  request_promise (Delete id) (fun _ => tt) (Error "Failed to delete signature").

End SignatureStore.

(** ** The event loop of a page *)

Inductive Event :=
| EvMount
| EvUnmount
| EvMessage (data : MessageData)
| EvFilesSelected (files : list File)
| EvClear
| EvSettle        (* the oldest write in flight runs to its end *)
| EvResume        (* the oldest write in flight passes one await *)
| EvTimers.       (* the pending timers fire *)

Definition edit_handler (ev : Event) : M unit :=
  match ev with
  | EvMount => EditPDFTool.mount
  | EvUnmount => EditPDFTool.unmount
  | EvMessage data => EditPDFTool.handleMessage data
  | EvFilesSelected files => EditPDFTool.handleFilesSelected files
  | EvClear => EditPDFTool.handleClear
  | EvSettle => settle
  | EvResume => resume
  | EvTimers => fire_timers
  end.

Definition sign_handler (ev : Event) : M unit :=
  match ev with
  | EvMount => SignPDFTool.mount
  | EvUnmount => SignPDFTool.unmount
  | EvMessage data => SignPDFTool.handleMessage data
  | EvFilesSelected files => SignPDFTool.handleFilesSelected files
  | EvClear => SignPDFTool.handleClear
  | EvSettle => settle
  | EvResume => resume
  | EvTimers => fire_timers
  end.

(** Events are handled one after the other; a rejection that nobody awaits
    is dropped and the page goes on from the state the handler left.  A
    handler is run whole at the place of its event among the awaits of a
    write in flight ([EvResume]).  For a clear that is the place of its
    [removeEntry]; for a mount it is the place of its [getFile], or of
    its [getFileHandle] when that one rejects: a write removes nothing, so
    however the awaits of these handlers fall among those of the write,
    the outcome is that of one such place. *)
Definition run_events (handler : Event -> M unit) (evs : list Event) (w : World) : World :=
  foldl (fun w ev => snd (handler ev w)) w evs.

(** ** components/common/RecentFilesDropdown.tsx *)
Module RecentFilesDropdown.

(** [RecentFile] of lib/storage/recent-files, as the dropdown reads it. *)
Record RecentFile := mkRecent {
  id : string;
  name : string;
  size : Z;
  processedAt : Z;
  toolUsed : string;
  toolName : option string;
  storagePath : option string
}.

(** The [useState] cells of the dropdown. *)
Record State := mkState {
  isOpen : bool;
  focusedIndex : Z;
  loadingFileId : option string
}.

Definition closed : State := mkState false (-1) None.

(** The route [router.push] is given. *)
Definition tool_route (locale tool : string) : string :=
  "/" +:+ locale +:+ "/tools/" +:+ tool.

(** [handleFileClick]: returns the state of the dropdown and the route
    pushed. *)
Definition handleFileClick (locale : string) (file : RecentFile)
  : M (State * string) :=
  effect CConsoleLog ;;
  (* setLoadingFileId(file.id): every path below sets the three cells again *)
  try_catch
    (match storagePath file with
     | Some path =>
         if decide (path = "") then
           effect CConsoleLog ;;
           ret (closed, tool_route locale (toolUsed file))
         else
           effect CConsoleLog ;;
           blob <- FileSystem.loadFileFromOPFS path ;;
           effect CConsoleLog ;;
           let loadedFile :=
             {| file_name := name file;
                file_type := str_or (file_type blob) "application/pdf";
                file_bytes := file_bytes blob |} in
           let targetTool := toolUsed file in
           modify (fun w => set_pending
                     (PendingFileContext.pendingFile
                        (PendingFileContext.render
                           (PendingFileContext.setPendingFile loadedFile targetTool
                              (name file) (PendingFileContext.rendered (w_pending w)))))
                     w) ;;
           effect CConsoleLog ;;
           ret (closed, tool_route locale targetTool)
     | None =>
         effect CConsoleLog ;;
         ret (closed, tool_route locale (toolUsed file))
     end)
    (fun _ =>
       effect CConsoleError ;;
       ret (closed, tool_route locale (toolUsed file))).

Inductive Key := ArrowDown | ArrowUp | Home | End_ | Escape | Tab | Other.

(** [handleItemKeyDown]; [length] is [recentFiles.length].  The boolean
    tells whether [preventDefault] is called. *)
Definition handleItemKeyDown (key : Key) (length : Z) (st : State) : State * bool :=
  let prev := focusedIndex st in
  match key with
  | ArrowDown =>
      (mkState (isOpen st) (if prev <? length - 1 then prev + 1 else 0) (loadingFileId st),
       true)
  | ArrowUp =>
      (mkState (isOpen st) (if 0 <? prev then prev - 1 else length - 1) (loadingFileId st),
       true)
  | Home => (mkState (isOpen st) 0 (loadingFileId st), true)
  | End_ => (mkState (isOpen st) (length - 1) (loadingFileId st), true)
  | Escape => (mkState false (-1) (loadingFileId st), true)
  | Tab => (mkState false (-1) (loadingFileId st), false)
  | Other => (st, false)
  end.

(** [handleButtonKeyDown] *)
Definition handleButtonKeyDown (key : Key) (length : Z) (st : State) : State * bool :=
  match key with
  | ArrowDown =>
      (mkState true (if 0 <? length then 0 else focusedIndex st) (loadingFileId st), true)
  | _ => (st, false)
  end.

(** The [onClick] of the dropdown button. *)
Definition handleButtonClick (length : Z) (st : State) : State :=
  mkState (negb (isOpen st))
          (if negb (isOpen st) && (0 <? length) then 0 else -1)
          (loadingFileId st).

End RecentFilesDropdown.

(** ** The toolbar injection of EditPDFTool *)
Module EditPDFToolInjection.

(** What one attempt finds in the iframe's document: which of the
    elements the code looks up exist, and for every [li] or [button] of
    [.CustomToolbar] the value of [textContent?.trim()]. *)
Record FrameDocument := mkFrame {
  download : bool;
  secondaryDownload : bool;
  customToolbar : option (list (option string));
  toolbarViewerRight : bool;
  injected_fullscreen_toggle : bool
}.

(** [iframeRef.current?.contentDocument] at one attempt: missing, a
    document, or an access that throws. *)
Inductive Observation :=
| NoDocument
| Document (doc : FrameDocument)
| Raises.

(** What the host does to the iframe and to its own timers. *)
Inductive Patch :=
| ShowElement (id : string)
| HideCustomButton (index : nat)
| InsertToggle
| WarnFailed
| Retry (attempts : nat).   (* setTimeout(() => injectLink(attempts), 1000) *)

Definition is_save_label (text : option string) : bool :=
  match text with
  | Some t => bool_decide (t = "保存") || bool_decide (t = "Save")
              || bool_decide (t = "Speichern")
  | None => false
  end.

Fixpoint hide_save_buttons (index : nat) (buttons : list (option string)) : list Patch :=
  match buttons with
  | [] => []
  | text :: rest =>
      (if is_save_label text then [HideCustomButton index] else []) ++
      hide_save_buttons (S index) rest
  end.

(** One pass through the [try] block: the patches made and whether the
    function returns from inside it. *)
Definition attempt (obs : Observation) : list Patch * bool :=
  match obs with
  | NoDocument => ([], false)
  | Raises => ([WarnFailed], false)
  | Document doc =>
      let shown :=
        (if download doc then [ShowElement "download"] else []) ++
        (if secondaryDownload doc then [ShowElement "secondaryDownload"] else []) in
      let hidden :=
        match customToolbar doc with
        | Some buttons => hide_save_buttons 0 buttons
        | None => []
        end in
      if toolbarViewerRight doc && negb (injected_fullscreen_toggle doc)
      then (shown ++ hidden ++ [InsertToggle], true)
      else if injected_fullscreen_toggle doc
      then (shown ++ hidden, true)
      else (shown ++ hidden, false)
  end.

(** [injectLink(attempts)] with [budget] further calls allowed by the
    guard [attempts > 10]; [frame k] is what the call with [attempts = k]
    finds. *)
Fixpoint injectLink_within (budget attempts : nat) (frame : nat -> Observation)
  : list Patch :=
  match budget with
  | O => []
  | S budget' =>
      let '(patches, returned) := attempt (frame attempts) in
      if returned then patches
      else patches ++ Retry (S attempts) ::
           injectLink_within budget' (S attempts) frame
  end.

Definition injectLink (attempts : nat) (frame : nat -> Observation) : list Patch :=
  injectLink_within (11 - attempts) attempts frame.

End EditPDFToolInjection.

(** ** The theme toggle *)
Module ThemeToggle.

(** The three custom properties [applyTheme] sets on the root element. *)
Record Palette := mkPalette {
  color_primary : string;
  color_ring : string;
  color_primary_hover : string
}.

Record State := mkState {
  theme : string;                 (* the [useState] cell *)
  stored : option string;         (* localStorage['theme-preference'] *)
  applied : option Palette        (* the properties set so far *)
}.

Definition initial (stored : option string) : State := mkState "blue" stored None.

Definition applyTheme (newTheme : string) (st : State) : State :=
  mkState (theme st) (stored st)
    (Some (if decide (newTheme = "pink")
           then mkPalette "330 100% 71%" "330 100% 71%" "330 100% 61%"
           else mkPalette "231 100% 27%" "231 100% 27%" "231 100% 17%")).

Definition setTheme (t : string) (st : State) : State :=
  mkState t (stored st) (applied st).

(** The mount effect. *)
Definition loadSavedTheme (st : State) : State :=
  match stored st with
  | Some savedTheme =>
      if decide (savedTheme = "") then st
      else applyTheme savedTheme (setTheme savedTheme st)
  | None => st
  end.

Definition toggleTheme (st : State) : State :=
  let newTheme := if decide (theme st = "blue") then "pink" else "blue" in
  applyTheme newTheme (mkState newTheme (Some newTheme) (applied st)).

End ThemeToggle.

(** ** The storage interceptor that runs inside the viewer *)
Module StorageInterceptor.

(** [window.parent.postMessage({type, blob, filename}, '*')] *)
Definition sendToParent (blob : option Blob) (filename : option string) (type : string)
  : MessageData :=
  {| msg_type := Some type; msg_blob := blob; msg_filename := filename |}.

(** The replacement of [app.downloadManager.download]: the messages
    posted and whether a console error is logged.  [fetch url] is the
    outcome of [fetch(url).then(res => res.blob())]. *)
Definition download (fetch : string -> result Blob)
    (blob : option Blob) (url : option string) (filename : option string)
  : list MessageData * bool :=
  match blob with
  | Some b => ([sendToParent (Some b) filename "PDF_SAVE_DATA"], false)
  | None =>
      match url with
      | Some u =>
          if decide (u = "") then ([], false)
          else match fetch u with
               | Ok b => ([sendToParent (Some b) filename "PDF_SAVE_DATA"], false)
               | Throw _ => ([], true)
               end
      | None => ([], false)
      end
  end.

(** [saveSession]; the argument is [None] when there is no application or
    no document, and otherwise the outcome of [saveDocument].  Returns
    the messages posted and whether a warning is logged. *)
Definition saveSession (document : option (result bytes)) : list MessageData * bool :=
  match document with
  | None => ([], false)
  | Some (Ok data) =>
      ([sendToParent (Some (mkBlob "application/pdf" data))
                     (Some "session_auto_save.pdf") "PDF_SESSION_BACKUP"], false)
  | Some (Throw _) => ([], true)
  end.

End StorageInterceptor.

(** * Vocabulary of the statements *)

Definition pdf_mime : string -> string := fun _ => "application/pdf".

(** A first visit: nothing stored, nothing pending, no injected fault. *)
Definition fresh_world : World :=
  mkWorld ∅ pdf_mime [] [] [] 0 [] [] None PrefsAbsent edit_initial sign_initial [].

Definition blob_A : Blob := mkBlob "application/pdf" [Byte.x25; Byte.x50; Byte.x44; Byte.x46].
Definition blob_B : Blob := mkBlob "application/pdf" [Byte.x25; Byte.x50; Byte.x44; Byte.x46; Byte.x2d].
Definition file_A : File := mkFile "contract.pdf" "application/pdf" (blob_bytes blob_A).

(** A blob that is not typed as a PDF. *)
Definition blob_T : Blob := mkBlob "text/plain" [Byte.x68; Byte.x69].

(** The name ends in '.pdf'. *)
Definition pdf_extension (name : string) : bool :=
  String.eqb (String.substring (String.length name - 4) 4 name) ".pdf".

(** The type a platform derives from the name of an entry: by its
    extension, and none when it does not know the extension. *)
Definition mime_by_extension (name : string) : string :=
  if pdf_extension name then "application/pdf" else "".


(** A platform that types entries by their extension, with an edit
    session stored. *)
Definition session_world : World :=
  mkWorld {[ EditPDFTool.SESSION_FILE_NAME := blob_bytes blob_A ]}
          mime_by_extension
          [] [] [] 0 [] [] None PrefsAbsent edit_initial sign_initial [].

(** A handoff addressed to the sign tool is waiting; nothing is stored. *)
Definition sign_handoff_world : World :=
  mkWorld ∅ pdf_mime [] [] [] 0 [] []
          (Some (PendingFileContext.mkPending file_A "sign-pdf" "contract.pdf"))
          PrefsAbsent edit_initial sign_initial [].

Definition backup_message (b : Blob) : MessageData :=
  mkMessage (Some "PDF_SESSION_BACKUP") (Some b) None.

Definition save_message (b : Blob) (filename : option string) : MessageData :=
  mkMessage (Some "PDF_SAVE_DATA") (Some b) filename.

(** What a session restore builds from the stored bytes. *)
Definition restored (type : string) (data : bytes) : File :=
  {| file_name := "restored_document.pdf"; file_type := type; file_bytes := data |}.

Definition sig_A : SignatureStore.NewSignature :=
  SignatureStore.mkNew SignatureStore.svg "<svg><path d='M1 1'/></svg>" (Some 120) (Some 40).
Definition sig_B : SignatureStore.NewSignature :=
  SignatureStore.mkNew SignatureStore.image "data:image/png;base64,iVBOR" None None.

(** A browser with IndexedDB and nothing stored yet; the clock readings
    and the renderings of [Math.random()] are given. *)
Definition sig_env (faults : list bool) (clock : list Z) (random : list string)
  : SignatureStore.Env :=
  SignatureStore.mkEnv true None 0 faults clock random.

(** Two saves within the same millisecond. *)
Definition env_same_ms : SignatureStore.Env :=
  sig_env [] [7; 7; 7; 7] ["0.aaaaaz"; "0.bbbbbz"].

(** The same clock reading and the same random suffix twice. *)
Definition env_repeat : SignatureStore.Env :=
  sig_env [] [5; 5; 5; 5] ["0.k3x9qa7"; "0.k3x9qa7"].

(** The database opens, then the request fails. *)
Definition env_request_fails : SignatureStore.Env :=
  sig_env [false; true] [] [].

(** The clock advances between the two saves. *)
Definition env_later : SignatureStore.Env :=
  sig_env [] [10; 11; 20; 21] ["0.zzzzz1"; "0.aaaaa1"].

(** The id [saveSignature] builds in [env], and the record it adds. *)
Definition next_id (env : SignatureStore.Env) : string :=
  "sig_" +:+ pretty (hd 0 (SignatureStore.env_clock env)) +:+ "_" +:+
  SignatureStore.substr (hd "0" (SignatureStore.env_random env)) 2 5.

Definition next_entry (signature : SignatureStore.NewSignature) (env : SignatureStore.Env)
  : SignatureStore.StoredSignature :=
  {| SignatureStore.id := next_id env;
     SignatureStore.type := SignatureStore.new_type signature;
     SignatureStore.data := SignatureStore.new_data signature;
     SignatureStore.createdAt := hd 0 (tail (SignatureStore.env_clock env));
     SignatureStore.width := SignatureStore.new_width signature;
     SignatureStore.height := SignatureStore.new_height signature |}.

(** The two ways [openDB] rejects. *)
Definition open_failed (e : JsError) : Prop :=
  e = SignatureStore.Error "IndexedDB not supported" \/
  e = SignatureStore.Error "Failed to open signature database".

(** The records of the object store, none before the database exists. *)
Definition records (env : SignatureStore.Env) : list SignatureStore.StoredSignature :=
  default [] (SignatureStore.idb_store env).

(** The order of the keys of the object store. *)
Definition key_lt (a b : SignatureStore.StoredSignature) : Prop :=
  String.ltb (SignatureStore.id a) (SignatureStore.id b) = true.

(** The records of [l] with the timestamp [t], in the order of [l]. *)
Definition created_at (t : Z) (l : list SignatureStore.StoredSignature)
  : list SignatureStore.StoredSignature :=
  filter (fun r => SignatureStore.createdAt r = t) l.

(** The names of the file handles among the handles an iteration yields,
    in its order. *)
Definition file_names (values : list FileSystem.Handle) : list string :=
  omap (fun h => match h with
                 | FileSystem.FileHandle n => Some n
                 | FileSystem.DirectoryHandle _ => None
                 end) values.

(** The listing entry of a stored name. *)
Definition entry_of (lastModifiedOf : string -> Z) (w : World) (h : string)
  : FileSystem.FileEntry :=
  {| FileSystem.name := h;
     FileSystem.size := length (default [] (w_files w !! h));
     FileSystem.lastModified := lastModifiedOf h;
     FileSystem.type := w_mime w h |}.

(** The next entry of the fault oracle, if it is a fault. *)
Definition pending_fault (w : World) : option JsError :=
  match w_faults w with
  | Some e :: _ => Some e
  | _ => None
  end.

(** The world after a platform call, resolved or rejected. *)
Definition advance (c : Call) (w : World) : World :=
  set_faults (tail (w_faults w)) (log c w).

(** The world after [Date.now()]. *)
Definition tick (w : World) : World :=
  set_clock (tail (w_clock w)) (log CDateNow w).

(** The platform calls of one [saveFileToOPFS] that resolves. *)
Definition save_calls (name : string) (data : bytes) : list Call :=
  [CGetDirectory; CGetFileHandle name true; CCreateWritable name;
   CWrite name data; CClose name].

(** The platform calls of a [PDF_SAVE_DATA] handler in which nothing
    fails: persist under the output name, update the session snapshot,
    offer the download, schedule the release of the object URL. *)
Definition save_data_calls (savedName session : string) (data : bytes) (url : nat) : list Call :=
  save_calls savedName data ++ save_calls session data ++
  [CCreateObjectURL data; CDownload url savedName; CSetTimeout 1000].

(** The steps both [PDF_SAVE_DATA] handlers run once the output name is
    known. *)
Definition save_data_steps (savedName session : string) (blob : Blob) : M unit :=
  FileSystem.saveFileToOPFS savedName blob ;;
  FileSystem.saveFileToOPFS session blob ;;
  url <- createObjectURL blob ;;
  download_via_anchor url savedName ;;
  setTimeout_revoke url 1000.

(** The output name [filename || `<prefix><Date.now()>.pdf`]. *)
Definition output_name (prefix : string) (filename : option string) (w : World) : string :=
  let fallback := prefix +:+ pretty (hd 0 (w_clock w)) +:+ ".pdf" in
  match filename with
  | Some f => if decide (f = "") then fallback else f
  | None => fallback
  end.

(** [Date.now()] is called only when the fallback name is needed. *)
Definition output_name_calls (filename : option string) : list Call :=
  match filename with
  | Some f => if decide (f = "") then [CDateNow] else []
  | None => [CDateNow]
  end.

(** What a [PDF_SAVE_DATA] handler has done when it returns in [w'], having
    started in [w]: either all steps, in order, with the download offered
    and the release of its URL scheduled; or the steps up to the first that
    failed, followed by one console error and one error message built from
    the failure. *)
Definition save_data_handled (prefix session : string) (data : MessageData) (blob : Blob)
    (w w' : World) (error_before error_after : option string) : Prop :=
  let name := output_name prefix (msg_filename data) w in
  let url := w_next_url w in
  let plan := save_data_calls name session (blob_bytes blob) url in
  exists made,
    w_trace w' = w_trace w ++ output_name_calls (msg_filename data) ++ made /\
    ((made = plan /\
      error_after = error_before /\
      w_files w' = <[session := blob_bytes blob]> (<[name := blob_bytes blob]> (w_files w)) /\
      w_timers w' = w_timers w ++ [mkTimer 1000 url] /\
      url ∈ w_urls w' /\
      url ∉ w_urls (snd (fire_timers w')))
     \/
     (exists e cs,
        Some e ∈ w_faults w /\ cs `prefix_of` plan /\ made = cs ++ [CConsoleError] /\
        error_after = Some ("Failed to save file: " +:+ err_message e))).

(** Two worlds that differ at most in the directory, the fault oracle and
    the trace. *)
Definition same_view (w w' : World) : Prop :=
  w_mime w' = w_mime w /\ w_clock w' = w_clock w /\ w_urls w' = w_urls w /\
  w_next_url w' = w_next_url w /\ w_timers w' = w_timers w /\
  w_tasks w' = w_tasks w /\ w_pending w' = w_pending w /\
  w_prefs w' = w_prefs w /\ w_edit w' = w_edit w /\ w_sign w' = w_sign w.

(** [x] comes before [y] in [l]. *)
Definition comes_before {A} (x y : A) (l : list A) : Prop :=
  exists l1 l2 l3, l = l1 ++ x :: l2 ++ y :: l3.

(** The file a click on a recent entry hands to the tool that made it. *)
Definition handed_off (file : RecentFilesDropdown.RecentFile) (type : string) (data : bytes)
  : PendingFileContext.PendingFile :=
  PendingFileContext.mkPending
    (mkFile (RecentFilesDropdown.name file) (str_or type "application/pdf") data)
    (RecentFilesDropdown.toolUsed file) (RecentFilesDropdown.name file).

(** The retries among the patches of an injection. *)
Definition is_retry (p : EditPDFToolInjection.Patch) : bool :=
  match p with
  | EditPDFToolInjection.Retry _ => true
  | _ => false
  end.

Definition retries (ps : list EditPDFToolInjection.Patch) : nat :=
  length (filter (fun p => is_retry p = true) ps).

(** The two palettes of the theme toggle. *)
Definition pink_palette : ThemeToggle.Palette :=
  ThemeToggle.mkPalette "330 100% 71%" "330 100% 71%" "330 100% 61%".
Definition blue_palette : ThemeToggle.Palette :=
  ThemeToggle.mkPalette "231 100% 27%" "231 100% 27%" "231 100% 17%".

(** One await of a write in flight when the platform injects no fault:
    the write as it is suspended next ([None] once it has resolved or
    rejected) and the directory after the call it waited for. *)
Definition await_passed (t : Task) (fs : gmap string bytes)
  : option Task * gmap string bytes :=
  match t with
  | TaskSave n b c => (Some (TaskSaveAt AtGetFileHandle n b c), fs)
  | TaskSaveAt AtGetFileHandle n b c =>
      (Some (TaskSaveAt (AtCreateWritable n) n b c),
       match fs !! n with Some _ => fs | None => <[n := []]> fs end)
  | TaskSaveAt (AtCreateWritable h) n b c =>
      (match fs !! h with
       | Some _ => Some (TaskSaveAt (AtWrite (h, [])) n b c)
       | None => None
       end, fs)
  | TaskSaveAt (AtWrite wr) n b c =>
      (Some (TaskSaveAt
               (AtClose (fst wr, blob_bytes b ++ drop (length (blob_bytes b)) (snd wr)))
               n b c), fs)
  | TaskSaveAt (AtClose wr) n b c => (None, <[fst wr := snd wr]> fs)
  end.

(** The writes in flight after the oldest has passed one await. *)
Definition queue_after (ts : list Task) (fs : gmap string bytes) : list Task :=
  match ts with
  | [] => []
  | t :: rest =>
      match fst (await_passed t fs) with
      | Some t' => t' :: rest
      | None => rest
      end
  end.

Definition files_after (ts : list Task) (fs : gmap string bytes) : gmap string bytes :=
  match ts with
  | [] => fs
  | t :: _ => snd (await_passed t fs)
  end.

(** A page on which no fault is pending, which has the handoff and the
    platform of [w], the directory [fs] and the writes [ts] in flight. *)
Definition page_of (w : World) (fs : gmap string bytes) (ts : list Task) (w' : World)
  : Prop :=
  w_faults w' = [] /\ w_pending w' = w_pending w /\ w_mime w' = w_mime w /\
  w_files w' = fs /\ w_tasks w' = ts.

(** [k] awaits of the oldest write pass. *)
Definition awaits (k : nat) : list Event := replicate k EvResume.

(** * Properties *)

(** ** Proof tools *)

Ltac open_world w :=
  destruct w as [files mime faults clock urls nurl timers tasks pend prefs ed sg tr].

(** Case analysis on the next entry of the fault oracle. *)
Ltac next_fault :=
  once (match goal with
        | |- context [match ?l with [] => _ | _ :: _ => _ end] =>
            is_var l; destruct l as [|[?|] ?]; simpl
        end).

(** Case analysis on a directory lookup, unless its result is known. *)
Ltac next_lookup :=
  once (first
    [ rewrite lookup_insert_eq; simpl
    | match goal with
      | L : ?m !! ?k = _ |- context [lookup ?k ?m] => rewrite L; simpl
      end
    | match goal with
      | |- context [lookup ?k ?m] =>
          lazymatch type of m with gmap _ _ => idtac end;
          let L := fresh "L" in destruct (m !! k) eqn:L; simpl
      end ]).

Ltac unfold_fs :=
  unfold FileSystem.saveFileToOPFS, FileSystem.loadFileFromOPFS,
    FileSystem.deleteFileFromOPFS, FileSystem.getRoot, FileSystem.getDirectory,
    FileSystem.getFileHandle, FileSystem.createWritable, FileSystem.write,
    FileSystem.close, FileSystem.getFile, FileSystem.removeEntry.

Ltac unfold_monad :=
  unfold try_catch, bind, platform, effect, gets, modify, ret, throw.

(** [drop k] for the small [k] a handler can consume. *)
Ltac find_drop :=
  first [ by exists 0%nat | by exists 1%nat | by exists 2%nat | by exists 3%nat
        | by exists 4%nat | by exists 5%nat ].

Ltac split_view := unfold same_view; simpl; repeat split.

(** Use the components of a [same_view] fact. *)
Ltac use_view H :=
  let H' := fresh in
  pose proof H as H'; unfold same_view in H';
  destruct H' as (?&?&?&?&?&?&?&?&?&?).

(** ** The monad *)

Section MonadLaws.
Context {S A B : Type}.

Lemma bind_ok (m : St S A) (k : A -> St S B) s a s' :
  m s = (Ok a, s') -> bind m k s = k a s'.
Proof. unfold bind. by intros ->. Qed.

Lemma bind_throw (m : St S A) (k : A -> St S B) s e s' :
  m s = (Throw e, s') -> bind m k s = (Throw e, s').
Proof. unfold bind. by intros ->. Qed.

Lemma try_ok (m : St S A) h s a s' :
  m s = (Ok a, s') -> try_catch m h s = (Ok a, s').
Proof. unfold try_catch. by intros ->. Qed.

Lemma try_throw (m : St S A) h s e s' :
  m s = (Throw e, s') -> try_catch m h s = h e s'.
Proof. unfold try_catch. by intros ->. Qed.

Lemma try_catch_ext (m1 m2 : St S A) h s :
  m1 s = m2 s -> try_catch m1 h s = try_catch m2 h s.
Proof. unfold try_catch. by intros ->. Qed.

End MonadLaws.

(** ** The platform calls *)

Lemma elem_of_take_drop {A} (x : A) n k (l : list A) :
  x ∈ take n (drop k l) -> x ∈ l.
Proof.
  intros H. apply elem_of_take in H as (i & H & _).
  rewrite lookup_drop in H. by eapply list_elem_of_lookup_2.
Qed.

Lemma drop_drop_faults (w w1 w2 : World) :
  (exists k, w_faults w1 = drop k (w_faults w)) ->
  (exists k, w_faults w2 = drop k (w_faults w1)) ->
  exists k, w_faults w2 = drop k (w_faults w).
Proof.
  intros [k1 H1] [k2 H2]. exists (k1 + k2)%nat. by rewrite H2, H1, drop_drop.
Qed.

Lemma same_view_refl w : same_view w w.
Proof. by split_view. Qed.

Lemma same_view_trans w1 w2 w3 :
  same_view w1 w2 -> same_view w2 w3 -> same_view w1 w3.
Proof.
  unfold same_view. intros (?&?&?&?&?&?&?&?&?&?) (?&?&?&?&?&?&?&?&?&?).
  repeat split; congruence.
Qed.

Lemma platform_run c w :
  platform c w
  = (match pending_fault w with Some e => Throw e | None => Ok tt end, advance c w).
Proof.
  open_world w. unfold platform, pending_fault, advance. simpl.
  destruct faults as [|[e|] fs]; reflexivity.
Qed.

Lemma Date_now_run w : Date_now w = (Ok (hd 0 (w_clock w)), tick w).
Proof.
  open_world w. unfold Date_now, tick. simpl. destruct clock; reflexivity.
Qed.

Lemma pending_fault_elem w e : pending_fault w = Some e -> Some e ∈ take 1 (w_faults w).
Proof.
  unfold pending_fault. destruct (w_faults w) as [|[x|] fs]; intros [= ->]. set_solver.
Qed.

Lemma pending_fault_nil w : w_faults w = [] -> pending_fault w = None.
Proof. unfold pending_fault. by intros ->. Qed.

(** [createObjectURL] hands out the next URL and registers it, unless the
    platform rejects the call. *)
Lemma createObjectURL_spec b w r w' :
  createObjectURL b w = (r, w') ->
  w_files w' = w_files w /\ w_timers w' = w_timers w /\ w_tasks w' = w_tasks w /\
  w_pending w' = w_pending w /\ w_prefs w' = w_prefs w /\ w_edit w' = w_edit w /\
  w_sign w' = w_sign w /\ w_mime w' = w_mime w /\ w_clock w' = w_clock w /\
  w_faults w' = drop 1 (w_faults w) /\
  w_trace w' = w_trace w ++ [CCreateObjectURL (blob_bytes b)] /\
  match r with
  | Ok u => u = w_next_url w /\ w_urls w' = u :: w_urls w /\ w_next_url w' = S u
  | Throw e => Some e ∈ take 1 (w_faults w) /\ w_urls w' = w_urls w /\
               w_next_url w' = w_next_url w
  end.
Proof.
  open_world w. unfold createObjectURL. unfold_monad. simpl.
  destruct faults as [|[e|] fs]; simpl; intros [= <- <-]; simpl;
    repeat split; set_solver.
Qed.

(** ** The file store *)

Section FileSystemSpecs.
Import FileSystem.

(** A save that resolves has replaced the entry; one that rejects was hit
    by an injected fault and has at most created the entry empty. *)
Lemma save_outcome name blob w r w' :
  saveFileToOPFS name blob w = (r, w') ->
  match r with
  | Ok _ => w_files w' = <[name := blob_bytes blob]> (w_files w)
  | Throw e =>
      Some e ∈ take 5 (w_faults w) /\
      (w_files w' = w_files w \/
       (w_files w !! name = None /\ w_files w' = <[name := []]> (w_files w)))
  end.
Proof.
  open_world w. unfold_fs. unfold_monad. simpl.
  repeat (first [next_fault | next_lookup]);
    intros [= <- <-]; simpl; rewrite ?drop_nil, ?app_nil_r, ?insert_insert_eq;
    try reflexivity; try (split; [set_solver | auto]).
Qed.

(** A save touches the directory, the oracle and the trace only; its
    calls are the first calls of [save_calls], all of them when it
    resolves. *)
Lemma save_frame name blob w r w' :
  saveFileToOPFS name blob w = (r, w') ->
  same_view w w' /\
  (exists k, w_faults w' = drop k (w_faults w)) /\
  exists cs, w_trace w' = w_trace w ++ cs /\
             cs `prefix_of` save_calls name (blob_bytes blob) /\
             match r with
             | Ok _ => cs = save_calls name (blob_bytes blob)
             | Throw _ => True
             end.
Proof.
  open_world w. unfold_fs. unfold_monad. simpl.
  repeat (first [next_fault | next_lookup]);
    intros [= <- <-]; simpl; (split; [by split_view|]); (split; [find_drop|]);
    rewrite <- ?app_assoc; simpl;
    (eexists; split; [reflexivity|]); (split; [by eexists | done]).
Qed.

(** So does what is left of a save that is suspended at an await. *)
Lemma save_from_frame at_ name blob w r w' :
  save_from at_ name blob w = (r, w') -> same_view w w'.
Proof.
  open_world w. destruct at_ as [|h|wr|wr]; unfold save_from; unfold_fs; unfold_monad; simpl.
  all: repeat (first [next_fault | next_lookup]);
    intros [= <- <-]; simpl; by split_view.
Qed.

(** A load resolves with the stored bytes; it rejects with NotFoundError
    on a missing name, or with an injected fault. *)
Lemma load_outcome name w r w' :
  loadFileFromOPFS name w = (r, w') ->
  w_files w' = w_files w /\
  match r with
  | Ok f =>
      w_files w !! name = Some (file_bytes f) /\ file_name f = name /\
      file_type f = w_mime w name
  | Throw e =>
      Some e ∈ take 3 (w_faults w) \/ (e = NotFoundError /\ w_files w !! name = None)
  end.
Proof.
  open_world w. unfold_fs. unfold_monad. simpl.
  repeat (first [next_fault | next_lookup]);
    intros [= <- <-]; simpl; (split; [reflexivity|]); auto; left; set_solver.
Qed.

Lemma load_frame name w r w' :
  loadFileFromOPFS name w = (r, w') ->
  same_view w w' /\
  (exists k, w_faults w' = drop k (w_faults w)) /\
  exists cs, w_trace w' = w_trace w ++ CGetDirectory :: cs.
Proof.
  open_world w. unfold_fs. unfold_monad. simpl.
  repeat (first [next_fault | next_lookup]);
    intros [= <- <-]; simpl; (split; [by split_view|]); (split; [find_drop|]);
    rewrite <- ?app_assoc; simpl; by eexists.
Qed.

Lemma load_no_fault name w data :
  w_faults w = [] -> w_files w !! name = Some data ->
  exists w', loadFileFromOPFS name w
             = (Ok {| file_name := name; file_type := w_mime w name; file_bytes := data |}, w')
             /\ w_files w' = w_files w /\ w_faults w' = [] /\ same_view w w'.
Proof.
  intros F L. destruct (loadFileFromOPFS name w) as [[f|e] w'] eqn:E.
  - exists w'. destruct (load_frame _ _ _ _ E) as (V & [k Hk] & _).
    rewrite F, drop_nil in Hk.
    apply load_outcome in E as (Hf & Hb & Hn & Ht).
    destruct f as [fn ft fb]. simpl in *. subst.
    rewrite L in Hb. by injection Hb as <-.
  - apply load_outcome in E as (_ & [E|[_ E]]).
    + rewrite F in E. by apply elem_of_nil in E.
    + congruence.
Qed.

Lemma load_absent name w r w' :
  w_files w !! name = None -> loadFileFromOPFS name w = (r, w') ->
  exists e, r = Throw e.
Proof.
  intros L E. apply load_outcome in E as (_ & E).
  destruct r as [f|e]; [|by eexists]. destruct E as [E _]. congruence.
Qed.

(** A delete resolves only on an entry that exists; otherwise it rejects
    and the directory is as before. *)
Lemma delete_outcome name w r w' :
  deleteFileFromOPFS name w = (r, w') ->
  match r with
  | Ok _ => is_Some (w_files w !! name) /\ w_files w' = delete name (w_files w)
  | Throw e =>
      w_files w' = w_files w /\
      (Some e ∈ take 2 (w_faults w) \/ (e = NotFoundError /\ w_files w !! name = None))
  end.
Proof.
  open_world w. unfold_fs. unfold_monad. simpl.
  repeat (first [next_fault | next_lookup]);
    intros [= <- <-]; simpl; (split; [eauto|]); auto; left; set_solver.
Qed.

Lemma delete_frame name w r w' :
  deleteFileFromOPFS name w = (r, w') ->
  same_view w w' /\ (exists k, w_faults w' = drop k (w_faults w)).
Proof.
  open_world w. unfold_fs. unfold_monad. simpl.
  repeat (first [next_fault | next_lookup]);
    intros [= <- <-]; simpl; (split; [by split_view | find_drop]).
Qed.

(** Without injected faults the three operations behave as a map. *)
Lemma save_no_fault name blob w :
  w_faults w = [] ->
  exists w', saveFileToOPFS name blob w = (Ok tt, w') /\
             w_files w' = <[name := blob_bytes blob]> (w_files w) /\
             w_faults w' = [] /\ same_view w w'.
Proof.
  intros F. destruct (saveFileToOPFS name blob w) as [[[]|e] w'] eqn:E.
  - exists w'. pose proof (save_outcome _ _ _ _ _ E) as O.
    destruct (save_frame _ _ _ _ _ E) as (V & [k Hk] & _).
    rewrite F, drop_nil in Hk. done.
  - apply save_outcome in E as [E _]. rewrite F in E. by apply elem_of_nil in E.
Qed.

Lemma delete_no_fault name w :
  w_faults w = [] ->
  exists r w', deleteFileFromOPFS name w = (r, w') /\
               w_files w' = delete name (w_files w) /\
               w_faults w' = [] /\ same_view w w'.
Proof.
  intros F. destruct (deleteFileFromOPFS name w) as [r w'] eqn:E.
  exists r, w'. destruct (delete_frame _ _ _ _ E) as (V & [k Hk]).
  rewrite F, drop_nil in Hk. apply delete_outcome in E.
  split; [done|]. split; [|done].
  destruct r as [[]|e].
  - by destruct E.
  - destruct E as [E [E'|[_ E']]].
    + rewrite F in E'. by apply elem_of_nil in E'.
    + by rewrite E, delete_id.
Qed.

End FileSystemSpecs.

(** ** The pending-file handoff *)

Section PendingFileProperties.
Import PendingFileContext.

Lemma consume_empty slug pr :
  pendingFile pr = None -> consumePendingFile slug pr = (None, pr).
Proof. unfold consumePendingFile. by intros ->. Qed.

Lemma consume_other slug p pr :
  pendingFile pr = Some p -> toolSlug p <> slug ->
  consumePendingFile slug pr = (None, pr).
Proof.
  intros Hp Hne. unfold consumePendingFile. rewrite Hp.
  by rewrite decide_False by done.
Qed.

Lemma consume_match slug p pr :
  pendingFile pr = Some p -> toolSlug p = slug ->
  consumePendingFile slug pr = (Some (file p), setPendingFileState None pr).
Proof.
  intros Hp He. unfold consumePendingFile. rewrite Hp.
  by rewrite decide_True by done.
Qed.

(** The render after a [setPendingFile] holds the handoff, whatever was
    held or queued before. *)
Lemma render_setPendingFile f t name pr :
  pendingFile (render (setPendingFile f t name pr)) = Some (mkPending f t name).
Proof.
  unfold render, setPendingFile, setPendingFileState. simpl.
  by rewrite last_snoc.
Qed.

(** The claim fails without a render in between: the second consume for
    'sign-pdf' goes through the callback of the same render, which still
    holds the handoff it captured, and returns the file again. *)
Lemma C3_second_consume_same_render_counterexample :
  let pr1 := render (setPendingFile file_A "sign-pdf" "contract.pdf" (rendered initial)) in
  let '(first, pr2) := consumePendingFile "sign-pdf" pr1 in
  first = Some file_A /\
  fst (consumePendingFile "sign-pdf" pr2) = Some file_A.
Proof. vm_compute. split; reflexivity. Qed.

(** C3 (amended): consuming with nothing pending returns none and
    changes nothing.  Once the provider has rendered after
    [setPendingFile f t], consuming for another tool returns none and
    changes nothing; consuming for [t] returns [f] and queues the
    clearing of the cell.  Once the provider has rendered again the cell
    is empty and a further consume, for any tool, returns none and
    changes nothing; through the callback of the render that returned
    [f], a further consume for [t] returns [f] again. *)
Theorem C3_handoff_consumed_once_per_render (f : File) (t t' name : string)
    (pr : Provider) :
  t' <> t ->
  consumePendingFile t (rendered initial) = (None, rendered initial) /\
  let pr1 := render (setPendingFile f t name pr) in
  consumePendingFile t' pr1 = (None, pr1) /\
  let '(r2, pr2) := consumePendingFile t pr1 in
  r2 = Some f /\
  queued pr2 = [None] /\
  pendingFile (render pr2) = None /\
  (forall t'', consumePendingFile t'' (render pr2) = (None, render pr2)) /\
  fst (consumePendingFile t pr2) = Some f.
Proof.
  intros Hne. split; [by apply consume_empty|]. cbv zeta.
  pose proof (render_setPendingFile f t name pr) as Hp.
  split.
  { apply (consume_other _ _ _ Hp). simpl. congruence. }
  rewrite (consume_match t _ _ Hp eq_refl). simpl.
  split; [done|]. split; [done|]. split; [done|]. split.
  - intros t''. by apply consume_empty.
  - unfold consumePendingFile. simpl. rewrite last_snoc. simpl.
    by rewrite decide_True by done.
Qed.

Lemma C3_handoff_consumed_once_per_render_witness :
  "edit-pdf" <> "sign-pdf" /\
  let pr1 := render (setPendingFile file_A "sign-pdf" "contract.pdf" (rendered initial)) in
  consumePendingFile "edit-pdf" pr1 = (None, pr1).
Proof.
  assert (H : "edit-pdf" <> "sign-pdf") by discriminate.
  split; [exact H|].
  exact (proj1 (proj2 (C3_handoff_consumed_once_per_render file_A "sign-pdf" "edit-pdf"
                         "contract.pdf" (rendered initial) H))).
Defined.

End PendingFileProperties.

(** ** Overwrite and delete *)

Section FileSystemProperties.
Import FileSystem.

(** C6: after [save(n, b1)] has resolved, a [save(n, b2)] that resolves
    leaves exactly the bytes of [b2] under [n], and that is what a load
    returns (a load can then only fail through an injected platform
    fault); a [save(n, b2)] that rejects leaves the bytes of [b1]: no
    state between the two is ever stored. *)
Theorem C6_save_replaces_prior_bytes (w w1 w2 : World) (n : string) (b1 b2 : Blob)
    (r : result unit) :
  saveFileToOPFS n b1 w = (Ok tt, w1) ->
  saveFileToOPFS n b2 w1 = (r, w2) ->
  match r with
  | Ok _ =>
      w_files w2 !! n = Some (blob_bytes b2) /\
      (forall r3 w3, loadFileFromOPFS n w2 = (r3, w3) ->
         match r3 with
         | Ok f => file_bytes f = blob_bytes b2
         | Throw e => Some e ∈ take 3 (w_faults w2)
         end) /\
      (w_faults w2 = [] ->
         exists f w3, loadFileFromOPFS n w2 = (Ok f, w3) /\ file_bytes f = blob_bytes b2)
  | Throw _ => w_files w2 !! n = Some (blob_bytes b1)
  end.
Proof.
  intros H1 H2.
  apply save_outcome in H1. apply save_outcome in H2.
  destruct r as [[]|e].
  - assert (L : w_files w2 !! n = Some (blob_bytes b2))
      by (rewrite H2; apply lookup_insert_eq).
    split; [exact L|]. split.
    + intros r3 w3 H3. apply load_outcome in H3 as [_ H3].
      destruct r3 as [f|e].
      * destruct H3 as [H3 _]. congruence.
      * destruct H3 as [H3|[_ H3]]; [exact H3 | congruence].
    + intros F. destruct (load_no_fault n w2 _ F L) as [w3 [H3 _]]. eauto.
  - destruct H2 as [_ [H2|[H2 _]]].
    + rewrite H2, H1. apply lookup_insert_eq.
    + rewrite H1, lookup_insert_eq in H2. discriminate.
Qed.

Lemma C6_save_replaces_prior_bytes_witness :
  exists w2,
    saveFileToOPFS "a.pdf" blob_B (snd (saveFileToOPFS "a.pdf" blob_A fresh_world))
    = (Ok tt, w2) /\
    w_files w2 !! "a.pdf" = Some (blob_bytes blob_B).
Proof.
  eexists. split; [vm_compute; reflexivity|].
  refine (proj1 (C6_save_replaces_prior_bytes fresh_world _ _ "a.pdf" blob_A blob_B
                   (Ok tt) _ _)); vm_compute; reflexivity.
Defined.


(** Deleting a name that was never written, and deleting a second time,
    both reject with NotFoundError. *)
Lemma C4_delete_absent_counterexample :
  fst (deleteFileFromOPFS "never_written.pdf" fresh_world) = Throw NotFoundError /\
  fst ((saveFileToOPFS "a.pdf" blob_A ;;
        deleteFileFromOPFS "a.pdf" ;;
        deleteFileFromOPFS "a.pdf") fresh_world) = Throw NotFoundError.
Proof. split; vm_compute; reflexivity. Qed.

(** C4 (amended): on a name that is not in the store [deleteFileFromOPFS]
    rejects and leaves the store unchanged; the rejection is
    NotFoundError, unless the platform rejects one of the two calls for
    a reason of its own first.  The clear handlers of both tool views
    catch the rejection: clearing a session whose snapshot is already
    absent completes without throwing, without an error message, and
    with the view back in its empty state. *)
Theorem C4_delete_absent_rejects_and_clear_tolerates (w : World) (n : string) :
  w_files w !! n = None ->
  (exists e w', deleteFileFromOPFS n w = (Throw e, w') /\ w_files w' = w_files w /\
                (e = NotFoundError \/ Some e ∈ take 2 (w_faults w))) /\
  ((forall e, Some e ∉ take 2 (w_faults w)) ->
     fst (deleteFileFromOPFS n w) = Throw NotFoundError) /\
  (n = EditPDFTool.SESSION_FILE_NAME ->
     exists w', EditPDFTool.handleClear w = (Ok tt, w') /\
                w_files w' = w_files w /\
                w_edit w' = mkEdit None None None false (edit_isFullScreen (w_edit w))) /\
  (n = SignPDFTool.SESSION_FILE_NAME ->
     exists w', SignPDFTool.handleClear w = (Ok tt, w') /\
                w_files w' = w_files w /\
                w_sign w' = mkSign None None false None (sign_isProcessing (w_sign w))
                                   (sign_flattenSignature (w_sign w))).
Proof.
  intros Habs.
  assert (D : exists e w', deleteFileFromOPFS n w = (Throw e, w') /\
                w_files w' = w_files w /\
                (e = NotFoundError \/ Some e ∈ take 2 (w_faults w))).
  { destruct (deleteFileFromOPFS n w) as [[[]|e] w'] eqn:E;
      apply delete_outcome in E.
    - destruct E as [[x Hx] _]. congruence.
    - destruct E as [E [E'|[E' _]]]; eauto 10. }
  split; [exact D|]. split; [|split].
  - intros Hf. destruct D as (e & w' & -> & _ & [->|He]); [done|].
    by destruct (Hf e).
  - intros ->. revert Habs. open_world w. destruct ed as [f [u|] err rdy full];
      unfold EditPDFTool.handleClear, EditPDFTool.setFile, EditPDFTool.setPdfUrl,
        EditPDFTool.setError, EditPDFTool.setIsEditorReady, revokeObjectURL;
      unfold_fs; unfold_monad; simpl; intros Habs;
      repeat next_fault; rewrite ?Habs; simpl; eauto.
  - intros ->. revert Habs. open_world w. destruct sg as [f [u|] rdy err pr fl];
      unfold SignPDFTool.handleClear, SignPDFTool.setSignState, SignPDFTool.setError,
        revokeObjectURL;
      unfold_fs; unfold_monad; simpl; intros Habs;
      repeat next_fault; rewrite ?Habs; simpl; eauto.
Qed.

Lemma C4_delete_absent_rejects_and_clear_tolerates_witness :
  w_files fresh_world !! EditPDFTool.SESSION_FILE_NAME = None /\
  fst (deleteFileFromOPFS EditPDFTool.SESSION_FILE_NAME fresh_world)
  = Throw NotFoundError /\
  exists w', EditPDFTool.handleClear fresh_world = (Ok tt, w') /\
             w_files w' = w_files fresh_world /\
             w_edit w' = mkEdit None None None false false.
Proof.
  assert (H : w_files fresh_world !! EditPDFTool.SESSION_FILE_NAME = None)
    by (vm_compute; reflexivity).
  destruct (C4_delete_absent_rejects_and_clear_tolerates
              fresh_world EditPDFTool.SESSION_FILE_NAME H) as (_ & H1 & H2 & _).
  split; [exact H|]. split.
  - apply H1. intros e He. simpl in He. by apply elem_of_nil in He.
  - exact (H2 eq_refl).
Defined.

End FileSystemProperties.

(** ** Mounting a tool view *)

(** The steps below are run through their specifications. *)
#[local] Arguments FileSystem.saveFileToOPFS : simpl never.
#[local] Arguments FileSystem.loadFileFromOPFS : simpl never.
#[local] Arguments FileSystem.deleteFileFromOPFS : simpl never.
#[local] Arguments createObjectURL : simpl never.
#[local] Arguments configurePrefs : simpl never.
#[local] Arguments platform : simpl never.
#[local] Arguments Date_now : simpl never.

(** The preference update touches [localStorage] and the console only. *)
Lemma configurePrefs_spec update w :
  exists w', configurePrefs update w = (Ok tt, w') /\
    w_files w' = w_files w /\ w_faults w' = w_faults w /\ w_urls w' = w_urls w /\
    w_next_url w' = w_next_url w /\ w_timers w' = w_timers w /\
    w_tasks w' = w_tasks w /\ w_pending w' = w_pending w /\
    w_edit w' = w_edit w /\ w_sign w' = w_sign w /\ w_mime w' = w_mime w /\
    w_clock w' = w_clock w /\
    (w_trace w' = w_trace w \/ w_trace w' = w_trace w ++ [CConsoleWarn]).
Proof.
  open_world w. unfold configurePrefs. unfold_monad. simpl.
  destruct prefs; simpl; eexists; (split; [reflexivity|]); simpl; repeat split; auto.
Qed.

(** Run the next step of a handler through its specification. *)
Ltac run_load E :=
  match goal with
  | |- context [FileSystem.loadFileFromOPFS ?n0 ?w0] =>
      let O := fresh "O" in let V := fresh "V" in
      destruct (FileSystem.loadFileFromOPFS n0 w0) as [[?blob|?e] ?w] eqn:E;
      pose proof (load_outcome _ _ _ _ E) as [_ O]; simpl in O;
      pose proof (load_frame _ _ _ _ E) as [V _]; use_view V; simpl in *
  end.
Ltac run_save E :=
  match goal with
  | |- context [FileSystem.saveFileToOPFS ?n0 ?b0 ?w0] =>
      let O := fresh "O" in let V := fresh "V" in
      destruct (FileSystem.saveFileToOPFS n0 b0 w0) as [[[]|?e] ?w] eqn:E;
      pose proof (save_outcome _ _ _ _ _ E) as O; simpl in O;
      pose proof (save_frame _ _ _ _ _ E) as V; simpl in V
  end.
Ltac run_url E :=
  match goal with
  | |- context [createObjectURL ?b0 ?w0] =>
      destruct (createObjectURL b0 w0) as [[?url|?e] ?w] eqn:E;
      apply createObjectURL_spec in E; simpl in E;
      destruct E as (?&?&?&?&?&?&?&?&?&?&?&E); simpl
  end.
Ltac run_prefs :=
  match goal with
  | |- context [configurePrefs ?u0 ?w0] =>
      let w' := fresh "w" in
      destruct (configurePrefs_spec u0 w0) as (w' & -> &?&?&?&?&?&?&?&?&?&?&?&?); simpl
  end.

Ltac unfold_edit :=
  unfold EditPDFTool.mount, EditPDFTool.unmount, EditPDFTool.initializeFile,
    EditPDFTool.handleClear, EditPDFTool.handleFilesSelected,
    EditPDFTool.consumePendingFile, EditPDFTool.setFile, EditPDFTool.setPdfUrl,
    EditPDFTool.setError, EditPDFTool.setIsEditorReady, EditPDFTool.phase,
    revokeObjectURL, spawn.

Ltac unfold_sign :=
  unfold SignPDFTool.mount, SignPDFTool.unmount, SignPDFTool.restoreSession,
    SignPDFTool.handleClear, SignPDFTool.handleFilesSelected,
    SignPDFTool.setSignState, SignPDFTool.setError, SignPDFTool.setIsProcessing,
    SignPDFTool.phase, revokeObjectURL, spawn.

Ltac unfold_steps := unfold try_catch, bind, effect, gets, modify, ret, throw.

(** Traces only grow: collect what each step has appended. *)
Ltac trace_cases :=
  repeat match goal with
         | H : w_trace _ = _ \/ w_trace _ = _ |- _ => destruct H as [H|H]
         end.
Ltac trace_solve :=
  repeat match goal with
         | H : w_trace ?x = _ |- context [w_trace ?x] => rewrite H
         end;
  rewrite <- ?app_assoc; simpl; by eexists.

Section MountProperties.

Lemma consume_none slug :
  PendingFileContext.consumePendingFile slug (PendingFileContext.rendered None)
  = (None, PendingFileContext.rendered None).
Proof. reflexivity. Qed.

Lemma consume_hit slug p :
  PendingFileContext.toolSlug p = slug ->
  PendingFileContext.consumePendingFile slug (PendingFileContext.rendered (Some p))
  = (Some (PendingFileContext.file p),
     PendingFileContext.setPendingFileState None (PendingFileContext.rendered (Some p))).
Proof.
  intros <-. unfold PendingFileContext.consumePendingFile. simpl.
  by rewrite decide_True by done.
Qed.

(** *** SignPDFTool *)

Lemma sign_mount_restores w r w' doc :
  SignPDFTool.mount w = (r, w') ->
  sign_file (w_sign w') = Some doc ->
  w_files w !! SignPDFTool.SESSION_FILE_NAME = Some (file_bytes doc) /\
  doc = restored "application/pdf" (file_bytes doc).
Proof.
  unfold_sign. unfold_steps. simpl.
  run_load E1; [run_url E2; [run_prefs|]|]; intros [= <- <-]; simpl.
  all: repeat match goal with H : w_sign _ = _ |- _ => rewrite H; clear H end.
  all: simpl; intros [= <-]; simpl.
  by destruct O as [-> _].
Qed.

(** The mount effect of SignPDFTool never throws, leaves the handoff
    alone and always asks the file store for the snapshot. *)
Lemma sign_mount_frame w r w' :
  SignPDFTool.mount w = (r, w') ->
  r = Ok tt /\ w_pending w' = w_pending w /\ w_files w' = w_files w /\
  exists cs, w_trace w' = w_trace w ++ CGetDirectory :: cs.
Proof.
  unfold_sign. unfold_steps. simpl.
  match goal with
  | |- context [FileSystem.loadFileFromOPFS ?n0 ?w0] =>
      destruct (FileSystem.loadFileFromOPFS n0 w0) as [[blob|e] w1] eqn:E1;
      pose proof (load_outcome _ _ _ _ E1) as [F1 _];
      pose proof (load_frame _ _ _ _ E1) as (V & _ & cs & T1); use_view V;
      simpl in *
  end.
  - run_url E2; [run_prefs|]; intros [= <- <-]; simpl;
      (split; [done|]); (split; [congruence|]); (split; [congruence|]).
    + match goal with
      | H : _ \/ _ |- _ => destruct H as [->| ->]
      end; match goal with H : w_trace _ = w_trace w1 ++ _ |- _ => rewrite H end;
        rewrite T1, <- ?app_assoc; simpl; by eexists.
    + match goal with H : w_trace _ = w_trace w1 ++ _ |- _ => rewrite H end.
      rewrite T1, <- ?app_assoc; simpl; by eexists.
  - intros [= <- <-]; simpl. (split; [done|]); (split; [congruence|]);
      (split; [congruence|]). rewrite T1, <- ?app_assoc; simpl; by eexists.
Qed.

Lemma sign_mount_ready w data :
  w_faults w = [] ->
  w_files w !! SignPDFTool.SESSION_FILE_NAME = Some data ->
  SignPDFTool.phase (snd (SignPDFTool.mount w)) = Ready (restored "application/pdf" data).
Proof.
  intros F L. unfold_sign. unfold_steps. simpl.
  match goal with
  | |- context [FileSystem.loadFileFromOPFS ?n0 ?w0] =>
      destruct (load_no_fault n0 w0 data) as (w1 & -> & _ & F1 & V); [done..|];
      use_view V; simpl in *
  end.
  run_url E2; [run_prefs; simpl|].
  - repeat match goal with H : w_sign _ = _ |- _ => rewrite H; clear H end.
    reflexivity.
  - destruct E2 as (E2 & _). rewrite F1 in E2. by apply elem_of_nil in E2.
Qed.

Lemma sign_mount_awaiting w :
  w_files w !! SignPDFTool.SESSION_FILE_NAME = None ->
  SignPDFTool.phase (snd (SignPDFTool.mount w)) = AwaitingUpload.
Proof.
  intros L. destruct (SignPDFTool.mount w) as [r w'] eqn:E. simpl.
  unfold SignPDFTool.phase. destruct (sign_file (w_sign w')) as [doc|] eqn:D; [|done].
  destruct (sign_mount_restores _ _ _ _ E D) as [H _]. congruence.
Qed.

(** *** EditPDFTool *)

(** With no handoff, whatever [EditPDFTool.mount] leaves as the working
    document was restored from the snapshot. *)
Lemma edit_mount_restores w r w' doc :
  w_pending w = None ->
  EditPDFTool.mount w = (r, w') ->
  edit_file (w_edit w') = Some doc ->
  w_files w !! EditPDFTool.SESSION_FILE_NAME = Some (file_bytes doc) /\
  doc = restored (str_or (w_mime w EditPDFTool.SESSION_FILE_NAME) "application/pdf")
                 (file_bytes doc).
Proof.
  intros Hp. unfold_edit. unfold_steps. simpl. rewrite Hp, consume_none. simpl.
  run_load E1; [run_prefs; run_url E2|]; intros [= <- <-]; simpl.
  all: repeat match goal with H : w_edit _ = _ |- _ => rewrite H; clear H end.
  all: simpl; intros [= <-]; simpl.
  all: destruct O as (-> & _ & ->); done.
Qed.

Lemma edit_mount_ready w data :
  w_pending w = None -> w_faults w = [] ->
  w_files w !! EditPDFTool.SESSION_FILE_NAME = Some data ->
  EditPDFTool.phase (snd (EditPDFTool.mount w))
  = Ready (restored (str_or (w_mime w EditPDFTool.SESSION_FILE_NAME) "application/pdf") data).
Proof.
  intros Hp F L. unfold_edit. unfold_steps. simpl. rewrite Hp, consume_none. simpl.
  match goal with
  | |- context [FileSystem.loadFileFromOPFS ?n0 ?w0] =>
      destruct (load_no_fault n0 w0 data) as (w1 & -> & _ & F1 & V); [done..|];
      use_view V; simpl in *
  end.
  run_prefs. run_url E2; simpl.
  all: repeat match goal with H : w_edit _ = _ |- _ => rewrite H; clear H end.
  all: reflexivity.
Qed.

Lemma edit_mount_awaiting w :
  w_pending w = None ->
  w_files w !! EditPDFTool.SESSION_FILE_NAME = None ->
  EditPDFTool.phase (snd (EditPDFTool.mount w)) = AwaitingUpload.
Proof.
  intros Hp L. destruct (EditPDFTool.mount w) as [r w'] eqn:E. simpl.
  unfold EditPDFTool.phase. destruct (edit_file (w_edit w')) as [doc|] eqn:D; [|done].
  destruct (edit_mount_restores _ _ _ _ Hp E D) as [H _]. congruence.
Qed.

(** A handoff addressed to the edit tool is taken on mount: it becomes the
    working document, the slot is emptied, the snapshot write is started
    without being awaited, and the file store is not read. *)
Lemma edit_mount_handoff w p r w' :
  w_pending w = Some p ->
  PendingFileContext.toolSlug p = "edit-pdf" ->
  EditPDFTool.mount w = (r, w') ->
  w_pending w' = None /\
  edit_file (w_edit w') = Some (PendingFileContext.file p) /\
  w_files w' = w_files w /\
  w_trace w' = w_trace w ++
    [CConsoleLog; CCreateObjectURL (file_bytes (PendingFileContext.file p))] /\
  match r with
  | Ok _ =>
      edit_pdfUrl (w_edit w') = Some (w_next_url w) /\
      w_tasks w' = w_tasks w ++
        [TaskSave EditPDFTool.SESSION_FILE_NAME
                  (blob_of_file (PendingFileContext.file p)) CConsoleError]
  | Throw e => Some e ∈ take 1 (w_faults w)
  end.
Proof.
  intros Hp Hs. unfold_edit. unfold_steps. simpl.
  rewrite Hp, (consume_hit _ _ Hs). simpl.
  run_url E2; intros [= <- <-]; simpl;
    repeat match goal with H : _ _ = _ |- _ => rewrite H; clear H end;
    simpl; rewrite <- ?app_assoc; simpl.
  - destruct E2 as (-> & _). done.
  - destruct E2 as (E2 & _). done.
Qed.

Lemma consume_miss slug p :
  PendingFileContext.toolSlug p <> slug ->
  PendingFileContext.consumePendingFile slug (PendingFileContext.rendered (Some p))
  = (None, PendingFileContext.rendered (Some p)).
Proof.
  intros H. unfold PendingFileContext.consumePendingFile. simpl.
  by rewrite decide_False by done.
Qed.

(** When no handoff is taken, the mount effect of EditPDFTool never
    throws, leaves the handoff slot as it is, and a document it sets was
    restored from the snapshot. *)
Lemma edit_mount_without_handoff w r w' :
  PendingFileContext.consumePendingFile "edit-pdf" (PendingFileContext.rendered (w_pending w))
  = (None, PendingFileContext.rendered (w_pending w)) ->
  EditPDFTool.mount w = (r, w') ->
  r = Ok tt /\ w_pending w' = w_pending w /\ w_files w' = w_files w /\
  (exists cs, w_trace w' = w_trace w ++ CGetDirectory :: cs) /\
  forall doc, edit_file (w_edit w') = Some doc ->
    w_files w !! EditPDFTool.SESSION_FILE_NAME = Some (file_bytes doc) /\
    doc = restored (str_or (w_mime w EditPDFTool.SESSION_FILE_NAME) "application/pdf")
                   (file_bytes doc).
Proof.
  intros Hc. unfold_edit. unfold_steps. simpl. rewrite Hc. simpl.
  match goal with
  | |- context [FileSystem.loadFileFromOPFS ?n0 ?w0] =>
      destruct (FileSystem.loadFileFromOPFS n0 w0) as [[blob|e] w1] eqn:E1;
      pose proof (load_outcome _ _ _ _ E1) as [F1 O];
      pose proof (load_frame _ _ _ _ E1) as (V & _ & cs & T1); use_view V;
      simpl in *
  end.
  - run_prefs. run_url E2; intros [= <- <-]; simpl.
    all: split; [done|]; split; [congruence|]; split; [congruence|]; split.
    all: try (trace_cases; trace_solve).
    all: repeat match goal with H : w_edit _ = _ |- _ => rewrite H; clear H end.
    all: simpl; intros doc [= <-]; simpl; by destruct O as (-> & _ & ->).
  - intros [= <- <-]; simpl. split; [done|]. split; [congruence|].
    split; [congruence|]. split; [trace_solve|].
    repeat match goal with H : w_edit _ = _ |- _ => rewrite H; clear H end.
    simpl. done.
Qed.


End MountProperties.

(** ** Session restore and handoff on mount *)

Section RestoreProperties.




(** C2 (the code at the failing input): SignPDFTool never looks at the
    handoff.  With a handoff pending, whatever its destination, the mount
    leaves it unconsumed, goes to the file store for the session snapshot,
    and shows the uploader when no snapshot is stored; a document it shows
    is the restored snapshot, not the handed-off file. *)
Theorem C2_sign_mount_ignores_handoff (w : World) (p : PendingFileContext.PendingFile) :
  w_pending w = Some p ->
  forall r w', SignPDFTool.mount w = (r, w') ->
    w_pending w' = Some p /\
    (exists cs, w_trace w' = w_trace w ++ CGetDirectory :: cs) /\
    (w_files w !! SignPDFTool.SESSION_FILE_NAME = None ->
       SignPDFTool.phase w' = AwaitingUpload) /\
    (forall doc, SignPDFTool.phase w' = Ready doc ->
       w_files w !! SignPDFTool.SESSION_FILE_NAME = Some (file_bytes doc) /\
       file_name doc = "restored_document.pdf").
Proof.
  intros Hp r w' E.
  destruct (sign_mount_frame _ _ _ E) as (_ & P & _ & T).
  split; [congruence|]. split; [exact T|]. split.
  - intros L. pose proof (sign_mount_awaiting w L) as A. by rewrite E in A.
  - intros doc. unfold SignPDFTool.phase.
    destruct (sign_file (w_sign w')) as [d|] eqn:D; [|done]. intros [= ->].
    destruct (sign_mount_restores _ _ _ _ E D) as [H1 H2].
    split; [exact H1|]. by rewrite H2.
Qed.

Lemma C2_sign_mount_ignores_handoff_witness :
  w_pending sign_handoff_world
  = Some (PendingFileContext.mkPending file_A "sign-pdf" "contract.pdf") /\
  w_pending (snd (SignPDFTool.mount sign_handoff_world))
  = Some (PendingFileContext.mkPending file_A "sign-pdf" "contract.pdf") /\
  SignPDFTool.phase (snd (SignPDFTool.mount sign_handoff_world)) = AwaitingUpload.
Proof.
  split; [reflexivity|].
  destruct (C2_sign_mount_ignores_handoff sign_handoff_world _ eq_refl
              (fst (SignPDFTool.mount sign_handoff_world))
              (snd (SignPDFTool.mount sign_handoff_world)))
    as (H1 & _ & H2 & _).
  - by destruct (SignPDFTool.mount sign_handoff_world).
  - split; [exact H1|]. apply H2. vm_compute. reflexivity.
Defined.

End RestoreProperties.

(** ** A page without injected faults *)

Section FaultlessPage.
Import EditPDFTool.

(** The backup handler starts the snapshot write whatever the state of
    the session is. *)
Lemma edit_backup_run b w :
  handleMessage (backup_message b) w
  = (Ok tt, set_tasks (w_tasks w ++ [TaskSave SESSION_FILE_NAME b CConsoleWarn]) w).
Proof. reflexivity. Qed.

Lemma edit_clear_no_fault w :
  w_faults w = [] ->
  exists w', handleClear w = (Ok tt, w') /\
    w_files w' = delete SESSION_FILE_NAME (w_files w) /\
    w_faults w' = [] /\ w_tasks w' = w_tasks w /\ w_pending w' = w_pending w /\
    w_mime w' = w_mime w /\ phase w' = AwaitingUpload.
Proof.
  intros F. unfold_edit. unfold_steps.
  destruct (edit_pdfUrl (w_edit w)) as [u|]; simpl.
  all: match goal with
       | |- context [FileSystem.deleteFileFromOPFS ?n0 ?w0] =>
           destruct (delete_no_fault n0 w0) as (r & w1 & -> & D & F1 & V);
           [done|]; use_view V; simpl in *
       end.
  all: destruct r as [[]|e]; simpl; eexists; (split; [reflexivity|]); simpl;
       repeat split; congruence.
Qed.

(** The oldest pending snapshot write settles: without injected faults it
    replaces the entry. *)
Lemma settle_save_no_fault name b c ts w :
  w_tasks w = TaskSave name b c :: ts -> w_faults w = [] ->
  exists w', settle w = (Ok tt, w') /\
    w_files w' = <[name := blob_bytes b]> (w_files w) /\
    w_faults w' = [] /\ w_tasks w' = ts /\ w_pending w' = w_pending w /\
    w_mime w' = w_mime w /\ w_edit w' = w_edit w /\ w_sign w' = w_sign w.
Proof.
  intros T F. unfold settle, run_task. unfold_steps. rewrite T. simpl.
  match goal with
  | |- context [FileSystem.saveFileToOPFS ?n0 ?b0 ?w0] =>
      destruct (save_no_fault n0 b0 w0) as (w1 & -> & D & F1 & V);
      [done|]; use_view V; simpl in *
  end.
  eexists; (split; [reflexivity|]); repeat split; congruence.
Qed.

Lemma edit_unmount_frame w :
  exists w', unmount w = (Ok tt, w') /\
    w_files w' = w_files w /\ w_faults w' = w_faults w /\ w_tasks w' = w_tasks w /\
    w_pending w' = w_pending w /\ w_mime w' = w_mime w.
Proof.
  unfold_edit. unfold_steps. destruct (edit_pdfUrl (w_edit w)); simpl; eauto 10.
Qed.

(** An upload is shown at once and starts the write of its snapshot. *)
Lemma edit_upload_no_fault f fs w :
  w_faults w = [] ->
  exists w', handleFilesSelected (f :: fs) w = (Ok tt, w') /\
    w_files w' = w_files w /\ w_faults w' = [] /\
    w_tasks w' = w_tasks w ++
      [TaskSave SESSION_FILE_NAME (blob_of_file f) CConsoleError] /\
    w_pending w' = w_pending w /\ w_mime w' = w_mime w /\
    w_edit w' = mkEdit (Some f) (Some (w_next_url w)) None
                       (edit_isEditorReady (w_edit w)) (edit_isFullScreen (w_edit w)).
Proof.
  intros F. unfold_edit. unfold_steps. simpl.
  run_url E2; simpl.
  - eexists; (split; [reflexivity|]); simpl.
    repeat match goal with H : w_edit _ = _ |- _ => rewrite H; clear H end.
    match goal with H : w_faults _ = drop 1 _ |- _ => simpl in H; rewrite F in H; simpl in H end.
    destruct E2 as (-> & _). simpl. repeat split; congruence.
  - destruct E2 as (E2 & _). simpl in E2. rewrite F in E2. by apply elem_of_nil in E2.
Qed.

(** *** A page without faults, event by event *)

Lemma page_start w : w_faults w = [] -> page_of w (w_files w) (w_tasks w) w.
Proof. by intros F. Qed.

Lemma page_resume w fs ts w1 :
  page_of w fs ts w1 ->
  fst (resume w1) = Ok tt /\
  page_of w (files_after ts fs) (queue_after ts fs) (snd (resume w1)).
Proof.
  intros (F & P & M & D & T). open_world w1. simpl in *. subst.
  unfold resume, page_of. unfold_steps. simpl.
  destruct ts as [|[n b c|[|h|wr|wr] n b c] rest]; simpl.
  - done.
  - unfold FileSystem.getRoot, FileSystem.getDirectory, platform. by simpl.
  - unfold FileSystem.getFileHandle, bind, gets, modify, ret, throw, platform. simpl.
    by destruct (fs !! n).
  - unfold FileSystem.createWritable, bind, gets, modify, ret, throw, platform. simpl.
    by destruct (fs !! h).
  - unfold FileSystem.write, bind, gets, modify, ret, throw, platform. by simpl.
  - unfold FileSystem.close, bind, gets, modify, ret, throw, platform. by simpl.
Qed.

Lemma page_backup w fs ts w1 b :
  page_of w fs ts w1 ->
  page_of w fs (ts ++ [TaskSave SESSION_FILE_NAME b CConsoleWarn])
          (snd (handleMessage (backup_message b) w1)).
Proof.
  intros (F & P & M & D & T). rewrite edit_backup_run. unfold page_of. simpl.
  by rewrite T.
Qed.

Lemma page_upload w fs ts w1 f :
  page_of w fs ts w1 ->
  phase (snd (handleFilesSelected [f] w1)) = Ready f /\
  page_of w fs (ts ++ [TaskSave SESSION_FILE_NAME (blob_of_file f) CConsoleError])
          (snd (handleFilesSelected [f] w1)).
Proof.
  intros (F & P & M & D & T).
  destruct (edit_upload_no_fault f [] w1 F) as (w2 & -> & D2 & F2 & T2 & P2 & M2 & S2).
  unfold page_of, phase. simpl. rewrite S2. simpl. repeat split; congruence.
Qed.

Lemma page_clear w fs ts w1 :
  page_of w fs ts w1 ->
  page_of w (delete SESSION_FILE_NAME fs) ts (snd (handleClear w1)).
Proof.
  intros (F & P & M & D & T).
  destruct (edit_clear_no_fault w1 F) as (w2 & -> & D2 & F2 & T2 & P2 & M2 & _).
  unfold page_of. simpl. repeat split; congruence.
Qed.

Lemma page_unmount w fs ts w1 :
  page_of w fs ts w1 -> page_of w fs ts (snd (unmount w1)).
Proof.
  intros (F & P & M & D & T).
  destruct (edit_unmount_frame w1) as (w2 & -> & D2 & F2 & T2 & P2 & M2).
  unfold page_of. simpl. repeat split; congruence.
Qed.

Lemma page_mount w fs ts w1 :
  page_of w fs ts w1 -> w_pending w = None ->
  phase (snd (mount w1))
  = phase_of (restored (str_or (w_mime w SESSION_FILE_NAME) "application/pdf")
                <$> fs !! SESSION_FILE_NAME).
Proof.
  intros (F & P & M & D & T) Hp. destruct (fs !! SESSION_FILE_NAME) as [d|] eqn:L; simpl.
  - rewrite (edit_mount_ready w1 d); [by rewrite M | congruence | done | congruence].
  - apply edit_mount_awaiting; congruence.
Qed.

(** Settling is passing the awaits that are left, with no other event in
    between. *)
Lemma run_task_step t w :
  run_task t w
  = match save_step t w with
    | (Ok (Some t'), w1) => run_task t' w1
    | (Ok None, w1) => (Ok tt, w1)
    | (Throw e, w1) => effect (on_reject_of t) w1
    end.
Proof.
  destruct t as [n b c|[|h|wr|wr] n b c]; simpl;
    unfold FileSystem.saveFileToOPFS, try_catch, bind, ret;
    repeat match goal with
           | |- context [match ?m w with _ => _ end] => destruct (m w) as [[[]|?] ?]
           | |- context [match ?m w with _ => _ end] => destruct (m w) as [[?|?] ?]
           end; reflexivity.
Qed.

Lemma run_events_cons handler ev evs w :
  run_events handler (ev :: evs) w = run_events handler evs (snd (handler ev w)).
Proof. reflexivity. Qed.

End FaultlessPage.

(** The next event of a faultless page. *)
Ltac page_event H :=
  rewrite run_events_cons; cbn [edit_handler];
  lazymatch goal with
  | |- context [snd (resume ?w1)] =>
      apply page_resume in H as [_ H];
      generalize dependent (snd (resume w1))
  | |- context [snd (EditPDFTool.handleClear ?w1)] =>
      apply page_clear in H; generalize dependent (snd (EditPDFTool.handleClear w1))
  | |- context [snd (EditPDFTool.unmount ?w1)] =>
      apply page_unmount in H; generalize dependent (snd (EditPDFTool.unmount w1))
  | |- context [snd (EditPDFTool.handleFilesSelected [?f] ?w1)] =>
      apply (page_upload _ _ _ _ f) in H as [_ H];
      generalize dependent (snd (EditPDFTool.handleFilesSelected [f] w1))
  | |- context [snd (EditPDFTool.handleMessage (backup_message ?b) ?w1)] =>
      apply (page_backup _ _ _ _ b) in H;
      generalize dependent (snd (EditPDFTool.handleMessage (backup_message b) w1))
  end;
  let w2 := fresh "w" in
  intros w2 H;
  cbn [files_after queue_after await_passed fst snd app] in H;
  rewrite ?lookup_insert_eq, ?lookup_delete_eq in H;
  repeat match type of H with
         | context [?m !! ?k] =>
             match goal with L : m !! k = _ |- _ => rewrite L in H end
         end;
  cbn [files_after queue_after await_passed fst snd app] in H.

(** The run is over: the page is as stated. *)
Ltac page_done H :=
  unfold run_events; cbn [foldl];
  let D := fresh "D" in
  destruct H as (?F & ?P & ?M & D & ?T);
  repeat match goal with
         | |- context [decide ?P] => destruct (decide P) as [[?|?]|?]
         end; try lia;
  unfold page_of; repeat split; try assumption;
  (rewrite D, ?drop_nil, ?app_nil_r;
   apply map_eq; intros i; destruct (decide (EditPDFTool.SESSION_FILE_NAME = i)) as [<-|?];
   [ by rewrite ?lookup_insert_eq, ?lookup_delete_eq
   | repeat first [ rewrite lookup_insert_ne by assumption
                  | rewrite lookup_delete_ne by assumption ];
     reflexivity ]).

(** The mount that ends the run. *)
Ltac page_end H Hp :=
  unfold run_events; cbn [foldl edit_handler];
  rewrite (page_mount _ _ _ _ H Hp);
  rewrite ?lookup_insert_eq, ?lookup_delete_eq; try reflexivity.

(** ** A backup that settles after a clear *)

Section BackupAfterClear.
Import EditPDFTool.

#[local] Arguments handleMessage : simpl never.
#[local] Arguments handleClear : simpl never.
#[local] Arguments handleFilesSelected : simpl never.
#[local] Arguments mount : simpl never.
#[local] Arguments unmount : simpl never.
#[local] Arguments settle : simpl never.
#[local] Arguments resume : simpl never.
#[local] Arguments phase : simpl never.

(** A backup arrives, the user clears the session while the write of the
    backup is in flight, and the write goes on: the snapshot is back and
    the next mount restores it.  So it is when the clear comes first
    and the backup after it. *)
Lemma C1_backup_after_clear_counterexample :
  let stored := run_events edit_handler
                  [EvMount; EvFilesSelected [file_A]; EvSettle] fresh_world in
  let doc := restored "application/pdf" (blob_bytes blob_B) in
  phase (run_events edit_handler
           (EvMessage (backup_message blob_B) :: awaits 3 ++ EvClear :: awaits 2 ++
            [EvUnmount; EvMount]) stored) = Ready doc /\
  phase (run_events edit_handler
           (EvClear :: EvMessage (backup_message blob_B) :: awaits 5 ++
            [EvUnmount; EvMount]) stored) = Ready doc.
Proof. vm_compute. split; reflexivity. Qed.

(** C1 (amended): the backup handler starts the write of the snapshot
    whatever the state of the session is, and a clear discards no write.
    Without injected faults, with no handoff pending and no other write
    in flight, whether the next mount finds the snapshot depends on
    where the clear falls among the five awaits of the write: [k] of
    them have passed when the clear removes the entry.  The clear wins when the write has settled
    before it, and when it falls between the write's [getFileHandle] and
    its [createWritable]: the stream then cannot be opened on the
    removed entry, the write is rejected and the next mount awaits an
    upload.  When the clear falls before the [getFileHandle], or after
    the [createWritable], or before the backup message arrives, the
    write leaves the bytes of the backup under the reserved name and the
    next mount restores them.  In every case no write is left in
    flight. *)
Theorem C1_clear_wins_only_over_settled_backups (w : World) (b : Blob) (k : nat) :
  w_faults w = [] -> w_tasks w = [] -> w_pending w = None -> (k <= 5)%nat ->
  let doc := restored (str_or (w_mime w SESSION_FILE_NAME) "application/pdf")
                      (blob_bytes b) in
  let cleared :=
    run_events edit_handler
      (EvMessage (backup_message b) :: awaits k ++ EvClear :: awaits (5 - k)) w in
  let late :=
    run_events edit_handler
      (EvClear :: EvMessage (backup_message b) :: awaits 5) w in
  w_tasks cleared = [] /\ w_tasks late = [] /\
  w_files cleared
  = (if decide (k = 2%nat \/ k = 5%nat) then delete SESSION_FILE_NAME (w_files w)
     else <[SESSION_FILE_NAME := blob_bytes b]> (w_files w)) /\
  phase (run_events edit_handler [EvUnmount; EvMount] cleared)
  = (if decide (k = 2%nat \/ k = 5%nat) then AwaitingUpload else Ready doc) /\
  phase (run_events edit_handler [EvUnmount; EvMount] late) = Ready doc.
Proof.
  intros F T P Hk doc cleared late.
  pose proof (page_start w F) as H0. rewrite T in H0.
  assert (Hc : page_of w
                 (if decide (k = 2%nat \/ k = 5%nat)
                  then delete SESSION_FILE_NAME (w_files w)
                  else <[SESSION_FILE_NAME := blob_bytes b]> (w_files w)) [] cleared).
  { subst cleared. destruct (w_files w !! SESSION_FILE_NAME) as [d|] eqn:L.
    all: do 6 (destruct k as [|k];
               [cbn [awaits replicate app Nat.sub]; repeat page_event H0; page_done H0|]).
    all: lia. }
  assert (Hl : page_of w (<[SESSION_FILE_NAME := blob_bytes b]> (w_files w)) [] late).
  { subst late. destruct (w_files w !! SESSION_FILE_NAME) as [d|] eqn:L.
    all: cbn [awaits replicate app]; repeat page_event H0; page_done H0. }
  split; [apply Hc|]. split; [apply Hl|]. split; [apply Hc|]. split.
  - page_event Hc. page_end Hc P.
    destruct (decide (k = 2%nat \/ k = 5%nat));
      [rewrite lookup_delete_eq | rewrite lookup_insert_eq]; reflexivity.
  - page_event Hl. page_end Hl P.
Qed.

Lemma C1_clear_wins_only_over_settled_backups_witness :
  let stored := set_files {[ SESSION_FILE_NAME := blob_bytes blob_A ]} fresh_world in
  phase (run_events edit_handler [EvUnmount; EvMount]
           (run_events edit_handler
              (EvMessage (backup_message blob_B) :: awaits 2 ++ EvClear :: awaits 3)
              stored))
  = AwaitingUpload /\
  phase (run_events edit_handler [EvUnmount; EvMount]
           (run_events edit_handler
              (EvMessage (backup_message blob_B) :: awaits 4 ++ EvClear :: awaits 1)
              stored))
  = Ready (restored "application/pdf" (blob_bytes blob_B)).
Proof.
  intros stored.
  pose proof (C1_clear_wins_only_over_settled_backups stored blob_B 2
                eq_refl eq_refl eq_refl ltac:(lia)) as H2.
  pose proof (C1_clear_wins_only_over_settled_backups stored blob_B 4
                eq_refl eq_refl eq_refl ltac:(lia)) as H4.
  cbv zeta in H2, H4. cbn [Nat.sub] in H2, H4.
  destruct H2 as (_ & _ & _ & H2 & _). destruct H4 as (_ & _ & _ & H4 & _).
  split; [rewrite H2 | rewrite H4]; vm_compute; reflexivity.
Defined.

End BackupAfterClear.

(** ** The explicit save *)

Section SaveData.
Import FileSystem.

Lemma elem_of_faults_after (w w1 : World) e n :
  (exists k, w_faults w1 = drop k (w_faults w)) ->
  Some e ∈ take n (w_faults w1) -> Some e ∈ w_faults w.
Proof. intros [k ->]. apply elem_of_take_drop. Qed.

(** The steps run in order and stop at the first that fails; nothing
    but the directory, the object URLs, the timers, the oracle and the
    trace is touched. *)
Lemma save_data_steps_spec savedName session blob w r w' :
  save_data_steps savedName session blob w = (r, w') ->
  w_edit w' = w_edit w /\ w_sign w' = w_sign w /\ w_pending w' = w_pending w /\
  w_tasks w' = w_tasks w /\
  exists cs,
    w_trace w' = w_trace w ++ cs /\
    cs `prefix_of` save_data_calls savedName session (blob_bytes blob) (w_next_url w) /\
    match r with
    | Ok _ =>
        cs = save_data_calls savedName session (blob_bytes blob) (w_next_url w) /\
        w_files w' = <[session := blob_bytes blob]>
                       (<[savedName := blob_bytes blob]> (w_files w)) /\
        w_timers w' = w_timers w ++ [mkTimer 1000 (w_next_url w)] /\
        w_urls w' = w_next_url w :: w_urls w
    | Throw e => Some e ∈ w_faults w
    end.
Proof.
  unfold save_data_steps, download_via_anchor, setTimeout_revoke. unfold_steps.
  destruct (saveFileToOPFS savedName blob w) as [[[]|e1] w1] eqn:E1;
    pose proof (save_outcome _ _ _ _ _ E1) as O1;
    destruct (save_frame _ _ _ _ _ E1) as (V1 & K1 & cs1 & T1 & P1 & C1);
    use_view V1.
  2:{ intros [= <- <-]. repeat (split; [done|]).
      exists cs1. split; [done|]. split.
      - by apply prefix_app_r.
      - destruct O1 as [O1 _]. eapply elem_of_faults_after; [|exact O1].
        by exists 0%nat. }
  destruct (saveFileToOPFS session blob w1) as [[[]|e2] w2] eqn:E2;
    pose proof (save_outcome _ _ _ _ _ E2) as O2;
    destruct (save_frame _ _ _ _ _ E2) as (V2 & K2 & cs2 & T2 & P2 & C2);
    use_view V2.
  2:{ intros [= <- <-]. repeat (split; [congruence|]).
      exists (cs1 ++ cs2). split; [by rewrite T2, T1, app_assoc|]. split.
      - subst cs1. unfold save_data_calls. apply prefix_app.
        by apply prefix_app_r.
      - destruct O2 as [O2 _]. eapply elem_of_faults_after; [exact K1|exact O2]. }
  subst cs1 cs2.
  destruct (createObjectURL blob w2) as [[url|e3] w3] eqn:E3;
    apply createObjectURL_spec in E3;
    destruct E3 as (U1&U2&U3&U4&U5&U6&U7&U8&U9&U10&U11&U12).
  2:{ intros [= <- <-]. repeat (split; [congruence|]).
      eexists. split; [by rewrite U11, T2, T1, <- !app_assoc|].
      replace (w_next_url w) with (w_next_url w2) by congruence.
      split; [by eexists|].
      destruct U12 as [U12 _].
      eapply elem_of_faults_after; [exact (drop_drop_faults _ _ _ K1 K2)|exact U12]. }
  destruct U12 as (-> & U12 & U13).
  rewrite platform_run. destruct (pending_fault w3) as [e4|] eqn:E4; simpl.
  - intros [= <- <-]. simpl. repeat (split; [congruence|]).
    eexists. split; [by rewrite U11, T2, T1, <- !app_assoc|].
    replace (w_next_url w) with (w_next_url w2) by congruence.
    split; [by eexists|].
    apply pending_fault_elem in E4.
    eapply elem_of_faults_after; [|exact E4].
    eapply drop_drop_faults; [exact (drop_drop_faults _ _ _ K1 K2)|].
    by exists 1%nat.
  - intros [= <- <-]. simpl. repeat (split; [congruence|]).
    eexists. split; [by rewrite U11, T2, T1, <- !app_assoc|].
    replace (w_next_url w) with (w_next_url w2) by congruence.
    split; [done|]. split; [done|]. split; [by rewrite U1, O2, O1|].
    split; [congruence|]. congruence.
Qed.

(** *** Timers *)

Lemma revoke_all_spec ts w u :
  u ∈ w_urls (snd (foldr (fun t k => revokeObjectURL (timer_url t) ;; k) (ret tt) ts w)) ->
  u ∈ w_urls w /\ u ∉ map timer_url ts.
Proof.
  revert w. induction ts as [|t ts IH]; intros w; simpl.
  - intros H. split; [exact H|]. apply not_elem_of_nil.
  - unfold revokeObjectURL at 1. unfold_steps. simpl.
    intros H. apply IH in H as [H1 H2]. simpl in H1.
    apply list_elem_of_filter in H1 as [H1a H1b].
    split; [exact H1b|]. apply not_elem_of_cons. by split.
Qed.

(** Once the timers have fired, no URL whose release was scheduled is
    live. *)
Lemma fire_timers_releases w u :
  u ∈ map timer_url (w_timers w) -> u ∉ w_urls (snd (fire_timers w)).
Proof.
  intros H1 H2. unfold fire_timers in H2. unfold_steps. simpl in H2.
  apply revoke_all_spec in H2 as [_ H2]. contradiction.
Qed.

(** *** The handlers *)

Lemma filename_or_run prefix filename w :
  exists w1,
    filename_or filename (t <- Date_now ;; ret (prefix +:+ pretty t +:+ ".pdf")) w
    = (Ok (output_name prefix filename w), w1) /\
    w_trace w1 = w_trace w ++ output_name_calls filename /\
    w_faults w1 = w_faults w /\ w_files w1 = w_files w /\ w_urls w1 = w_urls w /\
    w_next_url w1 = w_next_url w /\ w_timers w1 = w_timers w /\
    w_tasks w1 = w_tasks w /\ w_pending w1 = w_pending w /\
    w_edit w1 = w_edit w /\ w_sign w1 = w_sign w.
Proof.
  unfold filename_or, output_name, output_name_calls.
  destruct filename as [f|]; [destruct (decide (f = ""))|];
    unfold_steps; rewrite ?Date_now_run; simpl;
    eexists; (split; [reflexivity|]); simpl; rewrite ?app_nil_r; done.
Qed.

Lemma edit_save_data_run data blob w :
  msg_type data = Some "PDF_SAVE_DATA" -> msg_blob data = Some blob ->
  EditPDFTool.handleMessage data w
  = try_catch
      (savedName <- filename_or (msg_filename data)
                      (t <- Date_now ;; ret ("edited_" +:+ pretty t +:+ ".pdf")) ;;
       save_data_steps savedName EditPDFTool.SESSION_FILE_NAME blob)
      (fun e => effect CConsoleError ;;
                EditPDFTool.setError (Some ("Failed to save file: " +:+ err_message e)))
      w.
Proof.
  intros Ht Hb. unfold EditPDFTool.handleMessage. rewrite Ht, Hb.
  rewrite decide_False by (by intros [=]). rewrite decide_True by done.
  reflexivity.
Qed.

Lemma edit_save_data_spec data blob w :
  msg_type data = Some "PDF_SAVE_DATA" -> msg_blob data = Some blob ->
  exists w', EditPDFTool.handleMessage data w = (Ok tt, w') /\
    save_data_handled "edited_" EditPDFTool.SESSION_FILE_NAME data blob w w'
      (edit_error (w_edit w)) (edit_error (w_edit w')) /\
    edit_file (w_edit w') = edit_file (w_edit w) /\
    edit_pdfUrl (w_edit w') = edit_pdfUrl (w_edit w) /\
    edit_isEditorReady (w_edit w') = edit_isEditorReady (w_edit w) /\
    w_tasks w' = w_tasks w /\ w_pending w' = w_pending w.
Proof.
  intros Ht Hb. rewrite (edit_save_data_run _ _ _ Ht Hb).
  unfold try_catch, bind at 1.
  destruct (filename_or_run "edited_" (msg_filename data) w)
    as (w1 & -> & T1 & F1 & D1 & U1 & N1 & Ti1 & Ta1 & P1 & Ed1 & Sg1).
  destruct (save_data_steps _ _ blob w1) as [[[]|e] w2] eqn:E2;
    apply save_data_steps_spec in E2;
    destruct E2 as (Ed2 & Sg2 & P2 & Ta2 & cs & T2 & Pre & R).
  - exists w2. split; [reflexivity|]. split.
    + exists cs. split; [by rewrite T2, T1, <- app_assoc|]. left.
      destruct R as (-> & Fi & Tm & Ur). rewrite N1 in *.
      split; [done|]. split; [congruence|]. split; [by rewrite Fi, D1|].
      split; [by rewrite Tm, Ti1|]. split; [rewrite Ur; set_solver|].
      apply fire_timers_releases. rewrite Tm, map_app. set_solver.
    + repeat split; congruence.
  - unfold EditPDFTool.setError. unfold_steps. simpl.
    eexists. split; [reflexivity|]. simpl. split.
    + exists (cs ++ [CConsoleError]).
      split; [simpl; by rewrite T2, T1, <- !app_assoc|].
      right. exists e, cs. rewrite N1 in Pre. rewrite F1 in R. done.
    + repeat split; congruence.
Qed.

Lemma sign_save_data_run data blob w :
  msg_type data = Some "PDF_SAVE_DATA" -> msg_blob data = Some blob ->
  SignPDFTool.handleMessage data w
  = try_catch
      (SignPDFTool.setIsProcessing true ;;
       savedName <- filename_or (msg_filename data)
                      (t <- Date_now ;; ret ("signed_" +:+ pretty t +:+ ".pdf")) ;;
       (save_data_steps savedName SignPDFTool.SESSION_FILE_NAME blob ;;
        SignPDFTool.setIsProcessing false))
      (fun e => effect CConsoleError ;;
                SignPDFTool.setError (Some ("Failed to save file: " +:+ err_message e)) ;;
                SignPDFTool.setIsProcessing false)
      w.
Proof.
  intros Ht Hb. unfold SignPDFTool.handleMessage. rewrite Ht, Hb.
  rewrite decide_False by (by intros [=]). rewrite decide_True by done.
  apply try_catch_ext.
  unfold save_data_steps, SignPDFTool.setIsProcessing, bind, modify. simpl.
  repeat (match goal with
          | |- context [match ?x with (_, _) => _ end] =>
              destruct x as [[?|?] ?]
          end; try reflexivity).
Qed.

Lemma sign_save_data_spec data blob w :
  msg_type data = Some "PDF_SAVE_DATA" -> msg_blob data = Some blob ->
  exists w', SignPDFTool.handleMessage data w = (Ok tt, w') /\
    save_data_handled "signed_" SignPDFTool.SESSION_FILE_NAME data blob w w'
      (sign_error (w_sign w)) (sign_error (w_sign w')) /\
    sign_file (w_sign w') = sign_file (w_sign w) /\
    sign_blobUrl (w_sign w') = sign_blobUrl (w_sign w) /\
    sign_viewerReady (w_sign w') = sign_viewerReady (w_sign w) /\
    sign_isProcessing (w_sign w') = false /\
    w_tasks w' = w_tasks w /\ w_pending w' = w_pending w.
Proof.
  intros Ht Hb. rewrite (sign_save_data_run _ _ _ Ht Hb).
  unfold try_catch, bind at 1. unfold SignPDFTool.setIsProcessing at 1.
  unfold modify at 1. unfold bind at 1.
  match goal with
  | |- context [filename_or _ _ ?w0] =>
      destruct (filename_or_run "signed_" (msg_filename data) w0)
        as (w1 & -> & T1 & F1 & D1 & U1 & N1 & Ti1 & Ta1 & P1 & Ed1 & Sg1);
      simpl in T1, F1, D1, U1, N1, Ti1, Ta1, P1, Ed1, Sg1;
      change (output_name "signed_" (msg_filename data) w0)
        with (output_name "signed_" (msg_filename data) w) in *
  end.
  unfold bind at 1.
  destruct (save_data_steps _ _ blob w1) as [[[]|e] w2] eqn:E2;
    apply save_data_steps_spec in E2;
    destruct E2 as (Ed2 & Sg2 & P2 & Ta2 & cs & T2 & Pre & R);
    unfold SignPDFTool.setIsProcessing, SignPDFTool.setError; unfold_steps; simpl;
    (eexists; split; [reflexivity|]); simpl; rewrite ?Sg2, ?Sg1; simpl.
  - split.
    + exists cs. split; [simpl; by rewrite T2, T1, <- app_assoc|]. left.
      destruct R as (-> & Fi & Tm & Ur). rewrite N1 in *.
      split; [done|]. split; [done|]. split; [simpl; by rewrite Fi, D1|].
      split; [simpl; by rewrite Tm, Ti1|]. split; [simpl; rewrite Ur; set_solver|].
      apply fire_timers_releases. simpl. rewrite Tm, map_app. set_solver.
    + repeat split; congruence.
  - split.
    + exists (cs ++ [CConsoleError]).
      split; [simpl; by rewrite T2, T1, <- !app_assoc|].
      right. exists e, cs. rewrite N1 in Pre. rewrite F1 in R. done.
    + repeat split; congruence.
Qed.



End SaveData.

(** ** The signature store *)

Section SignatureStoreProperties.
Import SignatureStore.

Ltac open_env env :=
  destruct env as [supported store conns faults clock random].

(** *** Sorting *)

Section Sorting.
Context {A : Type} (key : A -> Z).

(** The comparator [(a, b) => key(b) - key(a)]. *)
Let newest_first (a b : A) : Z := key b - key a.
Let R (a b : A) : Prop := key b <= key a.

Lemma sort_insert_perm x l : sort_insert newest_first x l ≡ₚ x :: l.
Proof.
  induction l as [|y l IH]; simpl; [done|].
  destruct (newest_first x y <=? 0); [done|].
  rewrite IH. apply Permutation_swap.
Qed.

Lemma array_sort_perm l : array_sort newest_first l ≡ₚ l.
Proof.
  unfold array_sort. induction l as [|x l IH]; simpl; [done|].
  by rewrite sort_insert_perm, IH.
Qed.

Lemma sort_insert_sorted x l :
  StronglySorted R l -> StronglySorted R (sort_insert newest_first x l).
Proof.
  induction 1 as [|y l Hs IH Hy]; simpl.
  - repeat constructor.
  - destruct (Z.leb_spec (newest_first x y) 0) as [Hle|Hgt];
      [unfold newest_first in Hle|unfold newest_first in Hgt].
    + constructor; [by constructor|].
      constructor; [unfold R; lia|].
      eapply Forall_impl; [exact Hy|]. unfold R. intros; lia.
    + constructor; [exact IH|].
      rewrite sort_insert_perm. constructor; [unfold R; lia|exact Hy].
Qed.

Lemma array_sort_sorted l : StronglySorted R (array_sort newest_first l).
Proof.
  unfold array_sort. induction l as [|x l IH]; simpl; [constructor|].
  by apply sort_insert_sorted.
Qed.

(** In a list sorted newest first, a strictly newer element comes
    before an older one. *)
Lemma sorted_newer_first l x y :
  StronglySorted R l -> x ∈ l -> y ∈ l -> key y < key x -> comes_before x y l.
Proof.
  induction 1 as [|z l Hs IH Hz]; intros Hx Hy Hlt.
  - by apply elem_of_nil in Hx.
  - apply elem_of_cons in Hx as [->|Hx]; apply elem_of_cons in Hy as [->|Hy].
    + lia.
    + apply list_elem_of_split in Hy as (l2 & l3 & ->).
      by exists [], l2, l3.
    + rewrite Forall_forall in Hz. apply Hz in Hx. unfold R in Hx. lia.
    + destruct (IH Hx Hy Hlt) as (l1 & l2 & l3 & ->).
      by exists (z :: l1), l2, l3.
Qed.

(** The sort is stable: the elements with one key keep their order. *)
Lemma sort_insert_stable (t : Z) x l :
  filter (fun a => key a = t) (sort_insert newest_first x l)
  = filter (fun a => key a = t) (x :: l).
Proof.
  induction l as [|y l IH]; simpl; [done|].
  destruct (Z.leb_spec (newest_first x y) 0) as [Hle|Hgt]; [done|].
  unfold newest_first in Hgt.
  rewrite (filter_cons _ y), IH, !filter_cons.
  destruct (decide (key y = t)), (decide (key x = t)); try reflexivity; lia.
Qed.

Lemma array_sort_stable (t : Z) l :
  filter (fun a => key a = t) (array_sort newest_first l)
  = filter (fun a => key a = t) l.
Proof.
  unfold array_sort. induction l as [|x l IH]; simpl; [done|].
  by rewrite sort_insert_stable, !filter_cons, IH.
Qed.

End Sorting.

Lemma comes_before_sublist {A} (x y : A) l :
  comes_before x y l <-> [x; y] `sublist_of` l.
Proof.
  split.
  - intros (l1 & l2 & l3 & ->). apply sublist_inserts_l. constructor.
    apply sublist_inserts_l. constructor. apply sublist_nil_l.
  - intros H. apply sublist_cons_l in H as (l1 & k & -> & H).
    apply sublist_cons_l in H as (l2 & l3 & -> & _). by exists l1, l2, l3.
Qed.

Lemma comes_before_filter {A} (P : A -> Prop) `{!forall a, Decision (P a)} x y l :
  P x -> P y -> comes_before x y l -> comes_before x y (filter P l).
Proof.
  intros Hx Hy (l1 & l2 & l3 & ->).
  rewrite filter_app, filter_cons_True, filter_app, filter_cons_True by done.
  by eexists _, _, _.
Qed.

Lemma comes_before_of_filter {A} (P : A -> Prop) `{!forall a, Decision (P a)} x y l :
  comes_before x y (filter P l) -> comes_before x y l.
Proof.
  rewrite !comes_before_sublist. intros Hs. etrans; [exact Hs|]. apply sublist_filter.
Qed.

Lemma StronglySorted_filter {A} (R : A -> A -> Prop) (P : A -> Prop)
    `{!forall a, Decision (P a)} l :
  StronglySorted R l -> StronglySorted R (filter P l).
Proof.
  induction 1 as [|x l Hs IH Hx]; [constructor|].
  rewrite filter_cons. destruct (decide (P x)); [|exact IH].
  constructor; [exact IH|]. rewrite Forall_forall in Hx |- *.
  intros z Hz. apply list_elem_of_filter in Hz as [_ Hz]. by apply Hx.
Qed.

(** *** The object store *)

Lemma store_put_elem e s x : x ∈ store_put e s <-> x = e \/ x ∈ s.
Proof.
  induction s as [|y s IH]; simpl.
  - set_solver.
  - destruct (String.ltb (id e) (id y)).
    + rewrite !elem_of_cons. tauto.
    + rewrite !elem_of_cons, IH. tauto.
Qed.

(** The order of the keys. *)
Lemma ltb_trans a b c :
  String.ltb a b = true -> String.ltb b c = true -> String.ltb a c = true.
Proof.
  unfold String.ltb. intros H1 H2.
  destruct (String.compare a b) eqn:E1; try discriminate.
  destruct (String.compare b c) eqn:E2; try discriminate.
  apply OrderedTypeEx.String_as_OT.cmp_lt in E1, E2.
  pose proof (OrderedTypeEx.String_as_OT.lt_trans _ _ _ E1 E2) as E3.
  apply OrderedTypeEx.String_as_OT.cmp_lt in E3.
  unfold OrderedTypeEx.String_as_OT.cmp in E3. by rewrite E3.
Qed.

Lemma ltb_asym a b : String.ltb a b = true -> String.ltb b a = false.
Proof.
  unfold String.ltb. rewrite (String.compare_antisym a b).
  by destruct (String.compare b a).
Qed.

Lemma ltb_total a b : a <> b -> String.ltb a b = false -> String.ltb b a = true.
Proof.
  unfold String.ltb. intros Hne. rewrite (String.compare_antisym b a).
  destruct (String.compare a b) eqn:E; simpl; try done.
  by apply String.compare_eq_iff in E.
Qed.

(** [store_put] walks past the records whose key is not above the new
    one and leaves the others behind it. *)
Lemma store_put_past e l s :
  Forall (fun x => String.ltb (id e) (id x) = false) l ->
  store_put e (l ++ s) = l ++ store_put e s.
Proof.
  induction 1 as [|x l Hx _ IH]; simpl; [done|]. by rewrite Hx, IH.
Qed.

Lemma store_put_split e s :
  exists l1 l2, s = l1 ++ l2 /\ store_put e s = l1 ++ e :: l2 /\
    Forall (fun x => String.ltb (id e) (id x) = false) l1.
Proof.
  induction s as [|x s (l1 & l2 & -> & E & F)]; simpl.
  - by exists [], [].
  - destruct (String.ltb (id e) (id x)) eqn:L.
    + by exists [], (x :: l1 ++ l2).
    + exists (x :: l1), l2. rewrite E. split; [done|]. split; [done|]. by constructor.
Qed.

(** Of two records put one after the other, the one with the smaller key
    is in front. *)
Lemma store_put_twice_order e1 e2 s :
  id e1 <> id e2 ->
  if String.ltb (id e1) (id e2)
  then comes_before e1 e2 (store_put e2 (store_put e1 s))
  else comes_before e2 e1 (store_put e2 (store_put e1 s)).
Proof.
  intros Hne. destruct (store_put_split e1 s) as (l1 & l2 & -> & -> & F1).
  destruct (String.ltb (id e1) (id e2)) eqn:L.
  - replace (l1 ++ e1 :: l2) with ((l1 ++ [e1]) ++ l2) by by rewrite <- app_assoc.
    rewrite store_put_past.
    + destruct (store_put_split e2 l2) as (k1 & k2 & _ & -> & _).
      exists l1, k1, k2. by rewrite <- !app_assoc.
    + apply Forall_app. split; [|by repeat constructor; apply ltb_asym].
      eapply Forall_impl; [exact F1|]. simpl. intros x Hx.
      destruct (String.ltb (id e2) (id x)) eqn:L2; [|done].
      by rewrite (ltb_trans _ _ _ L L2) in Hx.
  - apply ltb_total in L; [|done].
    destruct (store_put_split e2 (l1 ++ e1 :: l2)) as (k1 & k2 & E & -> & F2).
    assert (He : e1 ∈ k1 ++ k2) by (rewrite <- E; set_solver).
    apply elem_of_app in He as [He|He].
    + rewrite Forall_forall in F2. apply F2 in He. congruence.
    + apply list_elem_of_split in He as (k3 & k4 & ->). by exists k1, k3, k4.
Qed.

(** A store in key order stays in key order. *)
Lemma store_put_sorted e s :
  StronglySorted key_lt s -> store_has (id e) s = false ->
  StronglySorted key_lt (store_put e s).
Proof.
  induction 1 as [|x s Hs IH Hx]; simpl.
  - repeat constructor.
  - intros Hh. apply orb_false_iff in Hh as [Hx0 Hh].
    apply String.eqb_neq in Hx0.
    destruct (String.ltb (id e) (id x)) eqn:L.
    + constructor; [by constructor|]. constructor; [exact L|].
      eapply Forall_impl; [exact Hx|]. intros y Hy. by eapply ltb_trans.
    + constructor; [by apply IH|].
      apply Forall_forall. intros y Hy. apply store_put_elem in Hy as [->|Hy].
      * by apply ltb_total.
      * rewrite Forall_forall in Hx. by apply Hx.
Qed.

Lemma store_has_elem k s : store_has k s = true <-> exists x, x ∈ s /\ id x = k.
Proof.
  unfold store_has. rewrite existsb_exists. split.
  - intros (x & Hx & E). exists x. split; [by apply list_elem_of_In|].
    by apply String.eqb_eq.
  - intros (x & Hx & E). exists x. split; [by apply list_elem_of_In|].
    by apply String.eqb_eq.
Qed.

(** *** Opening and closing *)

Lemma openDB_spec env r env1 :
  openDB env = (r, env1) ->
  env_clock env1 = env_clock env /\ env_random env1 = env_random env /\
  match r with
  | Ok _ =>
      idb_connections env1 = S (idb_connections env) /\
      idb_store env1 = Some (default [] (idb_store env))
  | Throw e =>
      idb_connections env1 = idb_connections env /\ idb_store env1 = idb_store env /\
      (e = Error "IndexedDB not supported" \/ e = Error "Failed to open signature database")
  end.
Proof.
  open_env env. unfold openDB, next_fault. simpl.
  destruct supported; simpl; [destruct faults as [|[|] fs]; simpl|];
    intros [= <- <-]; simpl; repeat split; auto.
Qed.

(** One request: when its promise rejects, with the error of the
    function, the transaction has aborted and the connection is still
    open; when it resolves, the connection is closed exactly if the
    transaction completed. *)
Lemma request_promise_spec {A} (req : Request) (onsuccess : list StoredSignature -> A)
    onerror env r env1 :
  request_promise req onsuccess onerror env = (r, env1) ->
  env_clock env1 = env_clock env /\ env_random env1 = env_random env /\
  let s := default [] (idb_store env) in
  match r with
  | Throw e =>
      e = onerror /\ idb_connections env1 = idb_connections env /\
      idb_store env1 = idb_store env
  | Ok a =>
      a = onsuccess (match req with GetAll => s | _ => [] end) /\
      match req with Add e => store_has (id e) s = false | _ => True end /\
      ((idb_connections env1 = Nat.pred (idb_connections env) /\
        idb_store env1 = match req with
                         | Add e => Some (store_put e s)
                         | GetAll => idb_store env
                         | Delete k => Some (store_remove k s)
                         end)
       \/ (idb_connections env1 = idb_connections env /\
           idb_store env1 = idb_store env))
  end.
Proof.
  open_env env. unfold request_promise, transact, next_fault, db_close.
  unfold bind, modify, ret, throw. simpl.
  destruct faults as [|[|] [|[|] fs]]; simpl;
    destruct req as [e| |k]; simpl;
    try destruct (store_has (id e) (default [] store)) eqn:Has; simpl;
    intros [= <- <-]; simpl; repeat split; auto.
Qed.

(** Whether an [add] resolves depends on the key of the record only. *)
Lemma add_outcome_by_key {A} e1 e2 (a : A) onerror env :
  id e1 = id e2 ->
  fst (request_promise (Add e1) (fun _ => a) onerror env)
  = fst (request_promise (Add e2) (fun _ => a) onerror env).
Proof.
  open_env env. unfold request_promise, transact, next_fault, db_close.
  unfold bind, modify, ret, throw. simpl. intros ->.
  destruct faults as [|[|] [|[|] fs]]; simpl;
    destruct (store_has (id e2) (default [] store)); reflexivity.
Qed.

(** *** The three functions *)

Lemma Date_now_spec env :
  exists env', Date_now env = (Ok (hd 0 (env_clock env)), env') /\
    env_clock env' = tail (env_clock env) /\ env_random env' = env_random env /\
    idb_store env' = idb_store env /\ idb_connections env' = idb_connections env /\
    idb_faults env' = idb_faults env /\ idb_supported env' = idb_supported env.
Proof.
  open_env env. unfold Date_now. simpl. destruct clock; simpl; eauto 10.
Qed.

Lemma Math_random_spec env :
  exists env', Math_random_base36 env = (Ok (hd "0" (env_random env)), env') /\
    env_clock env' = env_clock env /\ env_random env' = tail (env_random env) /\
    idb_store env' = idb_store env /\ idb_connections env' = idb_connections env /\
    idb_faults env' = idb_faults env /\ idb_supported env' = idb_supported env.
Proof.
  open_env env. unfold Math_random_base36. simpl. destruct random; simpl; eauto 10.
Qed.

Lemma saveSignature_spec signature env r env' :
  saveSignature signature env = (r, env') ->
  match r with
  | Ok i =>
      i = next_id env /\ store_has (next_id env) (records env) = false /\
      ((idb_connections env' = idb_connections env /\
        idb_store env' = Some (store_put (next_entry signature env) (records env)))
       \/ (idb_connections env' = S (idb_connections env) /\
           records env' = records env))
  | Throw e =>
      records env' = records env /\
      ((open_failed e /\ idb_connections env' = idb_connections env)
       \/ (e = Error "Failed to save signature" /\
           idb_connections env' = S (idb_connections env)))
  end.
Proof.
  unfold saveSignature, bind, records.
  destruct (openDB env) as [[[]|e0] env1] eqn:E1; apply openDB_spec in E1;
    destruct E1 as (C1 & R1 & E1).
  2:{ intros [= <- <-]. destruct E1 as (E1 & E2 & E3).
      rewrite E2. split; [done|]. by left. }
  destruct E1 as (N1 & S1).
  destruct (Date_now_spec env1) as (env2 & -> & C2 & R2 & S2 & N2 & _).
  destruct (Math_random_spec env2) as (env3 & -> & C3 & R3 & S3 & N3 & _).
  destruct (Date_now_spec env3) as (env4 & -> & C4 & R4 & S4 & N4 & _).
  assert (Hid : "sig_" +:+ pretty (hd 0 (env_clock env1)) +:+ "_" +:+
                substr (hd "0" (env_random env2)) 2 5 = next_id env)
    by (unfold next_id; congruence).
  assert (Hat : hd 0 (env_clock env3) = hd 0 (tail (env_clock env)))
    by congruence.
  assert (Hs : default [] (idb_store env4) = default [] (idb_store env))
    by (rewrite S4, S3, S2, S1; reflexivity).
  rewrite Hid, Hat.
  match goal with
  | |- request_promise ?q ?f ?err env4 = _ -> _ =>
      destruct (request_promise q f err env4) as [[a|e] env5] eqn:E5;
      apply request_promise_spec in E5; simpl in E5;
      destruct E5 as (_ & _ & E5)
  end; intros [= <- <-].
  - destruct E5 as (-> & Has & [[N5 S5]|[N5 S5]]); rewrite Hs in *.
    + split; [done|]. split; [done|]. left. split; [lia|]. exact S5.
    + split; [done|]. split; [done|]. right. split; [lia|].
      by rewrite S5.
  - destruct E5 as (-> & N5 & S5). split; [by rewrite S5|].
    right. split; [done|]. lia.
Qed.

Lemma getAllSignatures_spec env r env' :
  getAllSignatures env = (r, env') ->
  records env' = records env /\
  match r with
  | Ok l =>
      l = array_sort (fun a b => createdAt b - createdAt a) (records env) /\
      (idb_connections env' = idb_connections env \/
       idb_connections env' = S (idb_connections env))
  | Throw e =>
      (open_failed e /\ idb_connections env' = idb_connections env)
      \/ (e = Error "Failed to load signatures" /\
          idb_connections env' = S (idb_connections env))
  end.
Proof.
  unfold getAllSignatures, bind, records.
  destruct (openDB env) as [[[]|e0] env1] eqn:E1; apply openDB_spec in E1;
    destruct E1 as (C1 & R1 & E1).
  2:{ intros [= <- <-]. destruct E1 as (E1 & E2 & E3).
      rewrite E2. split; [done|]. by left. }
  destruct E1 as (N1 & S1).
  match goal with
  | |- request_promise ?q ?f ?err env1 = _ -> _ =>
      destruct (request_promise q f err env1) as [[a|e] env5] eqn:E5;
      apply request_promise_spec in E5; simpl in E5;
      destruct E5 as (_ & _ & E5)
  end; intros [= <- <-].
  - destruct E5 as (-> & _ & [[N5 S5]|[N5 S5]]); rewrite S5, S1; simpl.
    + split; [done|]. split; [done|]. left. lia.
    + split; [done|]. split; [done|]. right. lia.
  - destruct E5 as (-> & N5 & S5). rewrite S5, S1. simpl. split; [done|].
    right. split; [done|]. lia.
Qed.

Lemma deleteSignature_spec k env r env' :
  deleteSignature k env = (r, env') ->
  match r with
  | Ok _ =>
      (idb_connections env' = idb_connections env /\
       records env' = store_remove k (records env))
      \/ (idb_connections env' = S (idb_connections env) /\
          records env' = records env)
  | Throw e =>
      records env' = records env /\
      ((open_failed e /\ idb_connections env' = idb_connections env)
       \/ (e = Error "Failed to delete signature" /\
           idb_connections env' = S (idb_connections env)))
  end.
Proof.
  unfold deleteSignature, bind, records.
  destruct (openDB env) as [[[]|e0] env1] eqn:E1; apply openDB_spec in E1;
    destruct E1 as (C1 & R1 & E1).
  2:{ intros [= <- <-]. destruct E1 as (E1 & E2 & E3).
      rewrite E2. split; [done|]. by left. }
  destruct E1 as (N1 & S1).
  match goal with
  | |- request_promise ?q ?f ?err env1 = _ -> _ =>
      destruct (request_promise q f err env1) as [[a|e] env5] eqn:E5;
      apply request_promise_spec in E5; simpl in E5;
      destruct E5 as (_ & _ & E5)
  end; intros [= <- <-].
  - destruct E5 as (_ & _ & [[N5 S5]|[N5 S5]]); rewrite S5, ?S1; simpl.
    + left. split; [lia|done].
    + right. split; [lia|done].
  - destruct E5 as (-> & N5 & S5). rewrite S5, S1. simpl. split; [done|].
    right. split; [done|]. lia.
Qed.

(** *** Connections *)

Lemma not_open_failed message :
  message <> "IndexedDB not supported" ->
  message <> "Failed to open signature database" ->
  ~ open_failed (Error message).
Proof. intros H1 H2 [[= E]|[= E]]; congruence. Qed.

(** C7 (the code at the failing input): the connection is closed in
    [tx.oncomplete] only.  When the request of a save, a load or a delete
    fails, the promise rejects with the function's own error and the
    connection the call opened is still open. *)
Theorem C7_connection_left_open_when_request_fails (env : Env) :
  (forall signature e env',
     saveSignature signature env = (Throw e, env') ->
     e = Error "Failed to save signature" ->
     idb_connections env' = S (idb_connections env)) /\
  (forall e env',
     getAllSignatures env = (Throw e, env') ->
     e = Error "Failed to load signatures" ->
     idb_connections env' = S (idb_connections env)) /\
  (forall k e env',
     deleteSignature k env = (Throw e, env') ->
     e = Error "Failed to delete signature" ->
     idb_connections env' = S (idb_connections env)).
Proof.
  split; [|split].
  - intros signature e env' H ->. apply saveSignature_spec in H as [_ [[H _]|[_ H]]];
      [|exact H]. exfalso. revert H. by apply not_open_failed.
  - intros e env' H ->. apply getAllSignatures_spec in H as [_ [[H _]|[_ H]]];
      [|exact H]. exfalso. revert H. by apply not_open_failed.
  - intros k e env' H ->. apply deleteSignature_spec in H as [_ [[H _]|[_ H]]];
      [|exact H]. exfalso. revert H. by apply not_open_failed.
Qed.

Lemma C7_connection_left_open_when_request_fails_witness :
  exists env',
    saveSignature sig_A env_request_fails = (Throw (Error "Failed to save signature"), env') /\
    idb_connections env' = 1%nat.
Proof.
  eexists. split; [vm_compute; reflexivity|].
  refine (proj1 (C7_connection_left_open_when_request_fails env_request_fails)
            sig_A _ _ _ eq_refl).
  vm_compute. reflexivity.
Defined.

(** *** Ids *)

(** The same clock reading and the same random digits give the same id:
    it is returned a second time once the first record is deleted, and
    while the first record is still stored the second save rejects. *)
Lemma C8_id_returned_twice_counterexample :
  let first := saveSignature sig_A env_repeat in
  let second := (deleteSignature "sig_5_k3x9q" ;; saveSignature sig_B) (snd first) in
  fst first = Ok "sig_5_k3x9q" /\ fst second = Ok "sig_5_k3x9q" /\
  fst (saveSignature sig_B (snd first)) = Throw (Error "Failed to save signature").
Proof. vm_compute. repeat split; reflexivity. Qed.

(** C8 (amended): an id that [saveSignature] returns is not the key of any
    record in the store at that time (a save whose id is already a key
    rejects instead), and it is built by the store from the clock and the
    random digits alone: the same call with any other record returns the
    same id.  An id of a record deleted since can be returned again. *)
Theorem C8_returned_id_is_fresh_among_stored (env env' : Env)
    (signature : NewSignature) (i : string) :
  saveSignature signature env = (Ok i, env') ->
  store_has i (records env) = false /\
  i = next_id env /\
  (forall x, x ∈ records env -> id x <> i) /\
  forall other, fst (saveSignature other env) = Ok i.
Proof.
  intros H. pose proof (saveSignature_spec _ _ _ _ H) as (-> & Has & _).
  split; [exact Has|]. split; [reflexivity|]. split.
  - intros x Hx E. assert (store_has (next_id env) (records env) = true)
      by (apply store_has_elem; eauto). congruence.
  - intros other. revert H. unfold saveSignature, bind.
    destruct (openDB env) as [[[]|e0] env1]; [|done].
    destruct (Date_now_spec env1) as (env2 & -> & _).
    destruct (Math_random_spec env2) as (env3 & -> & _).
    destruct (Date_now_spec env3) as (env4 & -> & _).
    intros H.
    match goal with
    | |- fst (request_promise (Add ?e2) _ _ _) = _ =>
        match type of H with
        | request_promise (Add ?e1) _ _ _ = _ =>
            rewrite (add_outcome_by_key e2 e1) by reflexivity
        end
    end.
    by rewrite H.
Qed.

Lemma C8_returned_id_is_fresh_among_stored_witness :
  exists env', saveSignature sig_A env_repeat = (Ok "sig_5_k3x9q", env') /\
               fst (saveSignature sig_B env_repeat) = Ok "sig_5_k3x9q".
Proof.
  eexists. split; [vm_compute; reflexivity|].
  refine (proj2 (proj2 (proj2 (C8_returned_id_is_fresh_among_stored env_repeat _ sig_A
                                 "sig_5_k3x9q" _))) sig_B).
  vm_compute. reflexivity.
Defined.

(** *** Order *)

Lemma save_committed signature env i env' :
  saveSignature signature env = (Ok i, env') ->
  idb_connections env' = idb_connections env ->
  records env' = store_put (next_entry signature env) (records env).
Proof.
  intros H N. apply saveSignature_spec in H as (_ & _ & [[_ S]|[N' _]]).
  - unfold records at 1. by rewrite S.
  - lia.
Qed.

(** Two records saved within the same millisecond carry the same
    timestamp; they stay in key order, the first one in front. *)
Lemma C9_same_timestamp_counterexample :
  let env1 := snd (saveSignature sig_A env_same_ms) in
  let env2 := snd (saveSignature sig_B env1) in
  fst (getAllSignatures env2)
  = Ok [next_entry sig_A env_same_ms; next_entry sig_B env1] /\
  createdAt (next_entry sig_A env_same_ms) = createdAt (next_entry sig_B env1).
Proof. vm_compute. split; reflexivity. Qed.

(** C9 (amended): [getAllSignatures] returns the stored records sorted by
    [createdAt], largest first, and the sort is stable: the records with
    one timestamp keep the order they have in the store, which is the
    order of their keys when the store was in key order before the two
    saves.  After r1 and then r2 have been saved, under different ids,
    r2 comes before r1 provided its timestamp is strictly greater; when
    the two timestamps are equal, the record with the smaller id comes
    first, whichever was saved first. *)
Theorem C9_newest_first_by_timestamp (env env1 env2 env3 : Env)
    (s1 s2 : NewSignature) (i1 i2 : string) (l : list StoredSignature) :
  saveSignature s1 env = (Ok i1, env1) ->
  idb_connections env1 = idb_connections env ->
  saveSignature s2 env1 = (Ok i2, env2) ->
  idb_connections env2 = idb_connections env1 ->
  getAllSignatures env2 = (Ok l, env3) ->
  StronglySorted (fun a b => createdAt b <= createdAt a) l /\
  l ≡ₚ records env2 /\
  (forall t, created_at t l = created_at t (records env2)) /\
  (StronglySorted key_lt (records env) ->
   forall t, StronglySorted key_lt (created_at t l)) /\
  let r1 := next_entry s1 env in
  let r2 := next_entry s2 env1 in
  r1 ∈ l /\ r2 ∈ l /\ id r1 = i1 /\ id r2 = i2 /\ i1 <> i2 /\
  (createdAt r1 < createdAt r2 -> comes_before r2 r1 l) /\
  (createdAt r1 = createdAt r2 ->
   if String.ltb i1 i2 then comes_before r1 r2 l else comes_before r2 r1 l).
Proof.
  intros H1 N1 H2 N2 H3.
  pose proof (save_committed _ _ _ _ H1 N1) as R1.
  pose proof (save_committed _ _ _ _ H2 N2) as R2.
  apply saveSignature_spec in H1 as (-> & Has1 & _).
  apply saveSignature_spec in H2 as (-> & Has2 & _).
  apply getAllSignatures_spec in H3 as (_ & -> & _).
  pose proof (array_sort_sorted createdAt (records env2)) as Hs.
  pose proof (array_sort_perm createdAt (records env2)) as Hp.
  pose proof (fun t => array_sort_stable createdAt t (records env2)) as Hst.
  assert (In1 : next_entry s1 env ∈ records env2).
  { rewrite R2, R1. apply store_put_elem. right. apply store_put_elem. by left. }
  assert (In2 : next_entry s2 env1 ∈ records env2).
  { rewrite R2. apply store_put_elem. by left. }
  assert (Hne : next_id env <> next_id env1).
  { intros E. assert (store_has (next_id env1) (records env1) = true); [|congruence].
    apply store_has_elem. exists (next_entry s1 env). split; [|exact E].
    rewrite R1. apply store_put_elem. by left. }
  split; [exact Hs|]. split; [exact Hp|]. split; [exact Hst|]. split.
  { intros Hk t. unfold created_at. rewrite Hst. apply StronglySorted_filter.
    rewrite R2. apply store_put_sorted; [|exact Has2].
    rewrite R1. by apply store_put_sorted. }
  cbv zeta. rewrite <- Hp in In1, In2.
  split; [exact In1|]. split; [exact In2|]. split; [reflexivity|].
  split; [reflexivity|]. split; [exact Hne|]. split.
  { intros Hlt. by apply (sorted_newer_first createdAt). }
  intros Heq.
  pose proof (store_put_twice_order (next_entry s1 env) (next_entry s2 env1)
                (records env) Hne) as Ho.
  rewrite <- R1, <- R2 in Ho. simpl in Ho.
  destruct (String.ltb (next_id env) (next_id env1)).
  - apply (comes_before_of_filter (fun r => createdAt r = createdAt (next_entry s1 env))).
    rewrite Hst. by apply comes_before_filter.
  - apply (comes_before_of_filter (fun r => createdAt r = createdAt (next_entry s1 env))).
    rewrite Hst. by apply comes_before_filter.
Qed.

Lemma C9_newest_first_by_timestamp_witness :
  let env1 := snd (saveSignature sig_A env_later) in
  let env2 := snd (saveSignature sig_B env1) in
  let l := array_sort (fun a b => createdAt b - createdAt a) (records env2) in
  comes_before (next_entry sig_B env1) (next_entry sig_A env_later) l /\
  created_at 21 l = [next_entry sig_B env1].
Proof.
  intros env1 env2 l.
  destruct (C9_newest_first_by_timestamp env_later env1 env2
              (snd (getAllSignatures env2)) sig_A sig_B
              "sig_10_zzzzz" "sig_20_aaaaa" l)
    as (_ & _ & Hst & _ & _ & _ & _ & _ & _ & Hlt & _);
    [vm_compute; reflexivity ..|].
  split; [apply Hlt; vm_compute; reflexivity|].
  rewrite Hst. vm_compute. reflexivity.
Defined.

End SignatureStoreProperties.

(** ** More on the file store *)

Section FileStoreMore.
Import FileSystem.

(** X1: what [saveFileToOPFS] has stored under a name is what
    [loadFileFromOPFS] returns for it: the same bytes, in a File named
    after the entry; the type is the one the platform reports for the
    name, not the type of the blob that was saved. *)
Theorem X1_save_then_load_round_trip (w w1 w2 : World) (n : string) (b : Blob) (f : File) :
  saveFileToOPFS n b w = (Ok tt, w1) ->
  loadFileFromOPFS n w1 = (Ok f, w2) ->
  file_bytes f = blob_bytes b /\ file_name f = n /\ file_type f = w_mime w n /\
  w_files w2 = w_files w1.
Proof.
  intros H1 H2.
  pose proof (save_outcome _ _ _ _ _ H1) as O1. simpl in O1.
  destruct (save_frame _ _ _ _ _ H1) as (V & _). use_view V.
  apply load_outcome in H2 as (F2 & Hb & Hn & Ht).
  rewrite O1, lookup_insert_eq in Hb. injection Hb as Hb.
  repeat split; congruence.
Qed.

Lemma X1_save_then_load_round_trip_witness :
  exists f w2,
    loadFileFromOPFS "a.pdf" (snd (saveFileToOPFS "a.pdf" blob_T session_world)) = (Ok f, w2) /\
    file_bytes f = blob_bytes blob_T /\ file_type f = "application/pdf".
Proof.
  eexists _, _. split; [vm_compute; reflexivity|].
  destruct (X1_save_then_load_round_trip session_world
              (snd (saveFileToOPFS "a.pdf" blob_T session_world))
              (snd (loadFileFromOPFS "a.pdf" (snd (saveFileToOPFS "a.pdf" blob_T session_world))))
              "a.pdf" blob_T
              {| file_name := "a.pdf"; file_type := "application/pdf";
                 file_bytes := blob_bytes blob_T |})
    as (H1 & _ & H3 & _); [vm_compute; reflexivity..|].
  split; [exact H1|exact H3].
Defined.

(** X2: saving, loading or deleting one name never changes what is
    stored under another name, whether the operation resolves or
    rejects. *)
Theorem X2_other_names_untouched (w w' : World) (n m : string) (b : Blob) :
  m <> n ->
  (forall r, saveFileToOPFS n b w = (r, w') -> w_files w' !! m = w_files w !! m) /\
  (forall r, deleteFileFromOPFS n w = (r, w') -> w_files w' !! m = w_files w !! m) /\
  (forall r, loadFileFromOPFS n w = (r, w') -> w_files w' !! m = w_files w !! m).
Proof.
  intros Hne. split; [|split]; intros r H.
  - apply save_outcome in H. destruct r as [[]|e].
    + rewrite H. by apply lookup_insert_ne.
    + destruct H as [_ [->|[_ ->]]]; [done|]. by apply lookup_insert_ne.
  - apply delete_outcome in H. destruct r as [[]|e].
    + destruct H as [_ ->]. by apply lookup_delete_ne.
    + by destruct H as [-> _].
  - apply load_outcome in H as [-> _]. done.
Qed.

Lemma X2_other_names_untouched_witness :
  "b.pdf" <> "a.pdf" /\
  w_files (snd (saveFileToOPFS "a.pdf" blob_A session_world)) !! "b.pdf"
  = w_files session_world !! "b.pdf".
Proof.
  assert (H : "b.pdf" <> "a.pdf") by discriminate.
  split; [exact H|].
  refine (proj1 (X2_other_names_untouched session_world _ "a.pdf" "b.pdf" blob_A H)
            (fst (saveFileToOPFS "a.pdf" blob_A session_world)) _).
  by destruct (saveFileToOPFS "a.pdf" blob_A session_world).
Defined.

(** X3: a load of a name that is not stored rejects; this is so for a
    name never written and for a name whose delete has resolved.  Unless
    a platform fault is injected first, the rejection is the
    NotFoundError of [getFileHandle]. *)
Theorem X3_load_of_absent_name_rejects (w w1 w2 : World) (n : string) (r : result File) :
  (w_files w !! n = None /\ w1 = w) \/ deleteFileFromOPFS n w = (Ok tt, w1) ->
  loadFileFromOPFS n w1 = (r, w2) ->
  exists e, r = Throw e /\
            (e = NotFoundError \/ Some e ∈ take 3 (w_faults w1)) /\
            w_files w2 = w_files w1.
Proof.
  intros H0 H.
  assert (L : w_files w1 !! n = None).
  { destruct H0 as [[L ->]|D]; [exact L|].
    apply delete_outcome in D as [_ ->]. apply lookup_delete_eq. }
  apply load_outcome in H as [F H]. destruct r as [f|e].
  - destruct H as [H _]. congruence.
  - exists e. split; [done|]. split; [|done]. destruct H as [H|[-> _]]; auto.
Qed.

Lemma X3_load_of_absent_name_rejects_witness :
  fst (loadFileFromOPFS EditPDFTool.SESSION_FILE_NAME
         (snd (deleteFileFromOPFS EditPDFTool.SESSION_FILE_NAME session_world)))
  = Throw NotFoundError.
Proof.
  destruct (X3_load_of_absent_name_rejects session_world
              (snd (deleteFileFromOPFS EditPDFTool.SESSION_FILE_NAME session_world))
              (snd (loadFileFromOPFS EditPDFTool.SESSION_FILE_NAME
                      (snd (deleteFileFromOPFS EditPDFTool.SESSION_FILE_NAME session_world))))
              EditPDFTool.SESSION_FILE_NAME
              (Throw NotFoundError))
    as (e & He & _); [right; vm_compute; reflexivity | vm_compute; reflexivity|].
  vm_compute. reflexivity.
Defined.

Lemma getFile_no_fault h w data :
  w_faults w = [] -> w_files w !! h = Some data ->
  getFile h w
  = (Ok {| file_name := h; file_type := w_mime w h; file_bytes := data |},
     advance (CGetFile h) w).
Proof.
  intros F L. unfold getFile, bind, gets, throw, ret.
  rewrite platform_run, (pending_fault_nil _ F). simpl. by rewrite L.
Qed.

Lemma list_handles_no_fault mt handles acc w :
  w_faults w = [] ->
  (forall h, h ∈ file_names handles -> is_Some (w_files w !! h)) ->
  exists w', list_handles mt handles acc w
             = (Ok (acc ++ map (entry_of mt w) (file_names handles)), w') /\
             w_files w' = w_files w /\ w_faults w' = [] /\ w_mime w' = w_mime w.
Proof.
  revert acc w. induction handles as [|[h|d] handles IH]; intros acc w F Hs; simpl.
  - exists w. by rewrite app_nil_r.
  - destruct (Hs h) as [data L]; [by left|].
    unfold bind. rewrite (getFile_no_fault _ _ _ F L). simpl.
    destruct (IH (acc ++ [{| name := h; size := length data;
                             lastModified := mt h; type := w_mime w h |}])
                 (advance (CGetFile h) w)) as (w' & E & Fi & Fa & Mi).
    + simpl. by rewrite F.
    + intros h' Hh'. simpl. apply Hs. by right.
    + exists w'. rewrite E. split; [|done].
      assert (entry_of mt w h
              = {| name := h; size := length data;
                   lastModified := mt h; type := w_mime w h |}) as ->.
      { unfold entry_of. f_equal.
        exact (f_equal (fun o => length (default [] o)) L). }
      by rewrite <- app_assoc.
  - by apply IH.
Qed.

(** X4: [listFilesInOPFS] reads the handles of kind 'file' that the
    iteration of the root directory yields, in the order it yields them,
    and skips the others.  When the iteration yields every stored name
    once, then without injected faults the listing has one entry for
    every stored name and none for any other name, in the order of the
    iteration; an entry's size is the number of stored bytes, its type
    and modification time are what the platform reports for the name;
    the store is left as it was. *)
Theorem X4_listing_matches_the_store (w : World) (mt : string -> Z)
    (values : list Handle) :
  w_faults w = [] ->
  NoDup (file_names values) ->
  (forall n, n ∈ file_names values <-> is_Some (w_files w !! n)) ->
  exists entries w',
    listFilesInOPFS mt values w = (Ok entries, w') /\
    w_files w' = w_files w /\
    map name entries = file_names values /\
    NoDup (map name entries) /\
    (forall n, (exists e, e ∈ entries /\ name e = n) <-> is_Some (w_files w !! n)) /\
    (forall e, e ∈ entries ->
       type e = w_mime w (name e) /\ lastModified e = mt (name e) /\
       exists data, w_files w !! name e = Some data /\ size e = length data).
Proof.
  intros F Hn Hv. unfold listFilesInOPFS, getRoot, getDirectory, bind, gets.
  rewrite platform_run, (pending_fault_nil _ F). simpl.
  destruct (list_handles_no_fault mt values [] (advance CGetDirectory w))
    as (w' & E & Fi & Fa & Mi).
  { simpl. by rewrite F. }
  { simpl. intros h Hh. by apply Hv. }
  simpl in *. rewrite E. eexists _, w'. split; [reflexivity|].
  split; [done|].
  assert (Hm : map name (map (entry_of mt (advance CGetDirectory w)) (file_names values))
               = file_names values).
  { rewrite map_map. simpl. apply map_id. }
  split; [exact Hm|]. split; [by rewrite Hm|]. split.
  - intros n. rewrite <- Hv. split.
    + intros (e & He & <-).
      by apply list_elem_of_fmap in He as (h & -> & Hh).
    + intros Hin. exists (entry_of mt (advance CGetDirectory w) n).
      split; [|reflexivity]. apply list_elem_of_fmap. by exists n.
  - intros e He. apply list_elem_of_fmap in He as (h & -> & Hh). simpl.
    split; [reflexivity|]. split; [reflexivity|].
    apply Hv in Hh as [data L]. exists data. split; [exact L|].
    exact (f_equal (fun o => length (default [] o)) L).
Qed.

Lemma X4_listing_matches_the_store_witness :
  let values := [DirectoryHandle "fonts"; FileHandle EditPDFTool.SESSION_FILE_NAME] in
  exists w', listFilesInOPFS (fun _ => 1700000000000) values session_world
             = (Ok [{| name := EditPDFTool.SESSION_FILE_NAME; size := 4;
                       lastModified := 1700000000000;
                       type := "application/pdf" |}], w').
Proof.
  intros values.
  destruct (X4_listing_matches_the_store session_world (fun _ => 1700000000000) values)
    as (entries & w' & E & _).
  - reflexivity.
  - vm_compute. repeat constructor; set_solver.
  - intros n. vm_compute file_names. rewrite list_elem_of_singleton. split.
    + intros ->. vm_compute. by eexists.
    + intros [d L]. destruct (decide (n = EditPDFTool.SESSION_FILE_NAME)) as [->|Hne];
        [done|]. unfold session_world in L. cbn [w_files] in L.
      by rewrite lookup_singleton_ne in L.
  - exists w'. pose proof E as E2. vm_compute in E2. injection E2 as <- _. exact E.
Defined.

(** X5: [storeTempPDF] names the file after the clock alone,
    'temp_edit_<Date.now()>.pdf', and returns that name once the bytes
    are stored under it.  Two calls that read the same millisecond use
    the same name: the second file replaces the first. *)
Theorem X5_temp_name_from_clock (w w1 w2 : World) (f1 f2 : Blob) (n1 n2 : string) :
  storeTempPDF f1 w = (Ok n1, w1) ->
  storeTempPDF f2 w1 = (Ok n2, w2) ->
  n1 = "temp_edit_" +:+ pretty (hd 0 (w_clock w)) +:+ ".pdf" /\
  w_files w1 !! n1 = Some (blob_bytes f1) /\
  w_clock w1 = tail (w_clock w) /\
  (hd 0 (w_clock w1) = hd 0 (w_clock w) ->
     n2 = n1 /\ w_files w2 !! n1 = Some (blob_bytes f2)).
Proof.
  unfold storeTempPDF, bind, ret. rewrite !Date_now_run.
  destruct (saveFileToOPFS _ f1 (tick w)) as [[[]|e1] w1'] eqn:E1; [|done].
  intros [= <- <-].
  destruct (saveFileToOPFS _ f2 (tick w1')) as [[[]|e2] w2'] eqn:E2; [|done].
  intros [= <- <-].
  pose proof (save_outcome _ _ _ _ _ E1) as O1. simpl in O1.
  pose proof (save_outcome _ _ _ _ _ E2) as O2. simpl in O2.
  destruct (save_frame _ _ _ _ _ E1) as (V1 & _). use_view V1. simpl in *.
  split; [reflexivity|]. split; [rewrite O1; apply lookup_insert_eq|].
  split; [congruence|]. intros Hc. rewrite Hc in *. split; [reflexivity|].
  rewrite O2. apply lookup_insert_eq.
Qed.

Lemma X5_temp_name_from_clock_witness :
  let w := set_clock [42; 42] fresh_world in
  fst (storeTempPDF blob_A w) = Ok "temp_edit_42.pdf" /\
  fst (storeTempPDF blob_B (snd (storeTempPDF blob_A w))) = Ok "temp_edit_42.pdf" /\
  w_files (snd (storeTempPDF blob_B (snd (storeTempPDF blob_A w)))) !! "temp_edit_42.pdf"
  = Some (blob_bytes blob_B).
Proof.
  intros w.
  destruct (X5_temp_name_from_clock w (snd (storeTempPDF blob_A w))
              (snd (storeTempPDF blob_B (snd (storeTempPDF blob_A w))))
              blob_A blob_B "temp_edit_42.pdf" "temp_edit_42.pdf")
    as (_ & _ & _ & H); [vm_compute; reflexivity..|].
  split; [vm_compute; reflexivity|]. split; [vm_compute; reflexivity|].
  apply H. vm_compute. reflexivity.
Defined.

(** X6: the capability probe never throws and never changes the store;
    it answers true exactly when the storage manager exists and
    [getDirectory] resolves. *)
Theorem X6_support_probe_never_throws (w : World) (has_storage : bool) :
  exists b w', isOPFSSupported has_storage w = (Ok b, w') /\
               w_files w' = w_files w /\
               (b = true <-> has_storage = true /\ pending_fault w = None).
Proof.
  unfold isOPFSSupported, getDirectory, try_catch, bind, ret.
  destruct has_storage; simpl.
  - rewrite platform_run. destruct (pending_fault w) as [e|]; simpl;
      eexists _, _; (split; [reflexivity|]); (split; [reflexivity|]);
      split; intros H; try done; by destruct H.
  - exists false, w. split; [done|]. split; [done|]. split; intros H; [done|].
    by destruct H.
Qed.

End FileStoreMore.

(** ** More on the tool views *)

Section ToolViewsMore.

Lemma no_pending_fault w e :
  pending_fault w = None -> Some e ∉ take 1 (w_faults w).
Proof.
  unfold pending_fault. destruct (w_faults w) as [|[x|] fs]; simpl; [|done|];
    intros _ H; inversion H as [|? ? ? H']; inversion H'.
Qed.

(** A settling snapshot write never throws and never touches the state
    of a view or the handoff. *)
Lemma settle_frame w r w' :
  settle w = (r, w') ->
  r = Ok tt /\ w_edit w' = w_edit w /\ w_sign w' = w_sign w /\
  w_pending w' = w_pending w /\ w_urls w' = w_urls w.
Proof.
  unfold settle, run_task. unfold_steps.
  destruct (w_tasks w) as [|[name b c|at_ name b c] ts]; simpl.
  - by intros [= <- <-].
  - match goal with
    | |- context [FileSystem.saveFileToOPFS ?n0 ?b0 ?w0] =>
        destruct (FileSystem.saveFileToOPFS n0 b0 w0) as [[[]|e] w1] eqn:E;
        destruct (save_frame _ _ _ _ _ E) as (V & _); use_view V; simpl in *
    end; intros [= <- <-]; simpl; repeat split; congruence.
  - match goal with
    | |- context [save_from ?a0 ?n0 ?b0 ?w0] =>
        destruct (save_from a0 n0 b0 w0) as [[[]|e] w1] eqn:E;
        pose proof (save_from_frame _ _ _ _ _ _ E) as V; use_view V; simpl in *
    end; intros [= <- <-]; simpl; repeat split; congruence.
Qed.

(** X7: on mount EditPDFTool takes a handoff addressed to it, once: the
    file becomes the working document, the slot is empty afterwards, the
    file store is not read, and the snapshot write is started without
    being awaited.  When that write settles, whether it succeeded or not,
    the view still shows the document. *)
Theorem X7_edit_mount_takes_its_handoff (w : World) (p : PendingFileContext.PendingFile) :
  w_pending w = Some p ->
  PendingFileContext.toolSlug p = "edit-pdf" ->
  pending_fault w = None ->
  exists w1,
    EditPDFTool.mount w = (Ok tt, w1) /\
    EditPDFTool.phase w1 = Ready (PendingFileContext.file p) /\
    edit_pdfUrl (w_edit w1) = Some (w_next_url w) /\
    w_pending w1 = None /\
    w_files w1 = w_files w /\
    w_trace w1 = w_trace w ++
      [CConsoleLog; CCreateObjectURL (file_bytes (PendingFileContext.file p))] /\
    w_tasks w1 = w_tasks w ++
      [TaskSave EditPDFTool.SESSION_FILE_NAME
                (blob_of_file (PendingFileContext.file p)) CConsoleError] /\
    forall r w2, settle w1 = (r, w2) ->
      r = Ok tt /\ EditPDFTool.phase w2 = Ready (PendingFileContext.file p) /\
      w_pending w2 = None.
Proof.
  intros Hp Hs Hf. destruct (EditPDFTool.mount w) as [r w1] eqn:E.
  destruct (edit_mount_handoff _ _ _ _ Hp Hs E) as (P1 & F1 & D1 & T1 & R).
  destruct r as [[]|e].
  - destruct R as (U1 & K1). exists w1. unfold EditPDFTool.phase. rewrite F1.
    repeat (split; [done|]). intros r w2 S2.
    apply settle_frame in S2 as (-> & Ed & _ & Pe & _).
    rewrite Ed, F1, Pe. done.
  - exfalso. by apply (no_pending_fault w e Hf).
Qed.

Lemma X7_edit_mount_takes_its_handoff_witness :
  let p := PendingFileContext.mkPending file_A "edit-pdf" "contract.pdf" in
  let w := set_pending (Some p) fresh_world in
  EditPDFTool.phase (snd (EditPDFTool.mount w)) = Ready file_A /\
  w_pending (snd (EditPDFTool.mount w)) = None.
Proof.
  intros p w.
  destruct (X7_edit_mount_takes_its_handoff w p eq_refl eq_refl eq_refl)
    as (w1 & E & Ph & _ & Pe & _).
  rewrite E. simpl. by split.
Defined.

(** X8: a handoff addressed to another tool is not taken by EditPDFTool:
    the mount leaves it in the slot and goes on to the session restore;
    a document it then shows is the restored snapshot. *)
Theorem X8_edit_mount_leaves_foreign_handoff (w w' : World)
    (p : PendingFileContext.PendingFile) (r : result unit) :
  w_pending w = Some p ->
  PendingFileContext.toolSlug p <> "edit-pdf" ->
  EditPDFTool.mount w = (r, w') ->
  r = Ok tt /\ w_pending w' = Some p /\
  (exists cs, w_trace w' = w_trace w ++ CGetDirectory :: cs) /\
  (w_files w !! EditPDFTool.SESSION_FILE_NAME = None ->
     EditPDFTool.phase w' = AwaitingUpload) /\
  forall doc, EditPDFTool.phase w' = Ready doc ->
    file_name doc = "restored_document.pdf" /\
    w_files w !! EditPDFTool.SESSION_FILE_NAME = Some (file_bytes doc).
Proof.
  intros Hp Hs E.
  destruct (edit_mount_without_handoff w r w') as (-> & P & _ & T & D);
    [by rewrite Hp, consume_miss | done |].
  split; [done|]. split; [congruence|]. split; [done|].
  unfold EditPDFTool.phase. split.
  - intros L. destruct (edit_file (w_edit w')) as [doc|]; [|done].
    destruct (D doc eq_refl) as [D1 _]. congruence.
  - intros doc. destruct (edit_file (w_edit w')) as [d|]; [|done].
    intros [= ->]. destruct (D doc eq_refl) as [D1 D2]. split; [|done].
    by rewrite D2.
Qed.

Lemma X8_edit_mount_leaves_foreign_handoff_witness :
  w_pending (snd (EditPDFTool.mount sign_handoff_world))
  = Some (PendingFileContext.mkPending file_A "sign-pdf" "contract.pdf") /\
  EditPDFTool.phase (snd (EditPDFTool.mount sign_handoff_world)) = AwaitingUpload.
Proof.
  assert (N : "sign-pdf" <> "edit-pdf") by discriminate.
  destruct (X8_edit_mount_leaves_foreign_handoff sign_handoff_world
              (snd (EditPDFTool.mount sign_handoff_world)) _
              (fst (EditPDFTool.mount sign_handoff_world)) eq_refl N)
    as (_ & H1 & _ & H2 & _).
  - by destruct (EditPDFTool.mount sign_handoff_world).
  - split; [exact H1|]. apply H2. vm_compute. reflexivity.
Defined.

End ToolViewsMore.

(** ** Uploads, clears and messages across a remount *)

Section AcrossRemount.

Lemma sign_unmount_frame w :
  exists w', SignPDFTool.unmount w = (Ok tt, w') /\
    w_files w' = w_files w /\ w_faults w' = w_faults w /\ w_tasks w' = w_tasks w /\
    w_pending w' = w_pending w /\ w_mime w' = w_mime w.
Proof.
  unfold_sign. unfold_steps. destruct (sign_blobUrl (w_sign w)); simpl; eauto 10.
Qed.

(** An upload into SignPDFTool: the snapshot write is awaited inside its
    own [try], so the view shows the file whether or not the write
    succeeded; only a rejected [createObjectURL] makes the handler
    throw. *)
Lemma sign_upload_run f fs w r w' :
  SignPDFTool.handleFilesSelected (f :: fs) w = (r, w') ->
  w_pending w' = w_pending w /\ w_tasks w' = w_tasks w /\ w_mime w' = w_mime w /\
  (exists k, w_faults w' = drop k (w_faults w)) /\
  match r with
  | Ok _ =>
      w_sign w' = mkSign (Some f) (Some (w_next_url w)) false None
                         (sign_isProcessing (w_sign w))
                         (sign_flattenSignature (w_sign w)) /\
      (w_files w' = <[SignPDFTool.SESSION_FILE_NAME := file_bytes f]> (w_files w) \/
       ((exists e, Some e ∈ w_faults w) /\
        (exists cs, w_trace w' = w_trace w ++ cs /\ CConsoleWarn ∈ cs) /\
        (w_files w' = w_files w \/
         (w_files w !! SignPDFTool.SESSION_FILE_NAME = None /\
          w_files w' = <[SignPDFTool.SESSION_FILE_NAME := []]> (w_files w)))))
  | Throw e => Some e ∈ take 1 (w_faults w) /\ w_sign w' = w_sign w /\
               w_files w' = w_files w
  end.
Proof.
  unfold_sign. unfold_steps.
  destruct (sign_blobUrl (w_sign w)) as [u|]; simpl.
  all: run_url E2; simpl.
  all: try (intros [= <- <-]; destruct E2 as (E2 & _); simpl in *;
            repeat split; try congruence; by exists 1%nat).
  all: run_save E3; destruct V as (V & K & cs & T & _); use_view V; simpl in *.
  all: run_prefs; intros [= <- <-]; simpl in *.
  all: destruct E2 as (-> & _).
  all: split; [congruence|]; split; [congruence|]; split; [congruence|].
  all: split;
    [apply (drop_drop_faults w w0); [by exists 1%nat|];
     destruct K as [k K]; exists k; simpl in *; congruence|].
  all: split; [f_equal; congruence|].
  1,3: left; congruence.
  all: right; destruct O as [O1 O2].
  all: split;
    [exists e; apply (elem_of_take_drop _ 5 1);
     match goal with H : w_faults _ = drop 1 _ |- _ => by rewrite <- H end|].
  all: split;
    [trace_cases;
     repeat match goal with
            | H : w_trace ?x = _ |- context [w_trace ?x] => rewrite H
            end;
     rewrite <- ?app_assoc; (eexists; split; [reflexivity|]);
     rewrite ?elem_of_app, ?elem_of_cons; tauto|].
  all: destruct O2 as [O2|[O2 O3]]; [left; congruence | right; split; congruence].
Qed.

#[local] Arguments EditPDFTool.handleMessage : simpl never.
#[local] Arguments EditPDFTool.handleClear : simpl never.
#[local] Arguments EditPDFTool.handleFilesSelected : simpl never.
#[local] Arguments EditPDFTool.mount : simpl never.
#[local] Arguments EditPDFTool.unmount : simpl never.
#[local] Arguments EditPDFTool.phase : simpl never.
#[local] Arguments SignPDFTool.handleMessage : simpl never.
#[local] Arguments SignPDFTool.handleClear : simpl never.
#[local] Arguments SignPDFTool.handleFilesSelected : simpl never.
#[local] Arguments SignPDFTool.mount : simpl never.
#[local] Arguments SignPDFTool.unmount : simpl never.
#[local] Arguments SignPDFTool.phase : simpl never.
#[local] Arguments settle : simpl never.

(** X9: a document uploaded into EditPDFTool is shown at once, while its
    snapshot is only being written.  Without injected faults: once that
    write has settled, an unmount followed by a mount restores the
    uploaded bytes.  A remount before that finds what the write has left
    under the reserved name by then: before the write's
    [getFileHandle] has created the entry, what was stored before the
    upload, the earlier snapshot or nothing; from then until the write
    is closed, the earlier snapshot, or an empty document when there was
    none. *)
Theorem X9_edit_upload_restored_once_write_settled (w : World) (f : File) (k : nat) :
  w_faults w = [] -> w_tasks w = [] -> w_pending w = None -> (k <= 5)%nat ->
  let doc := restored (str_or (w_mime w EditPDFTool.SESSION_FILE_NAME) "application/pdf") in
  EditPDFTool.phase (run_events edit_handler [EvFilesSelected [f]] w) = Ready f /\
  EditPDFTool.phase
    (run_events edit_handler [EvFilesSelected [f]; EvSettle; EvUnmount; EvMount] w)
  = Ready (doc (file_bytes f)) /\
  EditPDFTool.phase
    (run_events edit_handler (EvFilesSelected [f] :: awaits k ++ [EvUnmount; EvMount]) w)
  = (if decide (k = 5%nat) then Ready (doc (file_bytes f))
     else if decide (k < 2)%nat
          then phase_of (doc <$> w_files w !! EditPDFTool.SESSION_FILE_NAME)
          else Ready (doc (default [] (w_files w !! EditPDFTool.SESSION_FILE_NAME)))).
Proof.
  intros F T P Hk doc. split; [|split].
  - unfold run_events. cbn [foldl edit_handler]. apply (page_upload w (w_files w) (w_tasks w)).
    by apply page_start.
  - unfold run_events. cbn [foldl edit_handler].
    destruct (edit_upload_no_fault f [] w F) as (w1 & E1 & D1 & F1 & T1 & P1 & M1 & S1).
    rewrite E1. cbn [snd].
    destruct (settle_save_no_fault EditPDFTool.SESSION_FILE_NAME (blob_of_file f)
                CConsoleError [] w1) as (w2 & E2 & D2 & F2 & T2 & P2 & M2 & _);
      [by rewrite T1, T|done|].
    rewrite E2. cbn [snd].
    destruct (edit_unmount_frame w2) as (w3 & E3 & D3 & F3 & T3 & P3 & M3).
    rewrite E3. cbn [snd].
    rewrite (edit_mount_ready w3 (file_bytes f)).
    + unfold doc. by rewrite M3, M2, M1.
    + congruence.
    + congruence.
    + rewrite D3, D2. apply lookup_insert_eq.
  - pose proof (page_start w F) as H0. rewrite T in H0. subst doc.
    destruct (w_files w !! EditPDFTool.SESSION_FILE_NAME) as [d|] eqn:L.
    all: do 6 (destruct k as [|k];
               [cbn [awaits replicate app]; repeat page_event H0; page_end H0 P;
                repeat match goal with
                       | |- context [decide ?Q] => destruct (decide Q)
                       end; try lia; rewrite ?L, ?drop_nil, ?app_nil_r; reflexivity|]).
    all: lia.
Qed.

Lemma X9_edit_upload_restored_once_write_settled_witness :
  EditPDFTool.phase
    (run_events edit_handler [EvFilesSelected [file_A]; EvSettle; EvUnmount; EvMount]
       fresh_world)
  = Ready (restored "application/pdf" (file_bytes file_A)) /\
  EditPDFTool.phase
    (run_events edit_handler (EvFilesSelected [file_A] :: awaits 1 ++ [EvUnmount; EvMount])
       fresh_world)
  = AwaitingUpload /\
  EditPDFTool.phase
    (run_events edit_handler (EvFilesSelected [file_A] :: awaits 3 ++ [EvUnmount; EvMount])
       fresh_world)
  = Ready (restored "application/pdf" []).
Proof.
  pose proof (X9_edit_upload_restored_once_write_settled fresh_world file_A 1
                eq_refl eq_refl eq_refl ltac:(lia)) as H1.
  pose proof (X9_edit_upload_restored_once_write_settled fresh_world file_A 3
                eq_refl eq_refl eq_refl ltac:(lia)) as H3.
  cbv zeta in H1, H3.
  destruct H1 as (_ & H & H1). destruct H3 as (_ & _ & H3).
  split; [exact H|]. split; [rewrite H1 | rewrite H3]; vm_compute; reflexivity.
Defined.

(** X10: SignPDFTool awaits the snapshot write of an upload.  Without
    injected faults the snapshot holds the uploaded bytes as soon as the
    handler returns, no write is left pending, and an unmount followed by
    a mount restores those bytes as 'restored_document.pdf'. *)
Theorem X10_sign_upload_restored_after_remount (w : World) (f : File) :
  w_faults w = [] ->
  let w1 := run_events sign_handler [EvFilesSelected [f]] w in
  SignPDFTool.phase w1 = Ready f /\
  w_files w1 = <[SignPDFTool.SESSION_FILE_NAME := file_bytes f]> (w_files w) /\
  w_tasks w1 = w_tasks w /\
  SignPDFTool.phase (run_events sign_handler [EvFilesSelected [f]; EvUnmount; EvMount] w)
  = Ready (restored "application/pdf" (file_bytes f)).
Proof.
  intros F. unfold run_events. cbn [foldl sign_handler].
  destruct (SignPDFTool.handleFilesSelected [f] w) as [r w1] eqn:E1.
  apply sign_upload_run in E1 as (P1 & T1 & M1 & [k K1] & R). cbn [snd].
  rewrite F, drop_nil in K1.
  destruct r as [[]|e].
  2:{ destruct R as (R & _). rewrite F in R. by apply elem_of_nil in R. }
  destruct R as (S1 & [D1|([e R] & _)]).
  2:{ rewrite F in R. by apply elem_of_nil in R. }
  split; [unfold SignPDFTool.phase; by rewrite S1|]. split; [done|]. split; [done|].
  destruct (sign_unmount_frame w1) as (w3 & E3 & D3 & F3 & T3 & P3 & M3).
  rewrite E3. cbn [snd]. apply sign_mount_ready; [congruence|].
  rewrite D3, D1. apply lookup_insert_eq.
Qed.

Lemma X10_sign_upload_restored_after_remount_witness :
  SignPDFTool.phase
    (run_events sign_handler [EvFilesSelected [file_A]; EvUnmount; EvMount] session_world)
  = Ready (restored "application/pdf" (file_bytes file_A)).
Proof.
  exact (proj2 (proj2 (proj2
           (X10_sign_upload_restored_after_remount session_world file_A eq_refl)))).
Defined.

(** X11: an upload into SignPDFTool is shown even when its snapshot could
    not be written.  Provided [createObjectURL] resolves, the handler
    never throws, the view holds the file under the new object URL with
    the error cleared, and either the snapshot holds the uploaded bytes
    or a warning was logged and an earlier snapshot is still intact. *)
Theorem X11_sign_upload_shown_without_snapshot (w w' : World) (f : File)
    (fs : list File) (r : result unit) :
  pending_fault w = None ->
  SignPDFTool.handleFilesSelected (f :: fs) w = (r, w') ->
  r = Ok tt /\
  SignPDFTool.phase w' = Ready f /\
  sign_blobUrl (w_sign w') = Some (w_next_url w) /\
  sign_error (w_sign w') = None /\
  sign_viewerReady (w_sign w') = false /\
  w_tasks w' = w_tasks w /\
  (w_files w' !! SignPDFTool.SESSION_FILE_NAME = Some (file_bytes f) \/
   ((exists cs, w_trace w' = w_trace w ++ cs /\ CConsoleWarn ∈ cs) /\
    forall d, w_files w !! SignPDFTool.SESSION_FILE_NAME = Some d ->
              w_files w' !! SignPDFTool.SESSION_FILE_NAME = Some d)).
Proof.
  intros Hf E. apply sign_upload_run in E as (P1 & T1 & M1 & _ & R).
  destruct r as [[]|e].
  2:{ destruct R as (R & _). exfalso. by apply (no_pending_fault w e Hf). }
  destruct R as (S1 & R). split; [done|].
  unfold SignPDFTool.phase. rewrite S1. simpl. repeat (split; [done|]).
  destruct R as [D|(_ & Tr & [D|[L D]])].
  - left. rewrite D. apply lookup_insert_eq.
  - right. split; [done|]. intros d. by rewrite D.
  - right. split; [done|]. intros d. congruence.
Qed.

Lemma X11_sign_upload_shown_without_snapshot_witness :
  let w := set_faults [None; Some NotFoundError] session_world in
  SignPDFTool.phase (snd (SignPDFTool.handleFilesSelected [file_A] w)) = Ready file_A /\
  w_files (snd (SignPDFTool.handleFilesSelected [file_A] w))
    !! SignPDFTool.SESSION_FILE_NAME = None.
Proof.
  intros w.
  destruct (X11_sign_upload_shown_without_snapshot w
              (snd (SignPDFTool.handleFilesSelected [file_A] w)) file_A []
              (fst (SignPDFTool.handleFilesSelected [file_A] w)) eq_refl)
    as (_ & H & _).
  - by destruct (SignPDFTool.handleFilesSelected [file_A] w).
  - split; [exact H|]. vm_compute. reflexivity.
Defined.

(** *** Clearing *)

Lemma edit_clear_run w r w' :
  EditPDFTool.handleClear w = (r, w') ->
  r = Ok tt /\
  w_edit w' = mkEdit None None None false (edit_isFullScreen (w_edit w)) /\
  w_sign w' = w_sign w /\ w_pending w' = w_pending w /\ w_tasks w' = w_tasks w /\
  w_urls w' = match edit_pdfUrl (w_edit w) with
              | Some u => filter (fun v => v ≠ u) (w_urls w)
              | None => w_urls w
              end /\
  (w_files w' = delete EditPDFTool.SESSION_FILE_NAME (w_files w) \/
   (w_files w' = w_files w /\ exists e, Some e ∈ take 2 (w_faults w))).
Proof.
  unfold EditPDFTool.handleClear. unfold_edit. unfold_steps.
  destruct (edit_pdfUrl (w_edit w)) as [u|]; simpl.
  all: match goal with
       | |- context [FileSystem.deleteFileFromOPFS ?n0 ?w0] =>
           destruct (FileSystem.deleteFileFromOPFS n0 w0) as [[[]|e] w1] eqn:E;
           pose proof (delete_outcome _ _ _ _ E) as O;
           destruct (delete_frame _ _ _ _ E) as (V & _); use_view V; simpl in *
       end.
  all: intros [= <- <-]; simpl.
  all: split; [done|]; split; [f_equal; congruence|].
  all: split; [congruence|]; split; [congruence|]; split; [congruence|].
  all: split; [congruence|].
  all: try (left; by destruct O).
  all: destruct O as [O [O'|[_ O']]]; [right; eauto | left].
  all: by rewrite O, delete_id.
Qed.

Lemma sign_clear_run w r w' :
  SignPDFTool.handleClear w = (r, w') ->
  r = Ok tt /\
  w_sign w' = mkSign None None false None (sign_isProcessing (w_sign w))
                     (sign_flattenSignature (w_sign w)) /\
  w_edit w' = w_edit w /\ w_pending w' = w_pending w /\ w_tasks w' = w_tasks w /\
  w_mime w' = w_mime w /\
  w_urls w' = match sign_blobUrl (w_sign w) with
              | Some u => filter (fun v => v ≠ u) (w_urls w)
              | None => w_urls w
              end /\
  (exists k, w_faults w' = drop k (w_faults w)) /\
  (w_files w' = delete SignPDFTool.SESSION_FILE_NAME (w_files w) \/
   (w_files w' = w_files w /\ exists e, Some e ∈ take 3 (w_faults w))).
Proof.
  unfold SignPDFTool.handleClear. unfold_sign. unfold_steps.
  destruct (sign_blobUrl (w_sign w)) as [u|]; simpl.
  all: rewrite platform_run; simpl.
  all: match goal with
       | |- context [pending_fault ?x] =>
           destruct (pending_fault x) as [e0|] eqn:P0; simpl;
           [apply pending_fault_elem in P0; simpl in P0|]
       end.
  1,3: intros [= <- <-]; simpl; repeat (split; [done|]);
       (split; [by exists 1%nat|]); right; split; [done|]; exists e0;
       apply elem_of_take in P0 as (i & P0 & Hi);
       apply elem_of_take; exists i; split; [done|lia].
  all: match goal with
       | |- context [FileSystem.deleteFileFromOPFS ?n0 ?w0] =>
           destruct (FileSystem.deleteFileFromOPFS n0 w0) as [[[]|e] w1] eqn:E;
           pose proof (delete_outcome _ _ _ _ E) as O;
           destruct (delete_frame _ _ _ _ E) as (V & [k K]); use_view V; simpl in *
       end.
  all: intros [= <- <-]; simpl.
  all: split; [done|]; split; [f_equal; congruence|].
  all: split; [congruence|]; split; [congruence|]; split; [congruence|].
  all: split; [congruence|]; split; [congruence|].
  all: split; [exists (1 + k)%nat; rewrite K; destruct (w_faults w); simpl;
               by rewrite ?drop_nil|].
  all: try (left; by destruct O).
  all: destruct O as [O [O'|[_ O']]]; [right | left; by rewrite O, delete_id].
  all: split; [done|]; exists e.
  all: destruct (w_faults w) as [|x fs]; simpl in *;
       [by apply elem_of_nil in O' | by right].
Qed.

Lemma sign_clear_import_fails w e :
  pending_fault w = Some e ->
  exists w', SignPDFTool.handleClear w = (Ok tt, w') /\
             w_files w' = w_files w /\ w_faults w' = tail (w_faults w).
Proof.
  intros P. unfold SignPDFTool.handleClear. unfold_sign. unfold_steps.
  destruct (sign_blobUrl (w_sign w)) as [u|]; simpl.
  all: rewrite platform_run; simpl.
  all: match goal with
       | |- context [pending_fault ?x] =>
           change (pending_fault x) with (pending_fault w); rewrite P; simpl
       end.
  all: by eexists.
Qed.

(** X12: the clear handlers of both tool views never throw, whatever the
    file store does: the view is back in its empty state, the object URL
    it held is released, the handoff and the pending writes are left
    alone, and the snapshot is either deleted or, only when a platform
    call was hit by a fault, still as it was. *)
Theorem X12_clear_never_throws (w : World) :
  (exists w',
     EditPDFTool.handleClear w = (Ok tt, w') /\
     EditPDFTool.phase w' = AwaitingUpload /\
     w_edit w' = mkEdit None None None false (edit_isFullScreen (w_edit w)) /\
     (forall u, edit_pdfUrl (w_edit w) = Some u -> u ∉ w_urls w') /\
     w_pending w' = w_pending w /\ w_tasks w' = w_tasks w /\
     (w_files w' = delete EditPDFTool.SESSION_FILE_NAME (w_files w) \/
      (w_files w' = w_files w /\ exists e, Some e ∈ w_faults w))) /\
  (exists w',
     SignPDFTool.handleClear w = (Ok tt, w') /\
     SignPDFTool.phase w' = AwaitingUpload /\
     w_sign w' = mkSign None None false None (sign_isProcessing (w_sign w))
                        (sign_flattenSignature (w_sign w)) /\
     (forall u, sign_blobUrl (w_sign w) = Some u -> u ∉ w_urls w') /\
     w_pending w' = w_pending w /\ w_tasks w' = w_tasks w /\
     (w_files w' = delete SignPDFTool.SESSION_FILE_NAME (w_files w) \/
      (w_files w' = w_files w /\ exists e, Some e ∈ w_faults w))).
Proof.
  split.
  - destruct (EditPDFTool.handleClear w) as [r w'] eqn:E.
    apply edit_clear_run in E as (-> & S & _ & P & T & U & D).
    exists w'. split; [done|]. unfold EditPDFTool.phase. rewrite S. simpl.
    split; [done|]. split; [done|]. split.
    { intros u Hu. rewrite U, Hu. intros [H _]%list_elem_of_filter. done. }
    split; [done|]. split; [done|].
    destruct D as [D|[D [e He]]]; [by left|right]. split; [done|].
    exists e. by apply elem_of_take in He as (i & He & _); eapply list_elem_of_lookup_2.
  - destruct (SignPDFTool.handleClear w) as [r w'] eqn:E.
    apply sign_clear_run in E as (-> & S & _ & P & T & _ & U & _ & D).
    exists w'. split; [done|]. unfold SignPDFTool.phase. rewrite S. simpl.
    split; [done|]. split; [done|]. split.
    { intros u Hu. rewrite U, Hu. intros [H _]%list_elem_of_filter. done. }
    split; [done|]. split; [done|].
    destruct D as [D|[D [e He]]]; [by left|right]. split; [done|].
    exists e. by apply elem_of_take in He as (i & He & _); eapply list_elem_of_lookup_2.
Qed.

Lemma X12_clear_never_throws_witness :
  let w := snd (EditPDFTool.handleFilesSelected [file_A] fresh_world) in
  exists w', EditPDFTool.handleClear w = (Ok tt, w') /\ 0%nat ∉ w_urls w'.
Proof.
  intros w.
  destruct (proj1 (X12_clear_never_throws w)) as (w' & E & _ & _ & U & _).
  exists w'. split; [exact E|]. apply U. vm_compute. reflexivity.
Defined.

(** X13: clearing SignPDFTool is best effort.  Without injected faults
    the snapshot is gone and the next mount shows the uploader.  When the
    dynamic import of the storage module is the one call that fails, the
    rejection is swallowed, the snapshot stays, and the next mount
    restores the session that was just cleared. *)
Theorem X13_sign_clear_then_mount (w : World) (data : bytes) (e : JsError) :
  w_files w !! SignPDFTool.SESSION_FILE_NAME = Some data ->
  (w_faults w = [] ->
     SignPDFTool.phase (run_events sign_handler [EvClear; EvUnmount; EvMount] w)
     = AwaitingUpload) /\
  (w_faults w = [Some e] ->
     SignPDFTool.phase (run_events sign_handler [EvClear] w) = AwaitingUpload /\
     SignPDFTool.phase (run_events sign_handler [EvClear; EvUnmount; EvMount] w)
     = Ready (restored "application/pdf" data)).
Proof.
  intros L. unfold run_events. cbn [foldl sign_handler].
  destruct (SignPDFTool.handleClear w) as [r w1] eqn:E1.
  destruct (sign_clear_run _ _ _ E1) as (-> & S1 & _ & P1 & T1 & M1 & U1 & [k K1] & D1).
  cbn [snd].
  destruct (sign_unmount_frame w1) as (w3 & E3 & D3 & F3 & T3 & P3 & M3).
  rewrite E3. cbn [snd]. split; intros F.
  - apply sign_mount_awaiting. rewrite D3.
    destruct D1 as [->|[_ [e' He]]]; [apply lookup_delete_eq|].
    rewrite F in He. by apply elem_of_nil in He.
  - split; [unfold SignPDFTool.phase; by rewrite S1|].
    destruct (sign_clear_import_fails w e) as (w1' & E1' & D1' & F1');
      [unfold pending_fault; by rewrite F|].
    rewrite E1 in E1'. injection E1' as <-.
    apply sign_mount_ready; [by rewrite F3, F1', F|].
    by rewrite D3, D1'.
Qed.

Lemma X13_sign_clear_then_mount_witness :
  let w := set_files {[ SignPDFTool.SESSION_FILE_NAME := blob_bytes blob_A ]} fresh_world in
  SignPDFTool.phase (run_events sign_handler [EvClear; EvUnmount; EvMount] w)
  = AwaitingUpload /\
  SignPDFTool.phase
    (run_events sign_handler [EvClear; EvUnmount; EvMount]
       (set_faults [Some NotFoundError] w))
  = Ready (restored "application/pdf" (blob_bytes blob_A)).
Proof.
  intros w. split.
  - apply (proj1 (X13_sign_clear_then_mount w (blob_bytes blob_A) NotFoundError
                    ltac:(vm_compute; reflexivity))).
    reflexivity.
  - apply (proj2 (X13_sign_clear_then_mount (set_faults [Some NotFoundError] w)
                    (blob_bytes blob_A) NotFoundError ltac:(vm_compute; reflexivity))).
    reflexivity.
Defined.

(** *** Messages *)

(** X14: a message that is neither a session backup nor a save request,
    or that carries no blob, is dropped by both tool views: nothing is
    written, queued, logged or shown. *)
Theorem X14_unrelated_messages_are_ignored (data : MessageData) (w : World) :
  (msg_type data <> Some "PDF_SESSION_BACKUP" /\ msg_type data <> Some "PDF_SAVE_DATA")
  \/ msg_blob data = None ->
  EditPDFTool.handleMessage data w = (Ok tt, w) /\
  SignPDFTool.handleMessage data w = (Ok tt, w).
Proof.
  unfold EditPDFTool.handleMessage, SignPDFTool.handleMessage.
  intros [[H1 H2]|H].
  - by rewrite !decide_False by done.
  - rewrite H. by repeat destruct (decide _).
Qed.

Lemma X14_unrelated_messages_are_ignored_witness :
  EditPDFTool.handleMessage (mkMessage (Some "TRIGGER_SAVE") (Some blob_A) None) session_world
  = (Ok tt, session_world) /\
  SignPDFTool.handleMessage (mkMessage (Some "PDF_SAVE_DATA") None (Some "a.pdf")) session_world
  = (Ok tt, session_world).
Proof.
  split.
  - refine (proj1 (X14_unrelated_messages_are_ignored _ session_world (or_introl _))).
    split; discriminate.
  - refine (proj2 (X14_unrelated_messages_are_ignored _ session_world (or_intror _))).
    reflexivity.
Defined.

(** The oldest pending write settles: the promise machinery never
    throws; the write either replaces the entry, or it failed on an
    injected fault, its [.catch] handler logged once, and an entry that
    existed before still has its bytes. *)
Lemma settle_task_run name b c ts w r w' :
  w_tasks w = TaskSave name b c :: ts ->
  settle w = (r, w') ->
  r = Ok tt /\ w_tasks w' = ts /\ w_edit w' = w_edit w /\ w_sign w' = w_sign w /\
  w_pending w' = w_pending w /\ w_urls w' = w_urls w /\
  ((w_files w' = <[name := blob_bytes b]> (w_files w) /\
    w_trace w' = w_trace w ++ save_calls name (blob_bytes b))
   \/
   ((exists e, Some e ∈ w_faults w) /\
    (exists cs, w_trace w' = w_trace w ++ cs ++ [c] /\
                cs `prefix_of` save_calls name (blob_bytes b)) /\
    forall d, w_files w !! name = Some d -> w_files w' = w_files w)).
Proof.
  intros T. unfold settle, run_task. unfold_steps. rewrite T. simpl.
  match goal with
  | |- context [FileSystem.saveFileToOPFS ?n0 ?b0 ?w0] =>
      destruct (FileSystem.saveFileToOPFS n0 b0 w0) as [[[]|e] w1] eqn:E;
      pose proof (save_outcome _ _ _ _ _ E) as O;
      destruct (save_frame _ _ _ _ _ E) as (V & _ & cs & Tr & Pre & C);
      use_view V; simpl in *
  end; intros [= <- <-]; simpl.
  all: repeat (split; [congruence|]).
  - left. split; [done|]. by rewrite Tr, C.
  - right. destruct O as [O1 O2]. split.
    { exists e. apply elem_of_take in O1 as (i & O1 & _).
      by eapply list_elem_of_lookup_2. }
    split.
    { exists cs. split; [|done]. by rewrite Tr, <- app_assoc. }
    intros d L. destruct O2 as [O2|[O2 _]]; congruence.
Qed.

(** X15: a session backup is written behind the view's back.  The
    handler of either view ([tool] picks EditPDFTool or SignPDFTool) only
    queues the write; when it settles nothing is thrown and no state of
    the view changes; when it fails, the failure goes to [console.warn]
    alone and a snapshot stored earlier is still intact. *)
Theorem X15_failed_backup_is_only_logged (w w' : World) (b : Blob) (r : result unit)
    (tool : bool) :
  w_tasks w = [] ->
  let handler := if tool then EditPDFTool.handleMessage else SignPDFTool.handleMessage in
  let session := if tool then EditPDFTool.SESSION_FILE_NAME
                 else SignPDFTool.SESSION_FILE_NAME in
  settle (snd (handler (backup_message b) w)) = (r, w') ->
  fst (handler (backup_message b) w) = Ok tt /\
  r = Ok tt /\ w_edit w' = w_edit w /\ w_sign w' = w_sign w /\
  w_pending w' = w_pending w /\ w_tasks w' = [] /\
  (w_files w' = <[session := blob_bytes b]> (w_files w) \/
   ((exists cs, w_trace w' = w_trace w ++ cs ++ [CConsoleWarn] /\
                cs `prefix_of` save_calls session (blob_bytes b)) /\
    forall d, w_files w !! session = Some d -> w_files w' = w_files w)).
Proof.
  intros T handler session.
  assert (H : handler (backup_message b) w
              = (Ok tt, set_tasks (w_tasks w ++ [TaskSave session b CConsoleWarn]) w))
    by (destruct tool; reflexivity).
  rewrite H. cbn [fst snd]. intros S.
  apply (settle_task_run session b CConsoleWarn []) in S; [|simpl; by rewrite T].
  simpl in S. destruct S as (-> & T' & Ed & Sg & P & _ & R).
  repeat (split; [done|]).
  destruct R as [[R _]|(_ & R1 & R2)]; [by left | by right].
Qed.

Lemma X15_failed_backup_is_only_logged_witness :
  let w := set_faults [Some NotFoundError] session_world in
  let w' := snd (settle (snd (EditPDFTool.handleMessage (backup_message blob_B) w))) in
  w_edit w' = w_edit w /\
  w_files w' !! EditPDFTool.SESSION_FILE_NAME = Some (blob_bytes blob_A).
Proof.
  intros w w'.
  destruct (X15_failed_backup_is_only_logged w w' blob_B
              (fst (settle (snd (EditPDFTool.handleMessage (backup_message blob_B) w))))
              true eq_refl)
    as (_ & _ & H & _).
  - subst w'. by destruct (settle _).
  - split; [exact H|]. vm_compute. reflexivity.
Defined.

End AcrossRemount.

(** ** More on the signature store *)

Section SignatureStoreMore.
Import SignatureStore.

Ltac open_env env :=
  destruct env as [supported store conns faults clock random].

Ltac unfold_store :=
  unfold saveSignature, getAllSignatures, deleteSignature, openDB, request_promise,
    transact, next_fault, db_close, Date_now, Math_random_base36, set_store;
  unfold bind, modify, ret, throw.

(** X16: without IndexedDB every function of the store rejects with
    'IndexedDB not supported' before it does anything else: no
    connection is opened, the clock and the random source are not read,
    and nothing is stored. *)
Theorem X16_unsupported_indexeddb_rejects (env : Env) (signature : NewSignature)
    (k : string) :
  idb_supported env = false ->
  saveSignature signature env = (Throw (Error "IndexedDB not supported"), env) /\
  getAllSignatures env = (Throw (Error "IndexedDB not supported"), env) /\
  deleteSignature k env = (Throw (Error "IndexedDB not supported"), env).
Proof.
  intros H. unfold saveSignature, getAllSignatures, deleteSignature, openDB, bind.
  by rewrite H.
Qed.

Lemma X16_unsupported_indexeddb_rejects_witness :
  let env := mkEnv false None 0 [] [3; 4] ["0.abcdefg"] in
  saveSignature sig_A env = (Throw (Error "IndexedDB not supported"), env).
Proof.
  intros env.
  exact (proj1 (X16_unsupported_indexeddb_rejects env sig_A "sig_3_abcde" eq_refl)).
Defined.

Lemma store_put_perm e s : store_put e s ≡ₚ e :: s.
Proof.
  induction s as [|x s IH]; simpl; [done|].
  destruct (String.ltb (id e) (id x)); [done|].
  rewrite IH. apply Permutation_swap.
Qed.

Lemma store_has_false k s : store_has k s = false <-> forall x, x ∈ s -> id x <> k.
Proof.
  split.
  - intros H x Hx E. assert (store_has k s = true) by (apply store_has_elem; eauto).
    congruence.
  - intros H. destruct (store_has k s) eqn:Has; [|done].
    apply store_has_elem in Has as (x & Hx & E). by destruct (H x Hx).
Qed.

Lemma filter_none {A} (P : A -> Prop) `{!forall x, Decision (P x)} (l : list A) :
  (forall x, x ∈ l -> ~ P x) -> filter P l = [].
Proof.
  induction l as [|y l IH]; intros Hl; [done|].
  rewrite filter_cons_False by (apply Hl; by left).
  apply IH. intros x Hx. apply Hl. by right.
Qed.

Lemma filter_all {A} (P : A -> Prop) `{!forall x, Decision (P x)} (l : list A) :
  (forall x, x ∈ l -> P x) -> filter P l = l.
Proof.
  induction l as [|y l IH]; intros Hl; [done|].
  rewrite filter_cons_True by (apply Hl; by left).
  f_equal. apply IH. intros x Hx. apply Hl. by right.
Qed.

(** X17: [saveSignature] resolves when the request succeeds, not when
    the transaction completes.  If the transaction completed (the
    connection was closed), the next [getAllSignatures] lists exactly one
    record under the returned id, with the payload as given and the
    second clock reading as its timestamp, next to the records that were
    there.  If it aborted, the id was returned but no record is stored
    under it. *)
Theorem X17_saved_signature_is_listed_once (env env1 env2 : Env)
    (signature : NewSignature) (i : string) (l : list StoredSignature) :
  saveSignature signature env = (Ok i, env1) ->
  getAllSignatures env1 = (Ok l, env2) ->
  (idb_connections env1 = idb_connections env ->
     filter (fun x => id x = i) l = [next_entry signature env] /\
     l ≡ₚ next_entry signature env :: records env) /\
  (idb_connections env1 <> idb_connections env ->
     l ≡ₚ records env /\ forall x, x ∈ l -> id x <> i).
Proof.
  intros H1 H2.
  apply saveSignature_spec in H1 as (-> & Has & R).
  apply getAllSignatures_spec in H2 as (_ & -> & _).
  pose proof (array_sort_perm createdAt (records env1)) as Hp.
  rewrite store_has_false in Has.
  split; intros N.
  - destruct R as [[_ S]|[N' _]]; [|lia].
    assert (P : records env1 ≡ₚ next_entry signature env :: records env).
    { unfold records at 1. rewrite S. apply store_put_perm. }
    split; [|by rewrite Hp].
    apply Permutation_singleton_r.
    rewrite Hp, P, filter_cons_True by done.
    by rewrite (filter_none _ (records env)).
  - destruct R as [[N' _]|[_ S]]; [lia|].
    rewrite Hp, S. split; [done|]. intros x Hx. rewrite <- S, Hp, S in Hx. by apply Has.
Qed.

Lemma X17_saved_signature_is_listed_once_witness :
  let env1 := snd (saveSignature sig_A env_later) in
  fst (getAllSignatures env1) = Ok [next_entry sig_A env_later] /\
  data (next_entry sig_A env_later) = new_data sig_A /\
  createdAt (next_entry sig_A env_later) = 11.
Proof.
  intros env1.
  destruct (X17_saved_signature_is_listed_once env_later env1
              (snd (getAllSignatures env1)) sig_A "sig_10_zzzzz"
              [next_entry sig_A env_later]) as [H _];
    [vm_compute; reflexivity..|].
  destruct H as [H _]; [vm_compute; reflexivity|].
  split; [|split; reflexivity]. vm_compute. reflexivity.
Defined.

(** Without injected faults the three functions run to the end of their
    transaction. *)
Lemma no_fault_run env :
  idb_supported env = true -> idb_faults env = [] ->
  (forall k, exists env',
     deleteSignature k env = (Ok tt, env') /\
     records env' = store_remove k (records env) /\
     idb_connections env' = idb_connections env /\
     idb_supported env' = true /\ idb_faults env' = []) /\
  (exists env',
     getAllSignatures env
     = (Ok (array_sort (fun a b => createdAt b - createdAt a) (records env)), env') /\
     records env' = records env /\
     idb_connections env' = idb_connections env /\
     idb_supported env' = true /\ idb_faults env' = []).
Proof.
  open_env env. simpl. intros -> ->. unfold_store. unfold records. simpl.
  split; [intros k|]; eexists; (split; [reflexivity|]); simpl; done.
Qed.

(** X18: without injected faults [deleteSignature] behaves as the
    removal of a key: it resolves whether or not a record has the id,
    removes every record with that id and no other, closes the
    connection it opened, and a second delete of the same id changes
    nothing. *)
Theorem X18_delete_removes_the_key_only (env : Env) (k : string) :
  idb_supported env = true -> idb_faults env = [] ->
  exists env1 env2,
    deleteSignature k env = (Ok tt, env1) /\
    (forall x, x ∈ records env1 <-> x ∈ records env /\ id x <> k) /\
    ((forall x, x ∈ records env -> id x <> k) -> records env1 = records env) /\
    idb_connections env1 = idb_connections env /\
    deleteSignature k env1 = (Ok tt, env2) /\
    records env2 = records env1.
Proof.
  intros Hs Hf.
  destruct (proj1 (no_fault_run env Hs Hf) k) as (env1 & E1 & R1 & N1 & S1 & F1).
  destruct (proj1 (no_fault_run env1 S1 F1) k) as (env2 & E2 & R2 & N2 & _).
  exists env1, env2. split; [done|]. split.
  { intros x. rewrite R1. unfold store_remove. rewrite list_elem_of_filter. tauto. }
  split.
  { intros H. rewrite R1. unfold store_remove. by apply filter_all. }
  split; [done|]. split; [done|].
  rewrite R2, R1. unfold store_remove.
  apply list_filter_filter_l. tauto.
Qed.

Lemma X18_delete_removes_the_key_only_witness :
  let env := snd (saveSignature sig_B (snd (saveSignature sig_A env_later))) in
  map id (records (snd (deleteSignature "sig_10_zzzzz" env))) = ["sig_20_aaaaa"] /\
  fst (deleteSignature "never_saved" env) = Ok tt.
Proof.
  intros env.
  destruct (X18_delete_removes_the_key_only env "never_saved" eq_refl eq_refl)
    as (env1 & _ & E & _).
  split; [vm_compute; reflexivity|]. by rewrite E.
Defined.

(** X19: the ids of the stored records stay pairwise distinct: whatever
    a call to one of the three functions does, resolving or rejecting,
    it leaves no two records with the same id, and [getAllSignatures]
    never returns the same id twice. *)
Theorem X19_ids_stay_unique (env env' : Env) :
  NoDup (map id (records env)) ->
  (forall signature r, saveSignature signature env = (r, env') ->
                       NoDup (map id (records env'))) /\
  (forall k r, deleteSignature k env = (r, env') -> NoDup (map id (records env'))) /\
  (forall r, getAllSignatures env = (r, env') ->
             NoDup (map id (records env')) /\
             forall l, r = Ok l -> NoDup (map id l)).
Proof.
  intros Hn. split; [|split].
  - intros signature r H. apply saveSignature_spec in H.
    destruct r as [i|e].
    + destruct H as (-> & Has & [[_ S]|[_ S]]); [|by rewrite S].
      unfold records at 1. rewrite S. simpl.
      rewrite (fmap_Permutation id _ _ (store_put_perm _ _)). simpl.
      constructor; [|done].
      rewrite store_has_false in Has.
      intros (x & Hx1 & Hx2)%list_elem_of_fmap. by apply (Has x).
    + destruct H as [-> _]. done.
  - intros k r H. apply deleteSignature_spec in H.
    destruct r as [[]|e].
    + destruct H as [[_ ->]|[_ ->]]; [|done].
      unfold store_remove. revert Hn.
      generalize (records env). intros s Hs. eapply sublist_NoDup; [exact Hs|].
      apply (fmap_sublist id), sublist_filter.
    + destruct H as [-> _]. done.
  - intros r H. apply getAllSignatures_spec in H as (-> & H).
    split; [done|]. intros l ->. destruct H as (-> & _).
    by rewrite (fmap_Permutation id _ _ (array_sort_perm createdAt (records env))).
Qed.

Lemma X19_ids_stay_unique_witness :
  NoDup (map id (records (snd (saveSignature sig_B (snd (saveSignature sig_A env_repeat)))))).
Proof.
  refine (proj1 (X19_ids_stay_unique (snd (saveSignature sig_A env_repeat)) _ _) sig_B
            (fst (saveSignature sig_B (snd (saveSignature sig_A env_repeat)))) _).
  - vm_compute. apply NoDup_singleton.
  - by destruct (saveSignature sig_B _).
Defined.

End SignatureStoreMore.

(** ** The recent files dropdown *)

Section RecentFiles.
Import RecentFilesDropdown.

#[local] Arguments EditPDFTool.mount : simpl never.
#[local] Arguments EditPDFTool.phase : simpl never.

Lemma click_run locale file w r w' :
  handleFileClick locale file w = (r, w') ->
  r = Ok (closed, tool_route locale (toolUsed file)) /\
  w_files w' = w_files w /\ w_edit w' = w_edit w /\ w_sign w' = w_sign w /\
  w_tasks w' = w_tasks w /\ w_mime w' = w_mime w /\
  (exists k, w_faults w' = drop k (w_faults w)) /\
  ((w_pending w' = w_pending w /\
    forall path data, storagePath file = Some path -> path <> "" ->
      w_files w !! path = Some data -> exists e, Some e ∈ w_faults w)
   \/
   exists path data,
     storagePath file = Some path /\ path <> "" /\ w_files w !! path = Some data /\
     w_pending w' = Some (handed_off file (w_mime w path) data)).
Proof.
  unfold handleFileClick. unfold_steps.
  destruct (storagePath file) as [path|] eqn:Sp; simpl.
  2:{ intros [= <- <-]. simpl. repeat (split; [done|]). split; [by exists 0%nat|].
      left. split; [done|]. intros; discriminate. }
  destruct (decide (path = "")) as [->|Hp]; simpl.
  { intros [= <- <-]. simpl. repeat (split; [done|]). split; [by exists 0%nat|].
    left. split; [done|]. intros path data [= <-]. done. }
  match goal with
  | |- context [FileSystem.loadFileFromOPFS ?n0 ?w0] =>
      destruct (FileSystem.loadFileFromOPFS n0 w0) as [[blob|e] w1] eqn:E;
      pose proof (load_outcome _ _ _ _ E) as [F O];
      destruct (load_frame _ _ _ _ E) as (V & K & _); use_view V; simpl in *
  end; intros [= <- <-]; simpl.
  - repeat (split; [congruence|]). right.
    destruct O as (O1 & O2 & O3). exists path, (file_bytes blob).
    repeat (split; [done|]). unfold handed_off. by rewrite O3.
  - repeat (split; [congruence|]). left. split; [congruence|].
    intros path' data [= <-] _ L. destruct O as [O|[_ O]]; [|congruence].
    exists e. apply elem_of_take in O as (i & O & _). by eapply list_elem_of_lookup_2.
Qed.

(** X20: a click on a recent file always ends on the route of the tool
    that made the file, with the dropdown closed, whether or not the file
    could be loaded; it never throws, writes nothing and touches no tool
    view.  The handoff slot is set only when the entry names a stored
    file, and then to that file's bytes under the entry's name; a
    missing path, an empty path or a failed load leave the slot as it
    was. *)
Theorem X20_recent_file_click_always_navigates (locale : string) (file : RecentFile)
    (w w' : World) (r : result (State * string)) :
  handleFileClick locale file w = (r, w') ->
  r = Ok (closed, tool_route locale (toolUsed file)) /\
  w_files w' = w_files w /\ w_edit w' = w_edit w /\ w_sign w' = w_sign w /\
  w_tasks w' = w_tasks w /\
  (w_pending w' = w_pending w \/
   exists path data,
     storagePath file = Some path /\ path <> "" /\ w_files w !! path = Some data /\
     w_pending w' = Some (handed_off file (w_mime w path) data)) /\
  ((storagePath file = None \/ storagePath file = Some "" \/
    exists path, storagePath file = Some path /\ w_files w !! path = None) ->
   w_pending w' = w_pending w).
Proof.
  intros H. apply click_run in H as (-> & F & Ed & Sg & T & _ & _ & P).
  repeat (split; [done|]). split.
  - destruct P as [[P _]|P]; [by left | by right].
  - intros Hs. destruct P as [[P _]|(path & data & Sp & Hp & L & _)]; [done|].
    destruct Hs as [Hs|[Hs|(path' & Hs & L')]]; congruence.
Qed.

Lemma X20_recent_file_click_always_navigates_witness :
  let file := mkRecent "r1" "scan.pdf" 4 1700000000000 "merge-pdf" None
                       (Some "gone.pdf") in
  let out := handleFileClick "de" file session_world in
  fst out = Ok (closed, "/de/tools/merge-pdf") /\ w_pending (snd out) = None.
Proof.
  intros file out.
  destruct (X20_recent_file_click_always_navigates "de" file session_world (snd out) (fst out))
    as (H1 & _ & _ & _ & _ & _ & H2);
    [subst out; by destruct (handleFileClick _ _ _)|].
  split; [exact H1|]. apply H2. right. right. exists "gone.pdf".
  split; [reflexivity | vm_compute; reflexivity].
Defined.

(** X21: from the dropdown into the editor.  Without injected faults, a
    click on an entry made by 'edit-pdf' whose path is stored, followed by
    the mount of EditPDFTool on the route that was pushed, shows the
    stored bytes under the entry's name, typed as the platform reports
    the file, and leaves the handoff slot empty. *)
Theorem X21_recent_file_opens_in_the_editor (locale : string) (file : RecentFile)
    (w : World) (path : string) (data : bytes) :
  storagePath file = Some path -> path <> "" -> toolUsed file = "edit-pdf" ->
  w_files w !! path = Some data -> w_faults w = [] ->
  let clicked := handleFileClick locale file w in
  let mounted := snd (EditPDFTool.mount (snd clicked)) in
  fst clicked = Ok (closed, "/" +:+ locale +:+ "/tools/edit-pdf") /\
  EditPDFTool.phase mounted
  = Ready (mkFile (name file) (str_or (w_mime w path) "application/pdf") data) /\
  w_pending mounted = None /\
  w_files mounted = w_files w.
Proof.
  intros Sp Hp Ht L F clicked mounted. subst clicked mounted.
  destruct (handleFileClick locale file w) as [r w1] eqn:E1.
  apply click_run in E1 as (-> & F1 & _ & _ & _ & _ & [k K] & P). cbn [fst snd].
  split; [unfold tool_route; by rewrite Ht|].
  destruct P as [[_ P]|(path' & data' & Sp' & _ & L' & P)].
  { destruct (P path data Sp Hp L) as [e He]. rewrite F in He.
    by apply elem_of_nil in He. }
  assert (path' = path) as -> by congruence.
  assert (data' = data) as -> by congruence.
  destruct (EditPDFTool.mount w1) as [r w2] eqn:E2.
  destruct (edit_mount_handoff _ _ _ _ P Ht E2) as (P2 & F2 & D2 & _). cbn [snd].
  unfold EditPDFTool.phase. rewrite F2. simpl.
  split; [done|]. split; [done|]. congruence.
Qed.

Lemma X21_recent_file_opens_in_the_editor_witness :
  let file := mkRecent "r2" "thesis.pdf" 4 1700000000000 "edit-pdf" (Some "Edit PDF")
                       (Some "current_edit_session.pdf") in
  EditPDFTool.phase (snd (EditPDFTool.mount (snd (handleFileClick "en" file session_world))))
  = Ready (mkFile "thesis.pdf" "application/pdf" (blob_bytes blob_A)).
Proof.
  intros file.
  assert (N : "current_edit_session.pdf" <> "") by discriminate.
  destruct (X21_recent_file_opens_in_the_editor "en" file session_world
              "current_edit_session.pdf" (blob_bytes blob_A) eq_refl N eq_refl)
    as (_ & H & _); [vm_compute; reflexivity | reflexivity |].
  exact H.
Defined.

(** X22: keyboard navigation stays on the list.  With at least one
    recent file and the focus on an item, ArrowDown and ArrowUp move the
    focus by one and wrap around at the ends, so they undo each other;
    Home and End go to the first and the last item; none of them closes
    the dropdown and all of them suppress the default action.  Escape
    and Tab close the dropdown and drop the focus; only Escape suppresses
    the default action. *)
Theorem X22_item_keys_keep_the_focus_in_range (length : Z) (st : State) :
  0 < length -> 0 <= focusedIndex st < length ->
  let press key := handleItemKeyDown key length st in
  focusedIndex (fst (press ArrowDown)) = (focusedIndex st + 1) mod length /\
  focusedIndex (fst (press ArrowUp)) = (focusedIndex st - 1) mod length /\
  fst (handleItemKeyDown ArrowUp length (fst (press ArrowDown))) = st /\
  fst (handleItemKeyDown ArrowDown length (fst (press ArrowUp))) = st /\
  focusedIndex (fst (press Home)) = 0 /\
  focusedIndex (fst (press End_)) = length - 1 /\
  (forall key, key ∈ [ArrowDown; ArrowUp; Home; End_] ->
     0 <= focusedIndex (fst (press key)) < length /\
     isOpen (fst (press key)) = isOpen st /\ snd (press key) = true) /\
  (forall key, key ∈ [Escape; Tab] ->
     isOpen (fst (press key)) = false /\ focusedIndex (fst (press key)) = -1) /\
  snd (press Escape) = true /\ snd (press Tab) = false /\
  fst (press Other) = st /\ snd (press Other) = false.
Proof.
  destruct st as [o i l]. simpl. intros Hl Hi.
  assert (D : (if i <? length - 1 then i + 1 else 0) = (i + 1) mod length).
  { destruct (Z.ltb_spec i (length - 1)).
    - by rewrite Z.mod_small by lia.
    - replace (i + 1) with length by lia. by rewrite Z_mod_same_full. }
  assert (U : (if 0 <? i then i - 1 else length - 1) = (i - 1) mod length).
  { destruct (Z.ltb_spec 0 i).
    - by rewrite Z.mod_small by lia.
    - replace (i - 1) with (-1) by lia.
      apply (Z.mod_unique _ _ (-1)); lia. }
  split; [exact D|]. split; [exact U|]. split.
  { f_equal. destruct (Z.ltb_spec i (length - 1)).
    - destruct (Z.ltb_spec 0 (i + 1)); lia.
    - destruct (Z.ltb_spec 0 0); lia. }
  split.
  { f_equal. destruct (Z.ltb_spec 0 i).
    - destruct (Z.ltb_spec (i - 1) (length - 1)); lia.
    - destruct (Z.ltb_spec (length - 1) (length - 1)); lia. }
  split; [done|]. split; [done|]. split; [|split; [|done]].
  - intros key Hk. repeat (apply elem_of_cons in Hk as [->|Hk]); simpl.
    + rewrite D. split; [|done]. by apply Z.mod_pos_bound.
    + rewrite U. split; [|done]. by apply Z.mod_pos_bound.
    + split; [lia|done].
    + split; [lia|done].
    + by apply elem_of_nil in Hk.
  - intros key Hk. repeat (apply elem_of_cons in Hk as [->|Hk]); simpl; [done..|].
    by apply elem_of_nil in Hk.
Qed.

Lemma X22_item_keys_keep_the_focus_in_range_witness :
  focusedIndex (fst (handleItemKeyDown ArrowDown 3 (mkState true 2 None))) = 0 /\
  focusedIndex (fst (handleItemKeyDown ArrowUp 3 (mkState true 0 None))) = 2.
Proof.
  split.
  - rewrite (proj1 (X22_item_keys_keep_the_focus_in_range 3 (mkState true 2 None)
                      ltac:(lia) ltac:(simpl; lia))).
    reflexivity.
  - rewrite (proj1 (proj2 (X22_item_keys_keep_the_focus_in_range 3 (mkState true 0 None)
                             ltac:(lia) ltac:(simpl; lia)))).
    reflexivity.
Defined.

(** X23: the button.  ArrowDown on it opens the dropdown and, when there
    is a recent file, puts the focus on the first one; every other key is
    left alone.  A click toggles the dropdown: it opens with the focus on
    the first item, or on none when the list is empty, and closes with
    the focus dropped, so two clicks give back the open state with no
    focus left behind. *)
Theorem X23_button_opens_on_the_first_item (length : Z) (st : State) (key : Key) :
  let down := handleButtonKeyDown ArrowDown length st in
  let clicked := handleButtonClick length st in
  isOpen (fst down) = true /\ snd down = true /\
  (0 < length -> focusedIndex (fst down) = 0) /\
  (length <= 0 -> focusedIndex (fst down) = focusedIndex st) /\
  (key <> ArrowDown -> handleButtonKeyDown key length st = (st, false)) /\
  isOpen clicked = negb (isOpen st) /\
  (isOpen st = false -> 0 < length -> focusedIndex clicked = 0) /\
  (isOpen st = true \/ length <= 0 -> focusedIndex clicked = -1) /\
  isOpen (handleButtonClick length clicked) = isOpen st /\
  (isOpen st = true -> 0 < length ->
     focusedIndex (handleButtonClick length clicked) = 0).
Proof.
  destruct st as [o i l]. simpl. split; [done|]. split; [done|]. split.
  { intros H. destruct (Z.ltb_spec 0 length); [done|lia]. }
  split.
  { intros H. destruct (Z.ltb_spec 0 length); [lia|done]. }
  split.
  { intros H. by destruct key. }
  split; [done|]. split.
  { intros -> H. simpl. destruct (Z.ltb_spec 0 length); [done|lia]. }
  split.
  { intros [->|H]; simpl; [done|]. destruct o; simpl; [done|].
    destruct (Z.ltb_spec 0 length); [lia|done]. }
  split; [by destruct o|]. intros -> H. simpl.
  destruct (Z.ltb_spec 0 length); [done|lia].
Qed.

Lemma X23_button_opens_on_the_first_item_witness :
  focusedIndex (fst (handleButtonKeyDown ArrowDown 2 closed)) = 0 /\
  focusedIndex (handleButtonClick 0 closed) = -1.
Proof.
  destruct (X23_button_opens_on_the_first_item 2 closed Tab) as (_ & _ & H & _).
  destruct (X23_button_opens_on_the_first_item 0 closed Tab)
    as (_ & _ & _ & _ & _ & _ & _ & H' & _).
  split; [apply H; lia | apply H'; right; lia].
Defined.

End RecentFiles.

(** ** The toolbar injection *)

Section Injection.
Import EditPDFToolInjection.

Lemma hide_save_buttons_elem k buttons p :
  p ∈ hide_save_buttons k buttons <->
  exists i text, p = HideCustomButton (k + i) /\ buttons !! i = Some text /\
                 is_save_label text = true.
Proof.
  revert k. induction buttons as [|b buttons IH]; intros k; simpl.
  - split; [by intros ?%elem_of_nil | by intros (i & text & _ & ? & _)].
  - rewrite elem_of_app, IH. split.
    + intros [H|(i & text & -> & L & Hs)].
      * destruct (is_save_label b) eqn:Hs; [|by apply elem_of_nil in H].
        apply list_elem_of_singleton in H as ->.
        exists 0%nat, b. by rewrite Nat.add_0_r.
      * exists (S i), text. split; [f_equal; lia|done].
    + intros ([|i] & text & -> & L & Hs); simpl in L.
      * injection L as ->. left. rewrite Hs, Nat.add_0_r. by left.
      * right. exists i, text. split; [f_equal; lia|done].
Qed.

(** What one attempt patches: never a retry; the toggle at most once, as
    the last patch of an attempt that returns, on a document that has
    the right-hand toolbar and no toggle yet. *)
Lemma attempt_no_retry obs p : p ∈ fst (attempt obs) -> is_retry p = false.
Proof.
  destruct p; try done. intros H. exfalso. revert H.
  destruct obs as [|doc|]; simpl.
  - by intros ?%elem_of_nil.
  - assert (N : Retry attempts ∉ match customToolbar doc with
                                 | Some buttons => hide_save_buttons 0 buttons
                                 | None => []
                                 end).
    { destruct (customToolbar doc);
        [by intros (i & text & [=] & _)%hide_save_buttons_elem
        |by intros ?%elem_of_nil]. }
    revert N.
    generalize (match customToolbar doc with
                | Some buttons => hide_save_buttons 0 buttons
                | None => []
                end).
    intros hidden N.
    destruct (download doc), (secondaryDownload doc),
      (toolbarViewerRight doc), (injected_fullscreen_toggle doc); simpl;
      rewrite ?elem_of_cons, ?elem_of_app, ?elem_of_cons, ?elem_of_nil;
      intuition discriminate.
  - intros [=]%list_elem_of_singleton.
Qed.

Lemma retries_app l1 l2 : retries (l1 ++ l2) = (retries l1 + retries l2)%nat.
Proof. unfold retries. by rewrite filter_app, length_app. Qed.

Lemma retries_none l : (forall p, p ∈ l -> is_retry p = false) -> retries l = 0%nat.
Proof.
  intros H. unfold retries. rewrite filter_none; [done|].
  intros p Hp. rewrite (H p Hp). done.
Qed.

Lemma attempt_retries obs : retries (fst (attempt obs)) = 0%nat.
Proof. apply retries_none, attempt_no_retry. Qed.

Lemma within_retries budget a frame :
  (retries (injectLink_within budget a frame) <= budget)%nat.
Proof.
  revert a. induction budget as [|budget IH]; intros a; simpl; [done|].
  pose proof (attempt_retries (frame a)) as R.
  destruct (attempt (frame a)) as [ps [|]]; simpl in R; [lia|].
  rewrite retries_app, R. unfold retries at 1.
  rewrite filter_cons_True by done. simpl.
  specialize (IH (S a)). unfold retries in IH. lia.
Qed.

Lemma within_retry_range budget a frame k :
  Retry k ∈ injectLink_within budget a frame -> (a < k <= a + budget)%nat.
Proof.
  revert a. induction budget as [|budget IH]; intros a; simpl.
  { by intros ?%elem_of_nil. }
  pose proof (attempt_no_retry (frame a) (Retry k)) as R.
  destruct (attempt (frame a)) as [ps [|]]; simpl in R.
  - intros H. by specialize (R H).
  - rewrite elem_of_app, elem_of_cons. intros [H|[[= ->]|H]].
    + by specialize (R H).
    + lia.
    + apply IH in H. lia.
Qed.

Lemma within_no_document budget a frame :
  (forall k, frame k = NoDocument) ->
  injectLink_within budget a frame = Retry <$> seq (S a) budget.
Proof.
  intros H. revert a. induction budget as [|budget IH]; intros a; simpl; [done|].
  rewrite H. simpl. by rewrite IH.
Qed.

Lemma attempt_toggle obs :
  InsertToggle ∈ fst (attempt obs) ->
  snd (attempt obs) = true /\
  (exists qs, fst (attempt obs) = qs ++ [InsertToggle] /\ InsertToggle ∉ qs) /\
  exists doc, obs = Document doc /\ toolbarViewerRight doc = true /\
              injected_fullscreen_toggle doc = false.
Proof.
  destruct obs as [|doc|]; simpl.
  - by intros ?%elem_of_nil.
  - assert (N : InsertToggle ∉ match customToolbar doc with
                                | Some buttons => hide_save_buttons 0 buttons
                                | None => []
                                end).
    { destruct (customToolbar doc);
        [by intros (i & text & [=] & _)%hide_save_buttons_elem
        |by intros ?%elem_of_nil]. }
    revert N.
    generalize (match customToolbar doc with
                | Some buttons => hide_save_buttons 0 buttons
                | None => []
                end).
    intros hidden N.
    assert (N' : InsertToggle ∉
                   ((if download doc then [ShowElement "download"] else []) ++
                    (if secondaryDownload doc then [ShowElement "secondaryDownload"]
                     else [])) ++ hidden).
    { destruct (download doc), (secondaryDownload doc); simpl;
        rewrite ?elem_of_cons; intuition discriminate. }
    destruct (toolbarViewerRight doc) eqn:Tb,
      (injected_fullscreen_toggle doc) eqn:Inj; simpl;
      try (intros H; by destruct N').
    intros _. split; [done|]. split; [|by exists doc].
    eexists. split; [apply app_assoc | exact N'].
  - intros [=]%list_elem_of_singleton.
Qed.

Lemma within_toggle budget a frame :
  InsertToggle ∈ injectLink_within budget a frame ->
  exists qs k doc,
    injectLink_within budget a frame = qs ++ [InsertToggle] /\ (InsertToggle ∉ qs) /\
    (a <= k < a + budget)%nat /\ retries qs = (k - a)%nat /\
    frame k = Document doc /\ toolbarViewerRight doc = true /\
    injected_fullscreen_toggle doc = false.
Proof.
  revert a. induction budget as [|budget IH]; intros a; simpl.
  { by intros ?%elem_of_nil. }
  pose proof (attempt_toggle (frame a)) as Tg.
  pose proof (attempt_no_retry (frame a)) as Nr.
  destruct (attempt (frame a)) as [ps [|]] eqn:E; simpl in Tg, Nr.
  - intros H. destruct (Tg H) as (_ & (qs & -> & Hq) & doc & Hd & Tb & Inj).
    exists qs, a, doc. repeat (split; [done || lia|]). split; [|done].
    rewrite Nat.sub_diag. apply retries_none. intros p Hp. apply Nr.
    apply elem_of_app. by left.
  - rewrite elem_of_app, elem_of_cons. intros [H|[[=]|H]].
    { by destruct (Tg H). }
    destruct (IH _ H) as (qs & k & doc & -> & Hq & Hk & Hr & Hd).
    exists (ps ++ Retry (S a) :: qs), k, doc.
    split; [by rewrite <- app_assoc|]. split.
    { rewrite elem_of_app, elem_of_cons. intros [H'|[[=]|H']]; [|done].
      by destruct (Tg H'). }
    split; [lia|]. split; [|done].
    rewrite retries_app, (retries_none ps Nr). unfold retries at 1.
    rewrite filter_cons_True by done. simpl. fold (retries qs). lia.
Qed.

(** X24: the injection gives up.  A call with [attempts] schedules at
    most [11 - attempts] retries, numbered from [attempts + 1] up to 11
    at most; a call with more than 10 does nothing at all; and a frame
    that never has a document gets exactly these retries and no patch. *)
Theorem X24_injection_gives_up_after_eleven_attempts (attempts : nat)
    (frame : nat -> Observation) :
  (retries (injectLink attempts frame) <= 11 - attempts)%nat /\
  (forall k, Retry k ∈ injectLink attempts frame -> (attempts < k <= 11)%nat) /\
  ((10 < attempts)%nat -> injectLink attempts frame = []) /\
  ((forall k, frame k = NoDocument) ->
     injectLink attempts frame = Retry <$> seq (S attempts) (11 - attempts)).
Proof.
  unfold injectLink. split; [apply within_retries|]. split.
  { intros k H%within_retry_range. lia. }
  split.
  { intros H. by replace (11 - attempts)%nat with 0%nat by lia. }
  apply within_no_document.
Qed.

Lemma X24_injection_gives_up_after_eleven_attempts_witness :
  injectLink 8 (fun _ => NoDocument) = [Retry 9; Retry 10; Retry 11] /\
  injectLink 11 (fun _ => Raises) = [].
Proof.
  split.
  - rewrite (proj2 (proj2 (proj2 (X24_injection_gives_up_after_eleven_attempts 8
                                    (fun _ => NoDocument)))) (fun _ => eq_refl)).
    reflexivity.
  - apply (proj1 (proj2 (proj2 (X24_injection_gives_up_after_eleven_attempts 11
                                  (fun _ => Raises))))).
    lia.
Defined.

(** X25: the full-screen toggle is inserted at most once per injection,
    as its very last patch, by the first attempt that finds a document
    with the right-hand toolbar and no toggle yet, after one retry for
    every attempt before it.  An attempt that finds the toggle in place
    ends the injection without inserting and without retrying. *)
Theorem X25_toggle_inserted_at_most_once (attempts : nat) (frame : nat -> Observation) :
  (InsertToggle ∈ injectLink attempts frame ->
   exists qs k doc,
     injectLink attempts frame = qs ++ [InsertToggle] /\ (InsertToggle ∉ qs) /\
     (attempts <= k <= 10)%nat /\ retries qs = (k - attempts)%nat /\
     frame k = Document doc /\ toolbarViewerRight doc = true /\
     injected_fullscreen_toggle doc = false) /\
  (forall doc, frame attempts = Document doc -> injected_fullscreen_toggle doc = true ->
     (InsertToggle ∉ injectLink attempts frame) /\
     retries (injectLink attempts frame) = 0%nat).
Proof.
  unfold injectLink. split.
  - intros H.
    destruct (within_toggle _ _ _ H) as (qs & k & doc & E & Hq & Hk & R & Hd & Tb & Inj).
    exists qs, k, doc. repeat (split; [done || lia|]). done.
  - intros doc Hd Inj.
    destruct (11 - attempts)%nat as [|budget] eqn:B; simpl.
    { split; [by intros ?%elem_of_nil | done]. }
    pose proof (attempt_toggle (frame attempts)) as Tg.
    pose proof (attempt_retries (frame attempts)) as Nr.
    assert (R : snd (attempt (frame attempts)) = true).
    { rewrite Hd. simpl. rewrite Inj. by destruct (toolbarViewerRight doc). }
    destruct (attempt (frame attempts)) as [ps ret]. simpl in *. subst ret.
    split; [|done]. intros H. destruct (Tg H) as (_ & _ & doc' & Hd' & _ & Inj').
    congruence.
Qed.

Lemma X25_toggle_inserted_at_most_once_witness :
  let ready := Document (mkFrame true false (Some [Some "Save"; Some "Print"]) true false) in
  let frame := fun k : nat => if (k <? 2)%nat then NoDocument else ready in
  injectLink 0 frame
  = [Retry 1; Retry 2; ShowElement "download"; HideCustomButton 0; InsertToggle].
Proof.
  intros ready frame.
  destruct (proj1 (X25_toggle_inserted_at_most_once 0 frame))
    as (qs & k & doc & E & _); [vm_compute; set_solver|].
  vm_compute. reflexivity.
Defined.

(** X26: after a pass over a document, the buttons hidden in the custom
    toolbar are exactly those whose trimmed label is one of '保存',
    'Save' and 'Speichern', compared case-sensitively; without a custom
    toolbar nothing is hidden. *)
Theorem X26_only_save_buttons_are_hidden (doc : FrameDocument) (i : nat) :
  (HideCustomButton i ∈ fst (attempt (Document doc)) <->
   exists buttons text,
     customToolbar doc = Some buttons /\ buttons !! i = Some (Some text) /\
     (text = "保存" \/ text = "Save" \/ text = "Speichern")).
Proof.
  assert (L : forall text, is_save_label text = true <->
                exists t, text = Some t /\ (t = "保存" \/ t = "Save" \/ t = "Speichern")).
  { intros [t|]; simpl; [|split; [done | by intros (t & [=] & _)]].
    rewrite !orb_true_iff, !bool_decide_eq_true. split.
    - intros H. exists t. split; [done|]. tauto.
    - intros (t' & [= <-] & H). tauto. }
  assert (H : HideCustomButton i ∈ fst (attempt (Document doc)) <->
              HideCustomButton i ∈ match customToolbar doc with
                                   | Some buttons => hide_save_buttons 0 buttons
                                   | None => []
                                   end).
  { simpl.
    generalize (match customToolbar doc with
                | Some buttons => hide_save_buttons 0 buttons
                | None => []
                end).
    intros hidden.
    destruct (download doc), (secondaryDownload doc), (toolbarViewerRight doc),
      (injected_fullscreen_toggle doc); simpl;
      rewrite ?elem_of_cons, ?elem_of_app, ?elem_of_cons, ?elem_of_nil;
      intuition discriminate. }
  rewrite H. destruct (customToolbar doc) as [buttons|].
  - rewrite hide_save_buttons_elem. split.
    + intros (j & text & [= ->] & Hl & Hs). apply L in Hs as (t & -> & Ht).
      by exists buttons, t.
    + intros (buttons' & t & [= <-] & Hl & Ht). exists i, (Some t).
      split; [done|]. split; [done|]. apply L. by exists t.
  - split; [by intros ?%elem_of_nil | by intros (b & t & [=] & _)].
Qed.

End Injection.

(** ** Saving from the sign view *)

Section SaveRequest.
Import SignPDFTool.

(** X27: [handleSave] never throws and never leaves the view busy.
    Before the viewer is ready, or without an iframe, it only sets
    'Viewer not ready. Please wait for the PDF to load.'.  Otherwise the
    processing flag is false when it returns, a window without the
    viewer application gives 'PDF viewer not initialized.', a rejected
    [save()] gives one console error and 'Failed to save signed PDF.
    Please try again.', and a resolved [save()] leaves the error message
    as it was.  The document, its URL and the file store are never
    touched. *)
Theorem X27_save_request_never_throws (viewer : Viewer) (w : World) :
  exists w',
    handleSave viewer w = (Ok tt, w') /\
    w_files w' = w_files w /\ w_tasks w' = w_tasks w /\
    sign_file (w_sign w') = sign_file (w_sign w) /\
    sign_blobUrl (w_sign w') = sign_blobUrl (w_sign w) /\
    sign_viewerReady (w_sign w') = sign_viewerReady (w_sign w) /\
    (sign_viewerReady (w_sign w) = false \/ viewer = NoIframe ->
       sign_error (w_sign w')
       = Some "Viewer not ready. Please wait for the PDF to load." /\
       sign_isProcessing (w_sign w') = sign_isProcessing (w_sign w) /\
       w_trace w' = w_trace w) /\
    (sign_viewerReady (w_sign w) = true -> viewer <> NoIframe ->
       sign_isProcessing (w_sign w') = false /\
       (viewer = NoApplication ->
          sign_error (w_sign w') = Some "PDF viewer not initialized.") /\
       (viewer = Application (Ok tt) ->
          sign_error (w_sign w') = sign_error (w_sign w) /\ w_trace w' = w_trace w) /\
       (forall e, viewer = Application (Throw e) ->
          sign_error (w_sign w') = Some "Failed to save signed PDF. Please try again." /\
          w_trace w' = w_trace w ++ [CConsoleError])).
Proof.
  unfold handleSave, setError, setIsProcessing. unfold_steps.
  destruct (sign_viewerReady (w_sign w)) eqn:R; destruct viewer as [| |[[]|e]]; simpl;
    eexists; (split; [reflexivity|]); simpl; rewrite ?R;
    do 5 (split; [reflexivity|]).
  all: split;
    [ intros [H|H]; try discriminate H; try (repeat split; reflexivity)
    | intros H1 H2; try discriminate H1; try (by destruct H2);
      (split; [reflexivity|]);
      (split; [intros H3; try discriminate H3; reflexivity|]);
      (split; [intros H3; try discriminate H3; split; reflexivity|]);
      intros e' H3; try discriminate H3; split; reflexivity ].
Qed.

Lemma X27_save_request_never_throws_witness :
  let w := snd (handleIframeLoad fresh_world) in
  exists w', handleSave (Application (Throw NotFoundError)) w = (Ok tt, w') /\
             sign_isProcessing (w_sign w') = false /\
             sign_error (w_sign w') = Some "Failed to save signed PDF. Please try again.".
Proof.
  intros w.
  destruct (X27_save_request_never_throws (Application (Throw NotFoundError)) w)
    as (w' & E & _ & _ & _ & _ & _ & _ & H).
  exists w'. split; [exact E|].
  destruct H as (H1 & _ & _ & H2); [reflexivity | discriminate |].
  split; [exact H1|]. exact (proj1 (H2 NotFoundError eq_refl)).
Defined.

End SaveRequest.

(** ** The theme toggle *)

Section Theme.
Import ThemeToggle.

(** X28: a click on the toggle switches to pink exactly from blue and to
    blue from anything else; the preference stored and the palette
    applied are those of the new theme; two clicks from blue or pink give
    back the theme, and from then on the theme alternates. *)
Theorem X28_theme_toggle_alternates (st : State) :
  let st1 := toggleTheme st in
  let st2 := toggleTheme st1 in
  (theme st1 = "pink" <-> theme st = "blue") /\
  (theme st1 = "blue" <-> theme st <> "blue") /\
  stored st1 = Some (theme st1) /\
  applied st1 = Some (if decide (theme st1 = "pink") then pink_palette else blue_palette) /\
  (theme st = "blue" \/ theme st = "pink" -> theme st2 = theme st) /\
  theme (toggleTheme st2) = theme st1.
Proof.
  destruct st as [t s a]. unfold toggleTheme, applyTheme. simpl.
  destruct (decide (t = "blue")) as [->|Ht]; simpl.
  - repeat split; try done; intros H; by destruct H.
  - repeat split; try done; intros [->| ->]; done.
Qed.

Lemma X28_theme_toggle_alternates_witness :
  theme (toggleTheme (toggleTheme (initial None))) = "blue" /\
  applied (toggleTheme (initial None)) = Some pink_palette.
Proof.
  destruct (X28_theme_toggle_alternates (initial None)) as (_ & _ & _ & H1 & H2 & _).
  split; [apply H2; by left | exact H1].
Defined.

(** X29: on mount a stored preference becomes the theme and its palette
    is applied; no preference, or an empty one, leaves the blue default
    with nothing applied.  A stored value that is neither 'blue' nor
    'pink' becomes the theme as it is and gets the blue palette, so the
    first click after it switches to blue and changes no colour. *)
Theorem X29_saved_theme_is_restored (saved : option string) :
  let st := loadSavedTheme (initial saved) in
  stored st = saved /\
  (saved = None \/ saved = Some "" -> theme st = "blue" /\ applied st = None) /\
  (forall t, saved = Some t -> t <> "" ->
     theme st = t /\
     applied st = Some (if decide (t = "pink") then pink_palette else blue_palette) /\
     (t <> "blue" -> t <> "pink" ->
        applied st = Some blue_palette /\
        theme (toggleTheme st) = "blue" /\
        applied (toggleTheme st) = applied st)).
Proof.
  unfold loadSavedTheme, initial, toggleTheme, applyTheme, setTheme. simpl.
  destruct saved as [t|]; simpl.
  - destruct (decide (t = "")) as [->|Ht]; simpl.
    + split; [done|]. split; [done|]. intros t [= <-] H. done.
    + split; [done|]. split; [by intros [[=]|[= ->]]|].
      intros t' [= <-] _. split; [done|]. split; [done|].
      intros Hb Hp.
      destruct (decide (t = "blue")); [done|].
      destruct (decide (t = "pink")); [done|]. done.
  - split; [done|]. split; [done|]. intros t [=].
Qed.

Lemma X29_saved_theme_is_restored_witness :
  theme (loadSavedTheme (initial (Some "pink"))) = "pink" /\
  applied (loadSavedTheme (initial (Some "pink"))) = Some pink_palette /\
  theme (toggleTheme (loadSavedTheme (initial (Some "green")))) = "blue".
Proof.
  assert (N : "pink" <> "") by discriminate.
  assert (N1 : "green" <> "") by discriminate.
  assert (N2 : "green" <> "blue") by discriminate.
  assert (N3 : "green" <> "pink") by discriminate.
  destruct (proj2 (proj2 (X29_saved_theme_is_restored (Some "pink"))) "pink" eq_refl N)
    as (H1 & H2 & _).
  destruct (proj2 (proj2 (X29_saved_theme_is_restored (Some "green"))) "green" eq_refl N1)
    as (_ & _ & H3).
  split; [exact H1|]. split; [exact H2|]. exact (proj1 (proj2 (H3 N2 N3))).
Defined.

End Theme.

(** ** From the viewer to the tool views *)

Section ViewerMessages.
Import StorageInterceptor.

#[local] Arguments EditPDFTool.handleMessage : simpl never.
#[local] Arguments SignPDFTool.handleMessage : simpl never.

(** X30: what the interceptor posts is what the tool views listen for.
    The hijacked download posts at most one message, a save request with
    the viewer's file name and the blob it was given or fetched, and logs
    an error only when the fetch failed; both views run their save steps
    on it.  A session save posts at most one message, a backup of the
    document typed 'application/pdf'; both views queue it for their own
    session name, and the name 'session_auto_save.pdf' it carries is not
    used for anything. *)
Theorem X30_viewer_messages_reach_the_handlers (w : World) :
  (forall fetch blob url filename m,
     m ∈ fst (download fetch blob url filename) ->
     fst (download fetch blob url filename) = [m] /\
     snd (download fetch blob url filename) = false /\
     exists b,
       m = save_message b filename /\
       (blob = Some b \/ (blob = None /\ exists u, url = Some u /\ fetch u = Ok b)) /\
       (exists w', EditPDFTool.handleMessage m w = (Ok tt, w') /\
          save_data_handled "edited_" EditPDFTool.SESSION_FILE_NAME m b w w'
            (edit_error (w_edit w)) (edit_error (w_edit w'))) /\
       (exists w', SignPDFTool.handleMessage m w = (Ok tt, w') /\
          save_data_handled "signed_" SignPDFTool.SESSION_FILE_NAME m b w w'
            (sign_error (w_sign w)) (sign_error (w_sign w')))) /\
  (forall fetch blob url filename,
     snd (download fetch blob url filename) = true ->
     fst (download fetch blob url filename) = [] /\
     blob = None /\ exists u e, url = Some u /\ fetch u = Throw e) /\
  (forall document m,
     m ∈ fst (saveSession document) ->
     exists data,
       document = Some (Ok data) /\
       fst (saveSession document) = [m] /\
       msg_filename m = Some "session_auto_save.pdf" /\
       EditPDFTool.handleMessage m w
       = (Ok tt, set_tasks (w_tasks w ++
                    [TaskSave EditPDFTool.SESSION_FILE_NAME
                              (mkBlob "application/pdf" data) CConsoleWarn]) w) /\
       SignPDFTool.handleMessage m w
       = (Ok tt, set_tasks (w_tasks w ++
                    [TaskSave SignPDFTool.SESSION_FILE_NAME
                              (mkBlob "application/pdf" data) CConsoleWarn]) w)).
Proof.
  assert (Hsave : forall b filename,
    (exists w', EditPDFTool.handleMessage (save_message b filename) w = (Ok tt, w') /\
       save_data_handled "edited_" EditPDFTool.SESSION_FILE_NAME (save_message b filename)
         b w w' (edit_error (w_edit w)) (edit_error (w_edit w'))) /\
    (exists w', SignPDFTool.handleMessage (save_message b filename) w = (Ok tt, w') /\
       save_data_handled "signed_" SignPDFTool.SESSION_FILE_NAME (save_message b filename)
         b w w' (sign_error (w_sign w)) (sign_error (w_sign w')))).
  { intros b filename. split.
    - destruct (edit_save_data_spec (save_message b filename) b w eq_refl eq_refl)
        as (w' & E & H & _). by exists w'.
    - destruct (sign_save_data_spec (save_message b filename) b w eq_refl eq_refl)
        as (w' & E & H & _). by exists w'. }
  split; [|split].
  - intros fetch blob url filename m. unfold download.
    destruct blob as [b|]; simpl.
    { intros ->%list_elem_of_singleton. split; [done|]. split; [done|].
      exists b. split; [done|]. split; [by left|]. apply Hsave. }
    destruct url as [u|]; simpl; [|by intros ?%elem_of_nil].
    destruct (decide (u = "")); simpl; [by intros ?%elem_of_nil|].
    destruct (fetch u) as [b|e] eqn:F; simpl; [|by intros ?%elem_of_nil].
    intros ->%list_elem_of_singleton. split; [done|]. split; [done|].
    exists b. split; [done|]. split; [right; split; [done|]; by exists u|].
    apply Hsave.
  - intros fetch blob url filename. unfold download.
    destruct blob as [b|]; simpl; [done|].
    destruct url as [u|]; simpl; [|done].
    destruct (decide (u = "")); simpl; [done|].
    destruct (fetch u) as [b|e] eqn:F; simpl; [done|].
    intros _. split; [done|]. split; [done|]. by exists u, e.
  - intros document m. unfold saveSession.
    destruct document as [[data|e]|]; simpl; [|by intros ?%elem_of_nil..].
    intros ->%list_elem_of_singleton. exists data. done.
Qed.

Lemma X30_viewer_messages_reach_the_handlers_witness :
  exists w',
    EditPDFTool.handleMessage
      (sendToParent (Some blob_A) (Some "out.pdf") "PDF_SAVE_DATA") fresh_world
    = (Ok tt, w') /\
    save_data_handled "edited_" EditPDFTool.SESSION_FILE_NAME
      (save_message blob_A (Some "out.pdf")) blob_A fresh_world w'
      (edit_error (w_edit fresh_world)) (edit_error (w_edit w')).
Proof.
  destruct (proj1 (X30_viewer_messages_reach_the_handlers fresh_world)
              (fun _ => Throw NotFoundError) (Some blob_A) None (Some "out.pdf")
              (save_message blob_A (Some "out.pdf")))
    as (_ & _ & b & Hm & _ & (w' & E & H) & _).
  - simpl. by left.
  - assert (b = blob_A) as -> by (by injection Hm).
    exists w'. split; [exact E | exact H].
Defined.

End ViewerMessages.
